(** * Timed reveal sequencer of the SAF-AR viewer

    A shallow embedding of the application logic of the viewer: the
    [ModelManager] object (registry of loaded models, their animation
    mixers and actions, the reset cycle), the loaders [loadTestModels] and
    [initializeAR], and the animation sequence that the image-tracking
    callbacks start and stop.

    Three revisions of the program are in the repository:
    - [js/main.js]: the first [ModelManager] (module [Legacy] below);
    - the revision with the reset cycle, whose [showModel] always arms a
      timer ([RevTimed]);
    - the revision that adds the tracking-driven animation sequence and
      makes [showModel] return early in AR mode ([RevTracked]).

    The host (timers, network) and three.js (actions, mixers) are not part
    of the repository; only the operations the program calls are modelled:
    [setTimeout]/[setInterval]/[clearTimeout] as a queue of pending timers,
    and an action as the record of the fields the program reads and writes.

    Left out: rendering, lights and camera, the DOM controls, the text
    boxes as objects of the scene and the debug overlay; the time a
    download takes (a load completes at the instant it is asked for); the
    clock that gives the frames their delta (a frame is an event with the
    delta as datum). *)

From Stdlib Require Import String Ascii List Arith Lia Bool DecimalString Sorted.
From stdpp Require Import gmap strings list fin_maps.
Import ListNotations.

Set Default Proof Using "Type".
Set Warnings "-abstract-large-number".

(* ===================================================================== *)
(** ** Strings, as the program uses them *)
(* ===================================================================== *)

Definition lower_ascii (c : ascii) : ascii :=
  let n := nat_of_ascii c in
  if (65 <=? n) && (n <=? 90) then ascii_of_nat (n + 32) else c.

(** [path.toLowerCase()], on the ASCII range. *)
Fixpoint toLowerCase (s : string) : string :=
  match s with
  | EmptyString => EmptyString
  | String c r => String (lower_ascii c) (toLowerCase r)
  end.

(** [s.endsWith(suffix)] *)
Definition endsWith (s suffix : string) : bool :=
  let n := String.length s in
  let k := String.length suffix in
  (k <=? n) && String.eqb (substring (n - k) k s) suffix.

(** [s.includes(sub)] *)
Fixpoint includes (s sub : string) : bool :=
  String.prefix sub s
  || match s with
     | EmptyString => false
     | String _ r => includes r sub
     end.

Definition string_of_nat (n : nat) : string :=
  NilEmpty.string_of_uint (Nat.to_uint n).

(* ===================================================================== *)
(** ** A JavaScript object used as a map, with its key order

    [Object.keys] lists string keys in insertion order, and an assignment
    to an existing key keeps the key's place.  (Keys that are array indices
    come first in numeric order; a path that loads ends in an extension and
    is never one.) *)
(* ===================================================================== *)

Section JsObject.
Context {V : Type}.

Fixpoint obj_get (k : string) (o : list (string * V)) : option V :=
  match o with
  | [] => None
  | (k', v) :: r => if String.eqb k k' then Some v else obj_get k r
  end.

(** [o[k] = v] *)
Fixpoint obj_set (k : string) (v : V) (o : list (string * V)) : list (string * V) :=
  match o with
  | [] => [(k, v)]
  | (k', v') :: r =>
      if String.eqb k k' then (k, v) :: r else (k', v') :: obj_set k v r
  end.

Definition obj_keys (o : list (string * V)) : list string := map fst o.
End JsObject.

(* ===================================================================== *)
(** ** Data *)
(* ===================================================================== *)

(** Coordinates and scales are kept in thousandths; no claim reads them. *)
Definition Vec3 : Type := (Z * Z * Z)%type.

(** One entry of [getModelConfigs()]. *)
Record Config := {
  cfg_id : string;
  cfg_path : string;
  cfg_position : Vec3;
  cfg_scale : Z;
  cfg_delay : N;
  cfg_visible : bool;
  cfg_enabled : bool
}.

(** The [options] argument of [loadModel]; [None] is an omitted key. *)
Record Options := {
  o_position : option Vec3;
  o_rotation : option Vec3;
  o_scale : option Z;
  o_visible : option bool;
  o_delay : option N
}.

(** [modelOptions = { ...defaultOptions, ...options }] *)
Record ModelOptions := {
  position : Vec3;
  rotation : Vec3;
  scale : Z;
  visible : bool;
  delay : N
}.

Definition mergeOptions (path : string) (options : Options) : ModelOptions :=
  {| position := default (0, 0, 0)%Z (o_position options);
     rotation := default (0, 0, 0)%Z (o_rotation options);
     scale := default (if endsWith (toLowerCase path) ".glb" then 1000%Z else 10%Z)
                      (o_scale options);
     visible := default true (o_visible options);
     delay := default 0%N (o_delay options) |}.

(** An animation clip of a decoded file. *)
Record Clip := { clip_name : string; clip_duration : N }.

Inductive LoopMode := LoopOnce | LoopRepeat.

(** A three.js [AnimationAction]: the fields the program touches.
    [a_mixer] is the mixer that owns the action, [a_scheduled] whether
    [play()] has activated it. *)
Record Action := {
  a_clip : Clip;
  a_mixer : nat;
  a_time : N;
  a_paused : bool;
  a_enabled : bool;
  a_loop : LoopMode;
  a_clamp : bool;
  a_scheduled : bool
}.

(** [mixer.clipAction(animation)] *)
Definition clipAction (mixer : nat) (c : Clip) : Action :=
  {| a_clip := c; a_mixer := mixer; a_time := 0%N; a_paused := false;
     a_enabled := true; a_loop := LoopRepeat; a_clamp := false;
     a_scheduled := false |}.

(** [action.loop = THREE.LoopOnce; action.clampWhenFinished = true] *)
Definition playOnceAndHold (a : Action) : Action :=
  {| a_clip := a_clip a; a_mixer := a_mixer a; a_time := a_time a;
     a_paused := a_paused a; a_enabled := a_enabled a; a_loop := LoopOnce;
     a_clamp := true; a_scheduled := a_scheduled a |}.

(** [action.paused = b] *)
Definition set_paused (b : bool) (a : Action) : Action :=
  {| a_clip := a_clip a; a_mixer := a_mixer a; a_time := a_time a;
     a_paused := b; a_enabled := a_enabled a; a_loop := a_loop a;
     a_clamp := a_clamp a; a_scheduled := a_scheduled a |}.

(** [action.reset()]: un-pauses, enables and rewinds. *)
Definition reset (a : Action) : Action :=
  {| a_clip := a_clip a; a_mixer := a_mixer a; a_time := 0%N;
     a_paused := false; a_enabled := true; a_loop := a_loop a;
     a_clamp := a_clamp a; a_scheduled := a_scheduled a |}.

(** [action.play()] *)
Definition play (a : Action) : Action :=
  {| a_clip := a_clip a; a_mixer := a_mixer a; a_time := a_time a;
     a_paused := a_paused a; a_enabled := a_enabled a; a_loop := a_loop a;
     a_clamp := a_clamp a; a_scheduled := true |}.

(** [action.stop()], as [mixer.stopAllAction()] applies it. *)
Definition stop (a : Action) : Action :=
  {| a_clip := a_clip a; a_mixer := a_mixer a; a_time := 0%N;
     a_paused := false; a_enabled := true; a_loop := a_loop a;
     a_clamp := a_clamp a; a_scheduled := false |}.

(** The root object of a loaded file. *)
Record Object3D := { oid : nat; obj_visible : bool }.

(** An entry of [ModelManager.models]. *)
Record Model := {
  object : Object3D;
  options : ModelOptions;
  animations : list Clip
}.

Definition set_visible (b : bool) (m : Model) : Model :=
  {| object := {| oid := oid (object m); obj_visible := b |};
     options := options m; animations := animations m |}.

Record Spotlight := {
  spot_visible : bool;
  spot_delay : N;
  spot_modelPath : string
}.

Definition set_spot_visible (b : bool) (sp : Spotlight) : Spotlight :=
  {| spot_visible := b; spot_delay := spot_delay sp;
     spot_modelPath := spot_modelPath sp |}.

(** Children of the scene (test mode) or of the anchor group (AR mode). *)
Inductive Node :=
| NodeModel (o : nat)
| NodeSpotlight (i : nat)
| NodeErrorPlane (message : string).

Inductive Error :=
| CannotAccessModel (path : string)
| UnsupportedFormat (path : string)
| LoaderFailed (path : string)
| TypeError (what : string).

Inductive Result (A : Type) :=
| Ok (a : A)
| Throw (e : Error).
Arguments Ok {A} a.
Arguments Throw {A} e.

(* ===================================================================== *)
(** ** The host: timers and network *)
(* ===================================================================== *)

(** The closures the program hands to [setTimeout] and [setInterval]. *)
Inductive Callback :=
| CbShowModel (path : string)
| CbSpotlight (i : nat)
| CbSeqModel (path : string) (o : nat)
| CbSeqSpotlight (i : nat)
| CbResetCycle.

Record Timer := {
  tid : nat;
  due : N;
  period : option N;
  cb : Callback
}.

Inductive NetOp :=
| Head (path : string)
| Decode (path : string).

Record Host := {
  now : N;
  next_tid : nat;
  next_ref : nat;
  timers : list Timer;
  uncaught : list Error
}.

(** What the network answers: whether [fetch(path, HEAD)] is ok, and what
    the loader decodes ([None]: the loader rejects). *)
Record Asset := { asset_animations : list Clip }.

Record Env := {
  head_ok : string -> bool;
  decode : string -> option Asset
}.

Record ModelManager := {
  models : list (string * Model);
  mixers : gmap string nat;
  actions : gmap string (gmap string Action);
  cycleTimer : option nat
}.

Definition cycleInterval : N := 18000.

(** The manager, the timers and the variables the timer callbacks close
    over: all that a callback can read or write. *)
Record State := {
  host : Host;
  mm : ModelManager;
  testMode : bool;
  mindarThree : bool;
  spotlights : list Spotlight;
  timeoutIds : list nat;
  animationSequenceStarted : bool;
  resetPatched : bool
}.

(** The page: the state above, the global [scene] ([None] while it is
    undefined), the anchor group of the AR session, and the requests made
    to the network. *)
Record Page := {
  state : State;
  scene : option (list Node);
  anchor : list Node;
  net_log : list NetOp
}.

Inductive Revision := RevTimed | RevTracked.

(* ===================================================================== *)
(** ** Field updates *)
(* ===================================================================== *)

Definition with_timers (f : list Timer -> list Timer) (h : Host) : Host :=
  {| now := now h; next_tid := next_tid h; next_ref := next_ref h;
     timers := f (timers h); uncaught := uncaught h |}.

Definition with_now (t : N) (h : Host) : Host :=
  {| now := t; next_tid := next_tid h; next_ref := next_ref h;
     timers := timers h; uncaught := uncaught h |}.

Definition with_host (f : Host -> Host) (s : State) : State :=
  {| host := f (host s); mm := mm s; testMode := testMode s;
     mindarThree := mindarThree s;
     spotlights := spotlights s; timeoutIds := timeoutIds s;
     animationSequenceStarted := animationSequenceStarted s;
     resetPatched := resetPatched s |}.

Definition with_mm (f : ModelManager -> ModelManager) (s : State) : State :=
  {| host := host s; mm := f (mm s); testMode := testMode s;
     mindarThree := mindarThree s;
     spotlights := spotlights s; timeoutIds := timeoutIds s;
     animationSequenceStarted := animationSequenceStarted s;
     resetPatched := resetPatched s |}.

Definition with_spotlights (f : list Spotlight -> list Spotlight) (s : State) : State :=
  {| host := host s; mm := mm s; testMode := testMode s;
     mindarThree := mindarThree s;
     spotlights := f (spotlights s); timeoutIds := timeoutIds s;
     animationSequenceStarted := animationSequenceStarted s;
     resetPatched := resetPatched s |}.

Definition with_timeoutIds (l : list nat) (s : State) : State :=
  {| host := host s; mm := mm s; testMode := testMode s;
     mindarThree := mindarThree s;
     spotlights := spotlights s; timeoutIds := l;
     animationSequenceStarted := animationSequenceStarted s;
     resetPatched := resetPatched s |}.

Definition with_started (b : bool) (s : State) : State :=
  {| host := host s; mm := mm s; testMode := testMode s;
     mindarThree := mindarThree s;
     spotlights := spotlights s; timeoutIds := timeoutIds s;
     animationSequenceStarted := b;
     resetPatched := resetPatched s |}.

Definition with_patched (b : bool) (s : State) : State :=
  {| host := host s; mm := mm s; testMode := testMode s;
     mindarThree := mindarThree s;
     spotlights := spotlights s; timeoutIds := timeoutIds s;
     animationSequenceStarted := animationSequenceStarted s;
     resetPatched := b |}.

Definition with_mindar (b : bool) (s : State) : State :=
  {| host := host s; mm := mm s; testMode := testMode s;
     mindarThree := b;
     spotlights := spotlights s; timeoutIds := timeoutIds s;
     animationSequenceStarted := animationSequenceStarted s;
     resetPatched := resetPatched s |}.

Definition with_state (f : State -> State) (p : Page) : Page :=
  {| state := f (state p); scene := scene p; anchor := anchor p;
     net_log := net_log p |}.

Definition with_scene (sc : option (list Node)) (p : Page) : Page :=
  {| state := state p; scene := sc; anchor := anchor p; net_log := net_log p |}.

Definition with_anchor (f : list Node -> list Node) (p : Page) : Page :=
  {| state := state p; scene := scene p; anchor := f (anchor p);
     net_log := net_log p |}.

Definition log_net (op : NetOp) (p : Page) : Page :=
  {| state := state p; scene := scene p; anchor := anchor p;
     net_log := net_log p ++ [op] |}.

Definition with_models (f : list (string * Model) -> list (string * Model))
    (m : ModelManager) : ModelManager :=
  {| models := f (models m); mixers := mixers m; actions := actions m;
     cycleTimer := cycleTimer m |}.

Definition with_mixers (f : gmap string nat -> gmap string nat)
    (m : ModelManager) : ModelManager :=
  {| models := models m; mixers := f (mixers m); actions := actions m;
     cycleTimer := cycleTimer m |}.

Definition with_actions
    (f : gmap string (gmap string Action) -> gmap string (gmap string Action))
    (m : ModelManager) : ModelManager :=
  {| models := models m; mixers := mixers m; actions := f (actions m);
     cycleTimer := cycleTimer m |}.

Definition with_cycleTimer (c : option nat) (m : ModelManager) : ModelManager :=
  {| models := models m; mixers := mixers m; actions := actions m;
     cycleTimer := c |}.

(* ===================================================================== *)
(** ** Timers *)
(* ===================================================================== *)

(** [setTimeout(cb, ms)] and [setInterval(cb, ms)]: a new pending timer, at
    the end of the queue; the result is the state and the timer's id. *)
Definition arm (p : option N) (c : Callback) (ms : N) (s : State) : State * nat :=
  let h := host s in
  let t := {| tid := next_tid h; due := (now h + ms)%N; period := p; cb := c |} in
  (with_host (fun h =>
     {| now := now h; next_tid := S (next_tid h); next_ref := next_ref h;
        timers := timers h ++ [t]; uncaught := uncaught h |}) s,
   next_tid h).

Definition setTimeout (c : Callback) (ms : N) (s : State) : State * nat :=
  arm None c ms s.

Definition setInterval (c : Callback) (ms : N) (s : State) : State * nat :=
  arm (Some ms) c ms s.

Definition cancel (id : nat) (l : list Timer) : list Timer :=
  List.filter (fun t => negb (tid t =? id)) l.

(** [clearTimeout(id)], [clearInterval(id)]; an id that is not pending is
    ignored. *)
Definition clearTimeout (id : nat) (s : State) : State :=
  with_host (with_timers (cancel id)) s.

Definition clearInterval := clearTimeout.

(** The next timer to run: the earliest time, and among equal times the
    one armed first. *)
Fixpoint earliest (l : list Timer) : option Timer :=
  match l with
  | [] => None
  | t :: r =>
      match earliest r with
      | Some u => if (due u <? due t)%N then Some u else Some t
      | None => Some t
      end
  end.

(** A fresh reference, for the identity of an object or a mixer. *)
Definition fresh_ref (s : State) : State * nat :=
  (with_host (fun h =>
     {| now := now h; next_tid := next_tid h; next_ref := S (next_ref h);
        timers := timers h; uncaught := uncaught h |}) s,
   next_ref (host s)).

Definition report (e : Error) (s : State) : State :=
  with_host (fun h =>
     {| now := now h; next_tid := next_tid h; next_ref := next_ref h;
        timers := timers h; uncaught := uncaught h ++ [e] |}) s.

(* ===================================================================== *)
(** ** ModelManager (the revisions with the reset cycle) *)
(* ===================================================================== *)

(** [animation.name || `animation_${index}`] *)
Definition actionName (c : Clip) (index : nat) : string :=
  if String.eqb (clip_name c) "" then "animation_" +:+ string_of_nat index
  else clip_name c.

(** [animations.forEach((animation, index) => { ...; actions[actionName] = action })] *)
Fixpoint build_actions (mk : Clip -> Action) (anims : list Clip) (index : nat)
    (acc : gmap string Action) : gmap string Action :=
  match anims with
  | [] => acc
  | c :: rest => build_actions mk rest (S index) (<[actionName c index := mk c]> acc)
  end.

(** The action [loadModel] creates: once, clamped, paused, then [play()]. *)
Definition loaded_action (mixer : nat) (c : Clip) : Action :=
  play (set_paused true (playOnceAndHold (clipAction mixer c))).

(** The action [resetModels] creates: as above with [reset()] before
    [play()]. *)
Definition recreated_action (mixer : nat) (c : Clip) : Action :=
  play (reset (set_paused true (playOnceAndHold (clipAction mixer c)))).

(** [fixArmyAnimations] clones the clip; the branch for quaternion tracks
    is empty. *)
Definition fixArmyAnimations (c : Clip) : Clip := c.

Definition fixAnimations (anims : list Clip) (path : string) : list Clip :=
  if includes path "ARMY AR" then map fixArmyAnimations anims else anims.

(** What [mixer.update(delta)] does to one of the mixer's actions: an
    action that is activated, enabled and not paused moves on by [delta];
    a play-once action that reaches the end of its clip stops there, paused
    when it is clamped and disabled otherwise; a repeating one wraps. *)
Definition advance_clip (delta : N) (a : Action) : Action :=
  if a_scheduled a && a_enabled a && negb (a_paused a) then
    let t := (a_time a + delta)%N in
    let len := clip_duration (a_clip a) in
    match a_loop a with
    | LoopOnce =>
        if (len <=? t)%N then
          {| a_clip := a_clip a; a_mixer := a_mixer a; a_time := len;
             a_paused := a_clamp a; a_enabled := a_clamp a;
             a_loop := a_loop a; a_clamp := a_clamp a;
             a_scheduled := a_scheduled a |}
        else
          {| a_clip := a_clip a; a_mixer := a_mixer a; a_time := t;
             a_paused := a_paused a; a_enabled := a_enabled a;
             a_loop := a_loop a; a_clamp := a_clamp a;
             a_scheduled := a_scheduled a |}
    | LoopRepeat =>
        {| a_clip := a_clip a; a_mixer := a_mixer a;
           a_time := (if (len =? 0)%N then 0 else t mod len)%N;
           a_paused := a_paused a; a_enabled := a_enabled a;
           a_loop := a_loop a; a_clamp := a_clamp a;
           a_scheduled := a_scheduled a |}
    end
  else a.

(** [Object.keys(this.mixers).forEach(path => this.mixers[path].update(delta))]:
    the actions of the mixers that the manager still holds move on.  (No
    object of the program has a [userData.update], so the second loop of
    [updateAnimations] does nothing.) *)
Definition updateAnimations (delta : N) (s : State) : State :=
  with_mm (fun M =>
    with_actions (fun A : gmap string (gmap string Action) =>
      (fun acts : gmap string Action =>
         (fun a =>
            if existsb (fun '(_, k) => k =? a_mixer a) (map_to_list (mixers M))
            then advance_clip delta a else a) <$> acts) <$> A) M) s.

(** What the closure of [showModel] does when its timer fires. *)
Definition start_clip (a : Action) : Action :=
  play (set_paused false (reset a)).

Definition reveal (path : string) (s : State) : Result State :=
  match obj_get path (models (mm s)) with
  | None => Throw (TypeError "this.models[path] is undefined")
  | Some m =>
      Ok (with_mm (fun M =>
            with_actions (fun A =>
                match A !! path with
                | Some acts => <[path := start_clip <$> acts]> A
                | None => A
                end)
              (with_models (obj_set path (set_visible true m)) M)) s)
  end.

Section ModelManagerOps.
Variable rev : Revision.

(** [if (!testMode && mindarThree) return;], only in the tracked revision. *)
Definition ar_gate (s : State) : bool :=
  match rev with
  | RevTimed => false
  | RevTracked => negb (testMode s) && mindarThree s
  end.

Definition showModel (path : string) (ms : N) (s : State) : State :=
  match obj_get path (models (mm s)) with
  | None => s
  | Some _ =>
      if ar_gate s then s else fst (setTimeout (CbShowModel path) ms s)
  end.

Definition hideModel (path : string) (s : State) : State :=
  match obj_get path (models (mm s)) with
  | None => s
  | Some m =>
      with_mm (fun M =>
        with_actions (fun A =>
            match A !! path with
            | Some acts => <[path := set_paused true <$> acts]> A
            | None => A
            end)
          (with_models (obj_set path (set_visible false m)) M)) s
  end.

Definition hideAllModels (s : State) : State :=
  fold_left (fun s path => hideModel path s) (obj_keys (models (mm s))) s.

(** [mixer.stopAllAction()] on the mixer [k]. *)
Definition stopAllAction (k : nat) (s : State) : State :=
  with_mm (with_actions (fun A : gmap string (gmap string Action) =>
    (fun acts : gmap string Action =>
       (fun a => if a_mixer a =? k then stop a else a) <$> acts) <$> A)) s.

(** The body of the second loop of [resetModels], for one path. *)
Definition resetMixer (path : string) (s : State) : State :=
  match mixers (mm s) !! path with
  | None => s
  | Some old =>
      let s1 := stopAllAction old s in
      match obj_get path (models (mm s1)) with
      | None => s1
      | Some model =>
          let '(s2, newMixer) := fresh_ref s1 in
          let s3 := with_mm (with_mixers <[path := newMixer]>) s2 in
          match animations model with
          | [] => s3
          | _ :: _ =>
              with_mm (with_actions
                <[path := build_actions (recreated_action newMixer)
                            (animations model) 0 ∅]>) s3
          end
      end
  end.

Definition showAgain (path : string) (s : State) : State :=
  match obj_get path (models (mm s)) with
  | None => s
  | Some model => showModel path (delay (options model)) s
  end.

Definition resetModels (s : State) : State :=
  let s1 := hideAllModels s in
  let s2 := fold_left (fun s path => resetMixer path s)
              (obj_keys (models (mm s1))) s1 in
  fold_left (fun s path => showAgain path s) (obj_keys (models (mm s2))) s2.

Definition stopResetCycle (s : State) : State :=
  match cycleTimer (mm s) with
  | Some id => with_mm (with_cycleTimer None) (clearInterval id s)
  | None => s
  end.

Definition startResetCycle (s : State) : State :=
  let s1 := match cycleTimer (mm s) with
            | Some id => clearInterval id s
            | None => s
            end in
  let '(s2, id) := setInterval CbResetCycle cycleInterval s1 in
  with_mm (with_cycleTimer (Some id)) s2.

Definition clearModels (s : State) : State :=
  with_mm (fun M =>
    {| models := []; mixers := ∅; actions := ∅; cycleTimer := cycleTimer M |})
    (stopResetCycle s).

(** The part of [loadModel] that follows the decoding of the file: the
    object and its options, the mixer and the actions when the file has
    animations, the registry entry, and the delayed reveal. *)
Definition install (path : string) (modelOptions : ModelOptions)
    (asset : Asset) (s : State) : State * Model :=
  let '(s, o) := fresh_ref s in
  let obj := {| oid := o; obj_visible := visible modelOptions |} in
  let '(s, anims) :=
    match asset_animations asset with
    | [] => (s, [])
    | _ :: _ =>
        let '(s, mixer) := fresh_ref s in
        let anims := fixAnimations (asset_animations asset) path in
        (with_mm (fun M =>
           with_actions
             <[path := build_actions (loaded_action mixer) anims 0 ∅]>
             (with_mixers <[path := mixer]> M)) s,
         anims)
    end in
  let model := {| object := obj; options := modelOptions;
                  animations := anims |} in
  let s := with_mm (with_models (obj_set path model)) s in
  let s := if (0 <? delay modelOptions)%N && negb (visible modelOptions)
           then showModel path (delay modelOptions) s
           else s in
  (s, model).

Section Load.
Variable env : Env.

Definition supported (path : string) : bool :=
  endsWith (toLowerCase path) ".fbx"
  || endsWith (toLowerCase path) ".glb"
  || endsWith (toLowerCase path) ".gltf".

Definition loadModel (path : string) (opts : Options) (p : Page)
    : Page * Result Model :=
  let modelOptions := mergeOptions path opts in
  let p := log_net (Head path) p in
  if negb (head_ok env path) then (p, Throw (CannotAccessModel path))
  else if supported path then
    let p := log_net (Decode path) p in
    match decode env path with
    | None => (p, Throw (LoaderFailed path))
    | Some asset =>
        let '(s, model) := install path modelOptions asset (state p) in
        (with_state (fun _ => s) p, Ok model)
    end
  else (p, Throw (UnsupportedFormat path)).
End Load.
End ModelManagerOps.

(* ===================================================================== *)
(** ** Loading the configured models *)
(* ===================================================================== *)

(** [displayErrorMessage(message)]: a plane with the message, added to the
    global [scene]; with no scene, [scene.add] is a TypeError. *)
Definition displayErrorMessage (message : string) (p : Page) : Page * Result unit :=
  match scene p with
  | None => (p, Throw (TypeError "scene is undefined"))
  | Some ch => (with_scene (Some (ch ++ [NodeErrorPlane message])) p, Ok tt)
  end.

(** [createSpotlightCylinder(...)]: initially invisible. *)
Definition createSpotlightCylinder (ms : N) (path : string) : Spotlight :=
  {| spot_visible := false; spot_delay := ms; spot_modelPath := path |}.

(** [for (const config of modelConfigs) { ... }], until an exception leaves
    the loop. *)
Fixpoint for_each_config (body : Config -> Page -> Page * Result unit)
    (cfgs : list Config) (p : Page) : Page * Result unit :=
  match cfgs with
  | [] => (p, Ok tt)
  | c :: r =>
      match body c p with
      | (p1, Ok _) => for_each_config body r p1
      | (p1, Throw e) => (p1, Throw e)
      end
  end.

(** [spotlights.forEach(({ spotlight, delay }) => setTimeout(..., delay))];
    [track] says whether the id is pushed on [timeoutIds]. *)
Fixpoint schedule_spotlights (mk : nat -> Callback) (track : bool) (i : nat)
    (l : list Spotlight) (s : State) : State :=
  match l with
  | [] => s
  | sp :: r =>
      let '(s1, id) := setTimeout (mk i) (spot_delay sp) s in
      let s2 := if track then with_timeoutIds (timeoutIds s1 ++ [id]) s1 else s1 in
      schedule_spotlights mk track (S i) r s2
  end.

Definition entry_options (vis : bool) (config : Config) : Options :=
  {| o_position := Some (cfg_position config); o_rotation := None;
     o_scale := Some (cfg_scale config); o_visible := Some vis;
     o_delay := Some (cfg_delay config) |}.

Section Loaders.
Variable rev : Revision.
Variable env : Env.

(** The body of the loop of [loadTestModels]. *)
Definition loadTestModel (config : Config) (p : Page) : Page * Result unit :=
  if negb (cfg_enabled config) then (p, Ok tt)
  else
    match loadModel rev env (cfg_path config)
            (entry_options (cfg_visible config) config) p with
    | (p1, Ok model) =>
        match scene p1 with
        | None => displayErrorMessage ("Failed to load " +:+ cfg_path config) p1
        | Some ch =>
            let p2 := with_scene (Some (ch ++ [NodeModel (oid (object model))])) p1 in
            if includes (cfg_path config) "dis-ball" then (p2, Ok tt)
            else
              let i := length (spotlights (state p2)) in
              let sp := createSpotlightCylinder (cfg_delay config + 500)%N
                          (cfg_path config) in
              (with_state (with_spotlights (fun l => l ++ [sp]))
                 (with_scene (Some (ch ++ [NodeModel (oid (object model));
                                           NodeSpotlight i])) p2),
               Ok tt)
        end
    | (p1, Throw _) =>
        displayErrorMessage ("Failed to load " +:+ cfg_path config) p1
    end.

(** What follows the loop: the spotlight timers, the reset cycle, and the
    wrapping of [resetModels]. *)
Definition afterTestLoad (s : State) : State :=
  with_patched true
    (startResetCycle (schedule_spotlights CbSpotlight false 0 (spotlights s) s)).

(** [loadTestModels()]; its outer [catch] only logs. *)
Definition loadTestModels (cfgs : list Config) (p : Page) : Page :=
  let p0 := with_state (with_spotlights (fun _ => [])) p in
  match for_each_config loadTestModel cfgs p0 with
  | (p1, Ok _) => with_state afterTestLoad p1
  | (p1, Throw _) => p1
  end.

(** The body of the loop of [initializeAR]. *)
Definition loadTrackedModel (config : Config) (p : Page) : Page * Result unit :=
  if negb (cfg_enabled config) then (p, Ok tt)
  else
    match loadModel rev env (cfg_path config) (entry_options false config) p with
    | (p1, Ok model) =>
        let p2 := with_anchor (fun ch => ch ++ [NodeModel (oid (object model))]) p1 in
        if includes (cfg_path config) "dis-ball" then (p2, Ok tt)
        else
          let i := length (spotlights (state p2)) in
          let sp := createSpotlightCylinder (cfg_delay config) (cfg_path config) in
          (with_state (with_spotlights (fun l => l ++ [sp]))
             (with_anchor (fun ch => ch ++ [NodeSpotlight i]) p2),
           Ok tt)
    | (p1, Throw _) =>
        displayErrorMessage ("Failed to load " +:+ cfg_path config) p1
    end.

(** [initializeAR()], from the creation of the MindAR instance on: the
    anchor group, the closure variables [spotlights], [timeoutIds] and
    [animationSequenceStarted], and the loading loop.  An exception is
    logged and thrown again. *)
Definition initializeAR (cfgs : list Config) (p : Page) : Page * Result unit :=
  let p0 := with_anchor (fun _ => [])
              (with_state (fun s =>
                 with_started false
                   (with_timeoutIds []
                      (with_spotlights (fun _ => []) (with_mindar true s)))) p) in
  for_each_config loadTrackedModel cfgs p0.
End Loaders.

(* ===================================================================== *)
(** ** The animation sequence of [initializeAR] *)
(* ===================================================================== *)

(** [timeoutIds.forEach(id => clearTimeout(id)); timeoutIds.length = 0] *)
Definition clearTimeouts (s : State) : State :=
  with_timeoutIds [] (fold_left (fun s id => clearTimeout id s) (timeoutIds s) s).

(** [model.object.visible = false] and, for its actions,
    [action.paused = true; action.reset()], for every path. *)
Definition rewind (a : Action) : Action := reset (set_paused true a).

Definition concealModel (path : string) (s : State) : State :=
  match obj_get path (models (mm s)) with
  | None => s
  | Some m =>
      with_mm (fun M =>
        with_actions (fun A =>
            match A !! path with
            | Some acts => <[path := rewind <$> acts]> A
            | None => A
            end)
          (with_models (obj_set path (set_visible false m)) M)) s
  end.

Definition concealAll (s : State) : State :=
  with_spotlights (map (set_spot_visible false))
    (fold_left (fun s path => concealModel path s) (obj_keys (models (mm s))) s).

(** One round of the loop that arms the model timers. *)
Definition scheduleModel (path : string) (s : State) : State :=
  match obj_get path (models (mm s)) with
  | None => s
  | Some model =>
      let '(s1, id) := setTimeout (CbSeqModel path (oid (object model)))
                         (delay (options model)) s in
      with_timeoutIds (timeoutIds s1 ++ [id]) s1
  end.

Definition startAnimationSequence (s : State) : State :=
  if animationSequenceStarted s then s
  else
    let s1 := with_started true s in
    let s2 := clearTimeouts s1 in
    let s3 := concealAll s2 in
    let s4 := fold_left (fun s path => scheduleModel path s)
                (obj_keys (models (mm s3))) s3 in
    schedule_spotlights CbSeqSpotlight true 0 (spotlights s4) s4.

Definition stopAnimationSequence (s : State) : State :=
  if negb (animationSequenceStarted s) then s
  else
    let s1 := with_started false s in
    let s2 := clearTimeouts s1 in
    concealAll s2.

Definition onTargetFound := startAnimationSequence.
Definition onTargetLost := stopAnimationSequence.

(* ===================================================================== *)
(** ** Running the timers *)
(* ===================================================================== *)

Fixpoint set_nth_spot (i : nat) (l : list Spotlight) : list Spotlight :=
  match l, i with
  | [], _ => []
  | sp :: r, 0 => set_spot_visible true sp :: r
  | sp :: r, S j => sp :: set_nth_spot j r
  end.

(** The closure of the model timer of the sequence.  It holds the model
    record it was armed for; the registry still refers to that object
    exactly when the entry at [path] carries the same identity. *)
Definition seqReveal (path : string) (o : nat) (s : State) : State :=
  if negb (animationSequenceStarted s) then s
  else
    with_mm (fun M =>
      with_actions (fun A =>
          match A !! path with
          | Some acts => <[path := set_paused false <$> (play <$> (reset <$> acts))]> A
          | None => A
          end)
        (with_models (fun ms =>
            match obj_get path ms with
            | Some m => if oid (object m) =? o
                        then obj_set path (set_visible true m) ms else ms
            | None => ms
            end) M)) s.

Definition seqSpotlight (i : nat) (s : State) : State :=
  if negb (animationSequenceStarted s) then s
  else with_spotlights (set_nth_spot i) s.

(** The state in which the callback of the timer [t] starts to run: the
    clock has reached the timer's time, a one-shot timer has left the
    queue and an interval is armed again. *)
Definition dequeue (t : Timer) (s : State) : State :=
  with_host (fun h =>
    with_now (N.max (now h) (due t))
      (with_timers (fun l =>
         match period t with
         | None => cancel (tid t) l
         | Some p =>
             cancel (tid t) l
             ++ [{| tid := tid t; due := (due t + p)%N;
                    period := period t; cb := cb t |}]
         end) h)) s.

Section EventLoop.
Variable rev : Revision.

(** The function the reset cycle calls: [resetModels], and once
    [loadTestModels] has wrapped it, the spotlights too. *)
Definition resetCycle (s : State) : State :=
  let s1 := resetModels rev s in
  if resetPatched s then
    let s2 := with_spotlights (map (set_spot_visible false)) s1 in
    schedule_spotlights CbSpotlight false 0 (spotlights s2) s2
  else s1.

Definition run_callback (c : Callback) (s : State) : Result State :=
  match c with
  | CbShowModel path => reveal path s
  | CbSpotlight i => Ok (with_spotlights (set_nth_spot i) s)
  | CbSeqModel path o => Ok (seqReveal path o s)
  | CbSeqSpotlight i => Ok (seqSpotlight i s)
  | CbResetCycle => Ok (resetCycle s)
  end.

(** The timer [t] fires: its callback runs in the state [dequeue] gives;
    an exception it throws is reported and nothing else happens. *)
Definition fire (t : Timer) (s : State) : State :=
  match run_callback (cb t) (dequeue t s) with
  | Ok s2 => s2
  | Throw e => report e (dequeue t s)
  end.

Definition fire_next (s : State) : option State :=
  match earliest (timers (host s)) with
  | None => None
  | Some t => Some (fire t s)
  end.

(** [n] timers fire, or fewer when the queue runs empty. *)
Fixpoint fire_n (n : nat) (s : State) : State :=
  match n with
  | 0 => s
  | S k => match fire_next s with
           | None => s
           | Some s1 => fire_n k s1
           end
  end.

(** The clock advances to [t]: every timer due by then fires, in order.
    [None] when more than [fuel] timers would have to fire. *)
Fixpoint advance (fuel : nat) (t : N) (s : State) : option State :=
  match earliest (timers (host s)) with
  | None => Some (with_host (fun h => with_now (N.max (now h) t) h) s)
  | Some tm =>
      if (due tm <=? t)%N then
        match fuel with
        | 0 => None
        | S k => advance k t (fire tm s)
        end
      else Some (with_host (fun h => with_now (N.max (now h) t) h) s)
  end.
End EventLoop.

(** What happens on the page once it is loaded: a timer fires, or a frame
    is rendered and the animations move on by the frame's delta. *)
Inductive Event :=
| Fire
| Frame (delta : N).

Fixpoint run (rev : Revision) (evs : list Event) (s : State) : State :=
  match evs with
  | [] => s
  | Fire :: r => run rev r (default s (fire_next rev s))
  | Frame delta :: r => run rev r (updateAnimations delta s)
  end.

(** The state before anything was started. *)
Definition initial (test : bool) : State :=
  {| host := {| now := 0%N; next_tid := 1; next_ref := 0; timers := [];
                uncaught := [] |};
     mm := {| models := []; mixers := ∅; actions := ∅; cycleTimer := None |};
     testMode := test; mindarThree := false;
     spotlights := []; timeoutIds := []; animationSequenceStarted := false;
     resetPatched := false |}.

Definition initial_page (test : bool) : Page :=
  {| state := initial test; scene := None; anchor := []; net_log := [] |}.

(** [initTestScene()]: a new scene (its lights are not recorded). *)
Definition initTestScene (p : Page) : Page := with_scene (Some []) p.

(* ===================================================================== *)
(** ** The first ModelManager ([js/main.js]) *)
(* ===================================================================== *)

Module Legacy.

Record Model := {
  object : Object3D;
  mixer : nat;
  animations : list Clip;
  config : ModelOptions;
  isGLB : bool
}.

(** [ModelManager] with what it touches: the network, the children of
    the scene, and the pending [showModel] timers (time, path). *)
Record State := {
  models : list (string * Model);
  mixers : list nat;
  children : list nat;
  pending : list (N * string);
  clock : N;
  next_ref : nat;
  net_log : list NetOp
}.

Definition log_net (op : NetOp) (s : State) : State :=
  {| models := models s; mixers := mixers s; children := children s;
     pending := pending s; clock := clock s; next_ref := next_ref s;
     net_log := net_log s ++ [op] |}.

Definition with_models (f : list (string * Model) -> list (string * Model))
    (s : State) : State :=
  {| models := f (models s); mixers := mixers s; children := children s;
     pending := pending s; clock := clock s; next_ref := next_ref s;
     net_log := net_log s |}.

Inductive Failure :=
| NotFound (path : string)
| LoadError (path : string).

(** [loadModel(path, options)], with the promise it returns settled. *)
Definition loadModel (env : Env) (path : string) (opts : Options) (s : State)
    : State * (Failure + Model) :=
  let glb := endsWith (toLowerCase path) ".glb"
             || endsWith (toLowerCase path) ".gltf" in
  let config := mergeOptions path opts in
  match obj_get path (models s) with
  | Some m => (s, inr m)
  | None =>
      let s := log_net (Head path) s in
      if negb (head_ok env path) then (s, inl (NotFound path))
      else
        let s := log_net (Decode path) s in
        match decode env path with
        | None => (s, inl (LoadError path))
        | Some asset =>
            let o := next_ref s in
            let mx := S (next_ref s) in
            let m := {| object := {| oid := o; obj_visible := visible config |};
                        mixer := mx;
                        animations := asset_animations asset;
                        config := config; isGLB := glb |} in
            ({| models := obj_set path m (models s);
                mixers := mixers s ++ [mx];
                children := children s; pending := pending s;
                clock := clock s; next_ref := S (S (next_ref s));
                net_log := net_log s |},
             inr m)
        end
  end.

Definition set_visible (b : bool) (m : Model) : Model :=
  {| object := {| oid := oid (object m); obj_visible := b |};
     mixer := mixer m; animations := animations m; config := config m;
     isGLB := isGLB m |}.

(** [showModel(path, delay)], the delay in seconds. *)
Definition showModel (path : string) (seconds : N) (s : State) : State :=
  match obj_get path (models s) with
  | None => s
  | Some m =>
      if (0 <? seconds)%N then
        {| models := models s; mixers := mixers s; children := children s;
           pending := pending s ++ [((clock s + seconds * 1000)%N, path)];
           clock := clock s; next_ref := next_ref s; net_log := net_log s |}
      else with_models (obj_set path (set_visible true m)) s
  end.

Definition hideModel (path : string) (s : State) : State :=
  match obj_get path (models s) with
  | None => s
  | Some m => with_models (obj_set path (set_visible false m)) s
  end.

(** [clearModels()]: every object leaves its parent, then the registry is
    emptied; pending timers are not touched. *)
Definition clearModels (s : State) : State :=
  {| models := []; mixers := [];
     children := List.filter (fun o =>
                   negb (existsb (fun '(_, m) => oid (object m) =? o) (models s)))
                   (children s);
     pending := pending s; clock := clock s; next_ref := next_ref s;
     net_log := net_log s |}.

End Legacy.

(* ===================================================================== *)
(** ** Observations and the notions the properties are stated with *)
(* ===================================================================== *)

Definition visibleModel (path : string) (s : State) : bool :=
  match obj_get path (models (mm s)) with
  | Some m => obj_visible (object m)
  | None => false
  end.

(** The actions of a path; none when the file has no animations. *)
Definition clips (path : string) (s : State) : gmap string Action :=
  default ∅ (actions (mm s) !! path).

(** A clip that was just started: rewound, running, activated. *)
Definition playing_from_zero (a : Action) : Prop :=
  a_time a = 0%N /\ a_paused a = false /\ a_enabled a = true
  /\ a_scheduled a = true.

Definition at_time (t : N) (s : State) : State :=
  with_host (fun h => with_now (N.max (now h) t) h) s.

Definition seq_callback (c : Callback) : bool :=
  match c with
  | CbSeqModel _ _ | CbSeqSpotlight _ => true
  | _ => false
  end.

Definition reveal_callback (c : Callback) : bool :=
  match c with
  | CbShowModel _ => true
  | _ => false
  end.

(** The model timers of the sequence, in queue order: time and path. *)
Fixpoint model_schedule (l : list Timer) : list (N * string) :=
  match l with
  | [] => []
  | t :: r =>
      match cb t with
      | CbSeqModel path _ => (due t, path) :: model_schedule r
      | _ => model_schedule r
      end
  end.

(** A successful load: the HEAD request is ok, the extension is known and
    the loader decodes the file. *)
Definition loads (env : Env) (path : string) : bool :=
  head_ok env path && supported path && bool_decide (is_Some (decode env path)).

(** The states of an AR session: after [initializeAR], the tracking engine
    reports the target found or lost, timers fire, frames are rendered,
    time passes. *)
Inductive tracked (env : Env) (cfgs : list Config) : State -> Prop :=
| tracked_init p :
    initializeAR RevTracked env cfgs (initial_page false) = (p, Ok tt) ->
    tracked env cfgs (state p)
| tracked_found s :
    tracked env cfgs s -> tracked env cfgs (onTargetFound s)
| tracked_lost s :
    tracked env cfgs s -> tracked env cfgs (onTargetLost s)
| tracked_fire s s' :
    tracked env cfgs s -> fire_next RevTracked s = Some s' ->
    tracked env cfgs s'
| tracked_frame s delta :
    tracked env cfgs s -> tracked env cfgs (updateAnimations delta s)
| tracked_wait s t :
    tracked env cfgs s -> tracked env cfgs (at_time t s).

(** *** Restart, in the specification's words

    [stop] cancels every pending reveal callback and hides every asset of
    the registry; [start] arms, for every asset, a reveal at its delay;
    [restart] is [stop] immediately followed by [start]. *)
Definition spec_stop (s : State) : State :=
  hideAllModels
    (with_host (with_timers (List.filter (fun t => negb (reveal_callback (cb t))))) s).

Definition spec_start (rev : Revision) (s : State) : State :=
  fold_left (fun s path => showAgain rev path s) (obj_keys (models (mm s))) s.

Definition spec_restart (rev : Revision) (s : State) : State :=
  spec_start rev (spec_stop s).

(** What a restart is compared on: the state with its mixers, its
    actions and its supply of references blanked.  What is left are the
    registry entries with their visibility, the pending timers and the
    clock, the spotlights and the closure variables. *)
Definition schedule_view (s : State) : State :=
  with_host (fun h =>
      {| now := now h; next_tid := next_tid h; next_ref := 0;
         timers := timers h; uncaught := uncaught h |})
    (with_mm (fun M =>
        {| models := models M; mixers := ∅; actions := ∅;
           cycleTimer := cycleTimer M |}) s).

(* ===================================================================== *)
(** ** Invariants and relations used in the proofs *)
(* ===================================================================== *)

(** Two pages with the same manager and timers, both with a scene. *)
Definition alike (p q : Page) : Prop :=
  state p = state q /\ is_Some (scene p) /\ is_Some (scene q).

(** The scene exists and has the node among its children. *)
Definition scene_has (n : Node) (p : Page) : Prop :=
  exists ch, scene p = Some ch /\ In n ch.

(** Armed earlier: timer ids are handed out in increasing order. *)
Definition tid_lt (a b : Timer) : Prop := tid a < tid b.

(** The pages of the loading loop of [initializeAR], after the entries
    [seen]: no timer is armed, and the registry lists the enabled entries
    in order, each with its delay and invisible. *)
Definition ar_loaded (seen : list Config) (p : Page) : Prop :=
  timers (host (state p)) = []
  /\ now (host (state p)) = 0%N
  /\ testMode (state p) = false
  /\ mindarThree (state p) = true
  /\ animationSequenceStarted (state p) = false
  /\ timeoutIds (state p) = []
  /\ scene p = None
  /\ map (fun '(k, m) => (k, delay (options m), obj_visible (object m)))
       (models (mm (state p)))
     = map (fun c => (cfg_path c, cfg_delay c, false))
         (List.filter cfg_enabled seen).

(** Every pending timer was armed by the sequence: its id is on
    [timeoutIds] and below the next id, it is one-shot, and ids grow along
    the queue. *)
Definition armed (s : State) : Prop :=
  Forall (fun t => In (tid t) (timeoutIds s) /\ seq_callback (cb t) = true
                   /\ period t = None /\ tid t < next_tid (host s))
    (timers (host s))
  /\ StronglySorted tid_lt (timers (host s)).

(** ... and nothing is pending while the sequence is stopped. *)
Definition seq_inv (s : State) : Prop :=
  armed s /\ (animationSequenceStarted s = false -> timers (host s) = []).

(** The loading loop arms nothing in AR mode. *)
Definition ar_quiet (p : Page) : Prop :=
  timers (host (state p)) = []
  /\ testMode (state p) = false /\ mindarThree (state p) = true
  /\ animationSequenceStarted (state p) = false.

(** Whether a model timer for the path is pending. *)
Definition pending_path (k : string) (l : list Timer) : bool :=
  existsb (String.eqb k) (map snd (model_schedule l)).

(** The invariant of a running sequence: it is started, its timers are
    those it armed, at most one model timer per path, each for the object
    the registry holds, a model is visible exactly when its timer is no
    longer pending, and the clips of a visible model were started. *)
Definition running (s : State) : Prop :=
  animationSequenceStarted s = true
  /\ armed s
  /\ List.NoDup (map snd (model_schedule (timers (host s))))
  /\ (forall t path o, In t (timers (host s)) -> cb t = CbSeqModel path o ->
        exists m, obj_get path (models (mm s)) = Some m /\ oid (object m) = o)
  /\ (forall k m, obj_get k (models (mm s)) = Some m ->
        obj_visible (object m) = negb (pending_path k (timers (host s))))
  /\ (forall k name a, visibleModel k s = true ->
        clips k s !! name = Some a -> playing_from_zero a).

(** The model timers that the loop over the keys [ks] arms at time [t0]. *)
Definition sched_of (ms : list (string * Model)) (t0 : N) (ks : list string)
    : list (N * string) :=
  flat_map (fun k => match obj_get k ms with
                     | Some m => [((t0 + delay (options m))%N, k)]
                     | None => []
                     end) ks.

(** The order of the timer queue: by time, then by arming order. *)
Definition fires_before (a b : Timer) : Prop :=
  (due a < due b)%N \/ (due a = due b /\ tid a < tid b).

(** The pending timers are among those of [L], and a timer of [L] that
    is still pending has every later one pending too. *)
Definition in_order (L : list Timer) (s : State) : Prop :=
  (forall u, In u (timers (host s)) -> In u L)
  /\ forall a b, In a L -> In b L -> fires_before a b ->
       In a (timers (host s)) -> In b (timers (host s)).

(** An operation whose effect on the view is a function of the view. *)
Definition view_local (f : State -> State) : Prop :=
  forall s, schedule_view (f s) = schedule_view (f (schedule_view s)).

(* ===================================================================== *)
(** ** Worked configurations *)
(* ===================================================================== *)

(** A network on which every file is there and decodes to one clip. *)
Definition env_ok : Env :=
  {| head_ok := fun _ => true;
     decode := fun _ =>
       Some {| asset_animations :=
                 [{| clip_name := "Take 001"; clip_duration := 3000 |}] |} |}.

(** The same, with one file missing. *)
Definition env_missing : Env :=
  {| head_ok := fun path => negb (String.eqb path "models/missing.fbx");
     decode := decode env_ok |}.

Definition entry (id path : string) (ms : N) (vis en : bool) : Config :=
  {| cfg_id := id; cfg_path := path; cfg_position := (0, 0, 0)%Z;
     cfg_scale := 10%Z; cfg_delay := ms; cfg_visible := vis;
     cfg_enabled := en |}.

(** Three hidden entries with delays 0, 1000 and 500, and a disabled one. *)
Definition cfgs_abc : list Config :=
  [entry "A" "models/a.fbx" 0 false true;
   entry "B" "models/b.fbx" 1000 false true;
   entry "off" "models/off.fbx" 200 false false;
   entry "C" "models/c.glb" 500 false true].

(** Two entries for the same file, with different delays. *)
Definition cfgs_same_path : list Config :=
  [entry "X1" "models/a.glb" 1000 false true;
   entry "X2" "models/a.glb" 2000 false true].

(** Three entries with the same delay, the first and the last for the
    same file. *)
Definition cfgs_tie : list Config :=
  [entry "X" "models/x.fbx" 1000 false true;
   entry "Y" "models/y.fbx" 1000 false true;
   entry "X2" "models/x.fbx" 1000 false true].

(** One entry whose delay is longer than the reset cycle. *)
Definition cfgs_slow : list Config :=
  [entry "A" "models/a.fbx" 20000 false true].

(** One entry whose file is missing, between two that load. *)
Definition cfgs_missing : list Config :=
  [entry "A" "models/a.fbx" 1000 false true;
   entry "Z" "models/missing.fbx" 2000 false true;
   entry "B" "models/b.fbx" 3000 false true].

(** Test mode: [initTestScene] then [loadTestModels]. *)
Definition test_page (env : Env) (cfgs : list Config) : Page :=
  loadTestModels RevTimed env cfgs (initTestScene (initial_page true)).

(** AR mode: the page that [initializeAR] leaves. *)
Definition tracked_page (cfgs : list Config) : Page :=
  fst (initializeAR RevTracked env_ok cfgs (initial_page false)).

(** The target was found at time 0 and the first timer has fired. *)
Definition tracked_midway : State :=
  let s := onTargetFound (state (tracked_page cfgs_abc)) in
  default s (fire_next RevTracked s).

(** The state in which the reset cycle's callback starts to run for the
    first time, 18000 ms after the load of [cfgs_slow]. *)
Definition cycle_entry : State :=
  let s := state (test_page env_ok cfgs_slow) in
  match earliest (timers (host s)) with
  | Some t => dequeue t s
  | None => s
  end.

(** Test mode on [cfgs_abc]: every reveal has fired by 17000, a frame
    has moved the clips on by 2000, and the reset cycle's callback starts
    to run at 18000. *)
Definition cycle_entry_abc : State :=
  let s := default (initial true)
             (advance RevTimed 16 17000 (state (test_page env_ok cfgs_abc))) in
  let s := updateAnimations 2000 s in
  match earliest (timers (host s)) with
  | Some t => dequeue t s
  | None => s
  end.

(** The positions of the clips of a path. *)
Definition positions (path : string) (s : State) : list (string * N) :=
  map (fun '(name, a) => (name, a_time a)) (map_to_list (clips path s)).

Definition hidden_now : Options :=
  {| o_position := None; o_rotation := None; o_scale := None;
     o_visible := Some false; o_delay := Some 0%N |}.

(* ===================================================================== *)
(** ** The shipped configuration *)
(* ===================================================================== *)

(** [getModelConfigs()] of the revision with the reset cycle, positions
    and scales in thousandths. *)
Definition getModelConfigs : list Config :=
  [ {| cfg_id := "army"; cfg_path := "models/army-ar.glb";
       cfg_position := (1500, 0, 1000)%Z; cfg_scale := 1000%Z;
       cfg_delay := 2000; cfg_visible := false; cfg_enabled := true |};
    {| cfg_id := "civilian"; cfg_path := "models/civilian.fbx";
       cfg_position := (0, 0, 3000)%Z; cfg_scale := 10%Z;
       cfg_delay := 100; cfg_visible := false; cfg_enabled := true |};
    {| cfg_id := "rsaf"; cfg_path := "models/rsaf.fbx";
       cfg_position := (-1500, 0, 1000)%Z; cfg_scale := 10%Z;
       cfg_delay := 3500; cfg_visible := false; cfg_enabled := true |};
    {| cfg_id := "dis"; cfg_path := "models/dis.glb";
       cfg_position := (-3000, 0, 0)%Z; cfg_scale := 1000%Z;
       cfg_delay := 6500; cfg_visible := false; cfg_enabled := true |};
    {| cfg_id := "ball"; cfg_path := "models/dis-ball.fbx";
       cfg_position := (-3100, 1600, 1400)%Z; cfg_scale := 7%Z;
       cfg_delay := 11000; cfg_visible := false; cfg_enabled := true |};
    {| cfg_id := "navy"; cfg_path := "models/navy.fbx";
       cfg_position := (3000, 0, 0)%Z; cfg_scale := 10%Z;
       cfg_delay := 5000; cfg_visible := false; cfg_enabled := true |} ].

(* ===================================================================== *)
(** ** What a loading loop is expected to leave *)
(* ===================================================================== *)

(** An enabled entry whose file loads. *)
Definition loadable (env : Env) (c : Config) : bool :=
  cfg_enabled c && loads env (cfg_path c).

(** An entry that gets a spotlight. *)
Definition spotlit (env : Env) (c : Config) : bool :=
  loadable env c && negb (includes (cfg_path c) "dis-ball").

(** An entry whose load arms a reveal. *)
Definition timed (env : Env) (c : Config) : bool :=
  loadable env c && (0 <? cfg_delay c)%N && negb (cfg_visible c).

(** The requests one load makes. *)
Definition requests (env : Env) (path : string) : list NetOp :=
  if head_ok env path && supported path then [Head path; Decode path]
  else [Head path].

(** A node without the identity of its object. *)
Definition anonymous (n : Node) : Node :=
  match n with
  | NodeModel _ => NodeModel 0
  | NodeSpotlight i => NodeSpotlight i
  | NodeErrorPlane m => NodeErrorPlane m
  end.

(** The nodes the loop of [loadTestModels] adds, [i] spotlights being
    there already. *)
Fixpoint test_nodes (env : Env) (i : nat) (cfgs : list Config) : list Node :=
  match cfgs with
  | [] => []
  | c :: r =>
      if negb (cfg_enabled c) then test_nodes env i r
      else if loads env (cfg_path c) then
        if includes (cfg_path c) "dis-ball" then NodeModel 0 :: test_nodes env i r
        else NodeModel 0 :: NodeSpotlight i :: test_nodes env (S i) r
      else NodeErrorPlane ("Failed to load " +:+ cfg_path c) :: test_nodes env i r
  end.

(** A pending timer without its id. *)
Definition timer_view (t : Timer) : N * option N * Callback :=
  (due t, period t, cb t).

(** The timers armed for a list of spotlights at the time [t0], the first
    of them having the index [i]. *)
Fixpoint spot_timers (mk : nat -> Callback) (t0 : N) (i : nat)
    (l : list Spotlight) : list (N * option N * Callback) :=
  match l with
  | [] => []
  | sp :: r => ((t0 + spot_delay sp)%N, None, mk i) :: spot_timers mk t0 (S i) r
  end.

(** A registry entry as the loops are compared on it: its options and
    the visibility of its object. *)
Definition entry_view (e : string * Model) : string * (ModelOptions * bool) :=
  (fst e, (options (snd e), obj_visible (object (snd e)))).

(** The entry the loop of [loadTestModels] stores for a configuration. *)
Definition test_entry (c : Config) : ModelOptions * bool :=
  (mergeOptions (cfg_path c) (entry_options (cfg_visible c) c), cfg_visible c).

(** The entry the loop of [initializeAR] stores: invisible whatever the
    configuration says. *)
Definition tracked_entry (c : Config) : ModelOptions * bool :=
  (mergeOptions (cfg_path c) (entry_options false c), false).

(** The registry after a run of assignments [models[path] = entry]. *)
Definition assign_all {V : Type} (f : Config -> V) (l : list Config)
    (o : list (string * V)) : list (string * V) :=
  fold_left (fun acc c => obj_set (cfg_path c) (f c) acc) l o.

(** What the loading loops leave alone in the state. *)
Definition same_frame (s s' : State) : Prop :=
  now (host s') = now (host s)
  /\ uncaught (host s') = uncaught (host s)
  /\ testMode s' = testMode s
  /\ mindarThree s' = mindarThree s
  /\ timeoutIds s' = timeoutIds s
  /\ animationSequenceStarted s' = animationSequenceStarted s
  /\ resetPatched s' = resetPatched s
  /\ cycleTimer (mm s') = cycleTimer (mm s).

(** The timers that a loop over the spotlights arms at the time [t0]: ids
    from [id] on, spotlight indices from [i] on. *)
Fixpoint armed_spots (mk : nat -> Callback) (t0 : N) (id i : nat)
    (l : list Spotlight) : list Timer :=
  match l with
  | [] => []
  | sp :: r =>
      {| tid := id; due := (t0 + spot_delay sp)%N; period := None; cb := mk i |}
      :: armed_spots mk t0 (S id) (S i) r
  end.

(** The interval of the reset cycle, armed at the time [t0]. *)
Definition cycle_timer (id : nat) (t0 : N) : Timer :=
  {| tid := id; due := (t0 + cycleInterval)%N; period := Some cycleInterval;
     cb := CbResetCycle |}.

(** A list with every kind of entry: one that loads, one whose file is
    missing, one with an extension that is not supported, a disabled one,
    a "dis-ball" and one that is visible from the start. *)
Definition cfgs_mixed : list Config :=
  [entry "A" "models/a.fbx" 1000 false true;
   entry "Z" "models/missing.fbx" 2000 false true;
   entry "T" "models/notes.txt" 0 true true;
   entry "off" "models/off.fbx" 200 false false;
   entry "ball" "models/dis-ball.fbx" 3000 false true;
   entry "V" "models/v.glb" 0 true true].

(* ===================================================================== *)
(** ** Invariants of an AR session *)
(* ===================================================================== *)

(** Nothing of the experience shows. *)
Definition all_hidden (s : State) : Prop :=
  (forall k, visibleModel k s = false)
  /\ Forall (fun sp => spot_visible sp = false) (spotlights s).

(** The sequence is at rest: nothing pending, nothing remembered, nothing
    shown. *)
Definition at_rest (s : State) : Prop :=
  timers (host s) = [] /\ timeoutIds s = [] /\ all_hidden s.

(** A path is registered once, and a sequence that is not started is at
    rest. *)
Definition tracked_wf (s : State) : Prop :=
  List.NoDup (obj_keys (models (mm s)))
  /\ (animationSequenceStarted s = false -> at_rest s).

(** A registry entry with its options alone. *)
Definition opt_view (e : string * Model) : string * ModelOptions :=
  (fst e, options (snd e)).

(** The model timers of a sequence started at [t0] on the registry with
    the options [l]: one per path, at the delay of its options. *)
Definition sequence_of (t0 : N) (l : list (string * ModelOptions))
    : list (N * string) :=
  map (fun e => ((t0 + delay (snd e))%N, fst e)) l.

(* ===================================================================== *)
(** ** The reset cycle, step by step *)
(* ===================================================================== *)

(** All of the state but the visibilities, the mixers, the actions and
    the supply of references: what hiding and rewinding leave alone. *)
Definition skeleton (s : State) :=
  (timers (host s), now (host s), next_tid (host s), uncaught (host s),
   (testMode s, mindarThree s, resetPatched s, animationSequenceStarted s),
   spotlights s, timeoutIds s, cycleTimer (mm s),
   map opt_view (models (mm s))).

(** The reveals that a loop over the registry arms at the time [t0], ids
    from [id] on. *)
Fixpoint armed_reveals (t0 : N) (id : nat) (l : list (string * ModelOptions))
    : list Timer :=
  match l with
  | [] => []
  | e :: r =>
      {| tid := id; due := (t0 + delay (snd e))%N; period := None;
         cb := CbShowModel (fst e) |}
      :: armed_reveals t0 (S id) r
  end.

(** The entries of an object for a list of keys, absent keys left out. *)
Definition entries_of {V : Type} (o : list (string * V)) (ks : list string)
    : list (string * V) :=
  flat_map (fun k => match obj_get k o with
                     | Some v => [(k, v)]
                     | None => []
                     end) ks.

(* ===================================================================== *)
(** ** The reset cycle in test mode *)
(* ===================================================================== *)

(** What a timer of test mode shows when it fires. *)
Inductive Target :=
| TModel (path : string)
| TSpot (i : nat).

Definition Target_eqb (a b : Target) : bool :=
  match a, b with
  | TModel p, TModel q => String.eqb p q
  | TSpot i, TSpot j => Nat.eqb i j
  | _, _ => false
  end.

Definition target (c : Callback) : option Target :=
  match c with
  | CbShowModel path => Some (TModel path)
  | CbSpotlight i => Some (TSpot i)
  | _ => None
  end.

(** Whether the timer [u] is for the target, and whether a timer for the
    target is pending. *)
Definition aims (tg : Target) (u : Timer) : bool :=
  match target (cb u) with
  | Some tg' => Target_eqb tg tg'
  | None => false
  end.

Definition awaits (tg : Target) (l : list Timer) : bool := existsb (aims tg) l.

Definition shown (tg : Target) (s : State) : bool :=
  match tg with
  | TModel path => visibleModel path s
  | TSpot i =>
      match nth_error (spotlights s) i with
      | Some sp => spot_visible sp
      | None => false
      end
  end.

(** What the timers and the callbacks of test mode leave alone, but for
    the queue and the clock themselves: the flags, the cycle timer, the
    options of the registry and the delays of the spotlights. *)
Definition fixture (s : State) :=
  (next_tid (host s), uncaught (host s),
   (testMode s, mindarThree s, resetPatched s, animationSequenceStarted s),
   timeoutIds s, cycleTimer (mm s),
   map opt_view (models (mm s)), map spot_delay (spotlights s)).

Section Cycle.
Variable rev : Revision.
(** The time of the load, and the time the clock is advanced to. *)
Variables T0 t : N.
(** The options of the registry and the delays of the spotlights. *)
Variable O : list (string * ModelOptions).
Variable D : list N.
(** Whether the load armed a timer for a target, and what a target
    without one shows. *)
Variables A0 ini0 : Target -> bool.

(** The time at which a cycle shows a target. *)
Definition due_of (T : N) (tg : Target) : option N :=
  match tg with
  | TModel path => option_map (fun o => (T + delay o)%N) (obj_get path O)
  | TSpot i => option_map (fun d => (T + d)%N) (nth_error D i)
  end.

(** The start of the cycle [j]; the cycle 0 starts with the load. *)
Definition cycle_start (j : nat) : N := (T0 + cycleInterval * N.of_nat j)%N.

Definition armed_in (j : nat) (tg : Target) : bool :=
  if j =? 0 then A0 tg else true.

(** The state of a page in test mode, in the cycle [j], while the clock
    is advanced to [t]: the interval of the cycle is pending, for its next
    firing; every other pending timer is a one-shot for a target that the
    cycle armed, at the time the cycle shows it, and there is one at most
    per target; a target that the cycle armed shows exactly when its timer
    is gone, and its timer is still there if its time is after [t]. *)
Record cycling (j cid : nat) (s : State) : Prop := {
  cyc_opts : map opt_view (models (mm s)) = O;
  cyc_delays : map spot_delay (spotlights s) = D;
  cyc_gate : ar_gate rev s = false;
  cyc_patched : resetPatched s = true;
  cyc_tids : List.NoDup (map tid (timers (host s)));
  cyc_fresh : Forall (fun u => tid u < next_tid (host s)) (timers (host s));
  cyc_timer : In (cycle_timer cid (cycle_start j)) (timers (host s));
  cyc_others :
    forall u, In u (timers (host s)) ->
      u = cycle_timer cid (cycle_start j)
      \/ (period u = None
          /\ exists tg, target (cb u) = Some tg /\ armed_in j tg = true
                        /\ due_of (cycle_start j) tg = Some (due u));
  cyc_unique :
    forall u v tg, In u (timers (host s)) -> In v (timers (host s)) ->
      target (cb u) = Some tg -> target (cb v) = Some tg -> u = v;
  cyc_now : (now (host s) <= cycle_start j + cycleInterval)%N;
  cyc_reached : j = 0 \/ (cycle_start j <= t)%N;
  cyc_shown :
    forall tg d, due_of (cycle_start j) tg = Some d ->
      shown tg s = if armed_in j tg then negb (awaits tg (timers (host s)))
                   else ini0 tg;
  cyc_pending :
    forall tg d, due_of (cycle_start j) tg = Some d -> armed_in j tg = true ->
      (t < d)%N -> awaits tg (timers (host s)) = true
}.

(** What the page shows at [t]: which cycle it is in, and what of it. *)
Definition cycle_at : nat := N.to_nat ((t - T0) / cycleInterval).

Definition shows_at (tg : Target) : option bool :=
  match due_of (cycle_start cycle_at) tg with
  | Some d => Some (if armed_in cycle_at tg then (d <=? t)%N else ini0 tg)
  | None => None
  end.
End Cycle.

(* ===================================================================== *)
(** ** The text of the text boxes *)
(* ===================================================================== *)

(** What [createTextBox] of the tracked revision writes on its canvas:
    the calls of [context.fillText], each with its text and its [y]; the
    planes and the texture made of the canvas are not recorded. *)

(** [a.join(sep)] *)
Fixpoint join_with (sep : string) (a : list string) : string :=
  match a with
  | [] => ""
  | x :: r =>
      match r with
      | [] => x
      | _ :: _ => x +:+ sep +:+ join_with sep r
      end
  end.

(** [s.split(' ')]: the pieces between the spaces, empty ones too; one
    piece more than [s] has spaces. *)
Fixpoint split_space (s : string) : list string :=
  match s with
  | EmptyString => [""]
  | String c r =>
      if Ascii.eqb c " " then "" :: split_space r
      else match split_space r with
           | w :: ws => String c w :: ws
           | [] => [String c ""]
           end
  end.

Definition maxWidth : N := 800.
Definition lineHeight : N := 36.

Section TextBox.
(** [context.measureText(s).width > maxWidth], for the font of the bottom
    box. *)
Variable tooWide : string -> bool.

(** The loop over the words and the call that follows it, from the word
    with the index [i] on: the lines drawn, in order. *)
Fixpoint wrapText (i : nat) (words : list string) (line : string) (y : N)
    : list (string * N) :=
  match words with
  | [] => [(line, y)]
  | w :: r =>
      let testLine := line +:+ w +:+ " " in
      if tooWide testLine && (0 <? i)
      then (line, y) :: wrapText (S i) r (w +:+ " ") (y + lineHeight)
      else wrapText (S i) r testLine y
  end.

(** [createTextBox(text, position, isAbove)]: the top box draws its first
    two elements, [undefined] when there is none, and the third when it
    is there and not empty; the bottom box wraps its words. *)
Definition createTextBox (text : list string) (isAbove : bool)
    : list (option string * N) :=
  if isAbove then
    [(nth_error text 0, 100%N); (nth_error text 1, 180%N)]
    ++ match nth_error text 2 with
       | Some (String c r) => [(Some (String c r), 260%N)]
       | _ => []
       end
  else
    map (fun l => (Some (fst l), snd l))
      (wrapText 0 (split_space (join_with " " text)) "" 100).
End TextBox.

(** A string without a space. *)
Fixpoint spaceless (s : string) : bool :=
  match s with
  | EmptyString => true
  | String c r => negb (Ascii.eqb c " ") && spaceless r
  end.

(** The strings of a list, one after the other. *)
Definition glue (l : list string) : string := fold_right String.append "" l.

(* ===================================================================== *)
(** ** One reset cycle at a time *)
(* ===================================================================== *)

Definition cycle_callback (c : Callback) : bool :=
  match c with
  | CbResetCycle => true
  | _ => false
  end.

(** The pending timers that call [resetModels]. *)
Definition cycle_intervals (s : State) : list Timer :=
  List.filter (fun u => cycle_callback (cb u)) (timers (host s)).

(** The manager knows the reset cycle that is running: timer ids are
    distinct and were handed out, and [resetInterval] holds the id of the
    one pending timer that calls [resetModels], or nothing when there is
    none. *)
Definition cycle_wf (s : State) : Prop :=
  List.NoDup (map tid (timers (host s)))
  /\ Forall (fun u => tid u < next_tid (host s)) (timers (host s))
  /\ match cycleTimer (mm s) with
     | Some id => map tid (cycle_intervals s) = [id]
     | None => cycle_intervals s = []
     end.

(* ===================================================================== *)
(** ** Stopping the experience *)
(* ===================================================================== *)

(** [stopAR()] of the tracked revision.  In AR mode the cleanup function
    that [initializeAR] installs before it returns stops the animation
    sequence ([cleanup] says whether it is there), then
    [await mindarThree.stop()] ([stops] says whether it resolves; when it
    rejects, the [catch] reports and the rest is skipped) and
    [mindarThree = null]; in both modes the reset cycle is stopped, the
    registry cleared and [scene = null].  The disposal of the renderer and
    the buttons are not recorded. *)
Definition stopAR (cleanup stops : bool) (p : Page) : Page :=
  let finish (p : Page) :=
    with_scene None
      (with_state (fun s => clearModels (stopResetCycle s)) p) in
  if mindarThree (state p) && negb (testMode (state p)) then
    let p1 := if cleanup then with_state stopAnimationSequence p else p in
    if stops then finish (with_state (with_mindar false) p1) else p1
  else finish p.

(* ===================================================================== *)
(** ** Frames and the schedule *)
(* ===================================================================== *)

Definition is_fire (e : Event) : bool :=
  match e with
  | Fire => true
  | Frame _ => false
  end.

(* ===================================================================== *)
(** * Properties *)
(* ===================================================================== *)

(** ** Objects as maps *)

Section JsObjectFacts.
Context {V : Type}.
Implicit Types (o : list (string * V)) (k : string) (v : V).

Lemma obj_get_set_eq k v o : obj_get k (obj_set k v o) = Some v.
Proof.
  induction o as [|[k' v'] r IH]; simpl.
  - by rewrite String.eqb_refl.
  - destruct (String.eqb k k') eqn:E; simpl; rewrite ?String.eqb_refl, ?E; done.
Qed.

Lemma obj_get_set_ne k k' v o :
  k <> k' -> obj_get k' (obj_set k v o) = obj_get k' o.
Proof.
  intros Hne. induction o as [|[k0 v0] r IH]; simpl.
  - destruct (String.eqb k' k) eqn:E; [|done].
    apply String.eqb_eq in E. congruence.
  - destruct (String.eqb k k0) eqn:E; simpl.
    + apply String.eqb_eq in E. subst k0.
      destruct (String.eqb k' k) eqn:E'; [|done].
      apply String.eqb_eq in E'. congruence.
    + by rewrite IH.
Qed.

Lemma obj_keys_set k v o :
  is_Some (obj_get k o) -> obj_keys (obj_set k v o) = obj_keys o.
Proof.
  unfold obj_keys. induction o as [|[k' v'] r IH]; simpl.
  - by intros [? ?].
  - destruct (String.eqb k k') eqn:E; simpl.
    + apply String.eqb_eq in E. by subst.
    + intros H. f_equal. auto.
Qed.

Lemma obj_keys_set_new k v o :
  obj_get k o = None -> obj_keys (obj_set k v o) = obj_keys o ++ [k].
Proof.
  unfold obj_keys. induction o as [|[k' v'] r IH]; simpl; [done|].
  destruct (String.eqb k k') eqn:E; [done|]. simpl.
  intros H. f_equal. auto.
Qed.

Lemma obj_set_set k v v' o : obj_set k v (obj_set k v' o) = obj_set k v o.
Proof.
  induction o as [|[k' v0] r IH]; simpl.
  - by rewrite String.eqb_refl.
  - destruct (String.eqb k k') eqn:E; simpl; rewrite ?String.eqb_refl, ?E, ?IH; done.
Qed.

Lemma obj_set_id k v o : obj_get k o = Some v -> obj_set k v o = o.
Proof.
  induction o as [|[k' v0] r IH]; simpl; [done|].
  destruct (String.eqb k k') eqn:E.
  - apply String.eqb_eq in E. intros [= ->]. by subst.
  - intros H. by rewrite IH.
Qed.

Lemma obj_get_Some_keys k v o : obj_get k o = Some v -> In k (obj_keys o).
Proof.
  induction o as [|[k' v0] r IH]; simpl; [done|].
  destruct (String.eqb k k') eqn:E.
  - apply String.eqb_eq in E. auto.
  - auto.
Qed.

Lemma obj_get_None_keys k o : obj_get k o = None <-> ~ In k (obj_keys o).
Proof.
  induction o as [|[k' v0] r IH]; simpl; [tauto|].
  destruct (String.eqb k k') eqn:E.
  - apply String.eqb_eq in E. subst. split; [done|]. intros H. destruct H. auto.
  - apply String.eqb_neq in E. rewrite IH. split.
    + intros H [?|?]; [congruence|auto].
    + auto.
Qed.
End JsObjectFacts.

(** ** Actions *)

Lemma start_clip_playing a : playing_from_zero (start_clip a).
Proof. by destruct a. Qed.

Lemma start_clip_idem a : start_clip (start_clip a) = start_clip a.
Proof. by destruct a. Qed.

Lemma set_paused_idem b a : set_paused b (set_paused b a) = set_paused b a.
Proof. by destruct a. Qed.

Lemma fmap_idem (f : Action -> Action) (acts : gmap string Action) :
  (forall a, f (f a) = f a) -> f <$> (f <$> acts) = f <$> acts.
Proof.
  intros Hf. rewrite <- map_fmap_compose. apply map_fmap_ext.
  intros ? ? _. apply Hf.
Qed.

Lemma fold_left_inv {A B : Type} (P : A -> Prop) (f : A -> B -> A) l a :
  P a -> (forall a b, P a -> P (f a b)) -> P (fold_left f l a).
Proof. revert a. induction l; simpl; auto. Qed.

(** ** The tracking callbacks: what they leave alone *)

Lemma started_clearTimeouts s :
  animationSequenceStarted (clearTimeouts s) = animationSequenceStarted s.
Proof.
  unfold clearTimeouts. simpl.
  apply (fold_left_inv (fun s' => animationSequenceStarted s' = _)); auto.
Qed.

Lemma started_concealModel path s :
  animationSequenceStarted (concealModel path s) = animationSequenceStarted s.
Proof. unfold concealModel. by destruct (obj_get _ _). Qed.

Lemma started_concealAll s :
  animationSequenceStarted (concealAll s) = animationSequenceStarted s.
Proof.
  unfold concealAll. simpl.
  apply (fold_left_inv (fun s' => animationSequenceStarted s' = _)); auto.
  intros. by rewrite started_concealModel.
Qed.

Lemma started_scheduleModel path s :
  animationSequenceStarted (scheduleModel path s) = animationSequenceStarted s.
Proof. unfold scheduleModel. by destruct (obj_get _ _). Qed.

Lemma started_schedule_spotlights mk track l : forall i s,
  animationSequenceStarted (schedule_spotlights mk track i l s)
  = animationSequenceStarted s.
Proof.
  induction l as [|sp r IH]; intros i s; simpl; [done|].
  rewrite IH. by destruct track.
Qed.

Lemma started_startAnimationSequence s :
  animationSequenceStarted (startAnimationSequence s) = true.
Proof.
  unfold startAnimationSequence.
  destruct (animationSequenceStarted s) eqn:E; [done|].
  rewrite started_schedule_spotlights.
  rewrite (fold_left_inv (fun s' => animationSequenceStarted s' = true)); auto.
  - by rewrite started_concealAll, started_clearTimeouts.
  - intros. by rewrite started_scheduleModel.
Qed.

(** C10. Starting the sequence while it is already running is a no-op:
    [startAnimationSequence] returns the state it was given, so visibility,
    clips and pending timers are untouched, and [start(); start()] leaves
    the state of a single [start()]; the same holds of a repeated
    target-found event. *)
Theorem start_while_running_is_noop (s : State) :
  (animationSequenceStarted s = true -> startAnimationSequence s = s)
  /\ startAnimationSequence (startAnimationSequence s) = startAnimationSequence s
  /\ onTargetFound (onTargetFound s) = onTargetFound s.
Proof.
  assert (Hnoop : forall s', animationSequenceStarted s' = true ->
                             startAnimationSequence s' = s').
  { intros s' H. unfold startAnimationSequence. by rewrite H. }
  split; [apply Hnoop|].
  split; apply Hnoop, started_startAnimationSequence.
Qed.

(** ** Show and hide *)

Lemma set_visible_idem b m : set_visible b (set_visible b m) = set_visible b m.
Proof. by destruct m as [[? ?] ? ?]. Qed.

Lemma with_mm_eq (M : ModelManager) (s : State) :
  mm s = M -> with_mm (fun _ => M) s = s.
Proof. intros <-. by destruct s. Qed.

Lemma reveal_Ok path s m :
  obj_get path (models (mm s)) = Some m ->
  reveal path s =
    Ok (with_mm (fun M =>
          with_actions (fun A =>
              match A !! path with
              | Some acts => <[path := start_clip <$> acts]> A
              | None => A
              end)
            (with_models (obj_set path (set_visible true m)) M)) s).
Proof. intros H. unfold reveal. by rewrite H. Qed.

Lemma reveal_idem path s s1 :
  reveal path s = Ok s1 -> reveal path s1 = Ok s1.
Proof.
  unfold reveal at 1. destruct (obj_get path (models (mm s))) as [m|] eqn:Hm; [|done].
  intros [= <-].
  erewrite reveal_Ok; [|simpl; apply obj_get_set_eq].
  f_equal. destruct s as [h [ms mx A c] tm ma sp ti st rp]. simpl in *.
  unfold with_mm, with_actions, with_models. simpl. f_equal. f_equal.
  - by rewrite set_visible_idem, obj_set_set.
  - destruct (A !! path) as [acts|] eqn:HA.
    + rewrite lookup_insert_eq, insert_insert_eq.
      by rewrite (fmap_idem _ _ start_clip_idem).
    + by rewrite HA.
Qed.

Lemma hideModel_idem path s : hideModel path (hideModel path s) = hideModel path s.
Proof.
  unfold hideModel at 2 3.
  destruct (obj_get path (models (mm s))) as [m|] eqn:Hm.
  - unfold hideModel. simpl. rewrite obj_get_set_eq.
    destruct s as [h [ms mx A c] tm ma sp ti st rp]. simpl in *.
    unfold with_mm, with_actions, with_models. simpl. f_equal. f_equal.
    + by rewrite set_visible_idem, obj_set_set.
    + destruct (A !! path) as [acts|] eqn:HA.
      * rewrite lookup_insert_eq, insert_insert_eq.
        by rewrite (fmap_idem _ _ (set_paused_idem true)).
      * by rewrite HA.
  - unfold hideModel. by rewrite Hm.
Qed.

Lemma clips_reveal path s s1 :
  reveal path s = Ok s1 -> clips path s1 = start_clip <$> clips path s.
Proof.
  unfold reveal. destruct (obj_get _ _); [|done]. intros [= <-].
  unfold clips. simpl. destruct (actions (mm s) !! path) as [acts|] eqn:HA.
  - by rewrite lookup_insert_eq.
  - rewrite HA. simpl. by rewrite fmap_empty.
Qed.

Lemma clips_hideModel path s m :
  obj_get path (models (mm s)) = Some m ->
  clips path (hideModel path s) = set_paused true <$> clips path s.
Proof.
  intros Hm. unfold hideModel. rewrite Hm. unfold clips. simpl.
  destruct (actions (mm s) !! path) as [acts|] eqn:HA.
  - by rewrite lookup_insert_eq.
  - rewrite HA. simpl. by rewrite fmap_empty.
Qed.

(** C9. For a loaded handle, [showModel] arms one timer with the reveal
    closure and changes nothing else; when the closure runs, the asset is
    visible and every clip is rewound to zero and playing, with its
    play-once-and-hold setting kept, whatever the visibility was before;
    running it again leaves the same state.  [hideModel] makes the asset
    invisible and pauses every clip where it is; hiding again leaves the
    same state.  The actions the manager creates are play-once-and-hold. *)
Theorem show_hide_idempotent (s : State) (path : string) (m : Model) (ms : N)
    (Hloaded : obj_get path (models (mm s)) = Some m) :
  showModel RevTimed path ms s = fst (setTimeout (CbShowModel path) ms s)
  /\ (exists s1,
        run_callback RevTimed (CbShowModel path) s = Ok s1
        /\ visibleModel path s1 = true
        /\ (forall name a, clips path s !! name = Some a ->
              exists a', clips path s1 !! name = Some a'
                /\ playing_from_zero a'
                /\ a_loop a' = a_loop a /\ a_clamp a' = a_clamp a
                /\ a_clip a' = a_clip a)
        /\ (forall name, clips path s !! name = None ->
              clips path s1 !! name = None)
        /\ run_callback RevTimed (CbShowModel path) s1 = Ok s1)
  /\ (visibleModel path (hideModel path s) = false
      /\ (forall name a, clips path s !! name = Some a ->
            exists a', clips path (hideModel path s) !! name = Some a'
              /\ a_paused a' = true /\ a_time a' = a_time a)
      /\ hideModel path (hideModel path s) = hideModel path s)
  /\ (forall k c,
        a_loop (loaded_action k c) = LoopOnce
        /\ a_clamp (loaded_action k c) = true
        /\ a_loop (recreated_action k c) = LoopOnce
        /\ a_clamp (recreated_action k c) = true).
Proof.
  split; [|split; [|split]].
  - unfold showModel. by rewrite Hloaded.
  - pose proof (reveal_Ok path s m Hloaded) as Hr.
    eexists. split; [exact Hr|].
    split; [|split; [|split]].
    + unfold visibleModel. simpl. by rewrite obj_get_set_eq.
    + intros name a Ha. rewrite (clips_reveal _ _ _ Hr), lookup_fmap, Ha. simpl.
      eexists. split; [done|]. split; [apply start_clip_playing|].
      by destruct a.
    + intros name Ha. by rewrite (clips_reveal _ _ _ Hr), lookup_fmap, Ha.
    + simpl. by apply reveal_idem in Hr.
  - split; [|split].
    + unfold visibleModel, hideModel. rewrite Hloaded. simpl.
      by rewrite obj_get_set_eq.
    + intros name a Ha. rewrite (clips_hideModel _ _ _ Hloaded), lookup_fmap, Ha.
      simpl. eexists. by split.
    + apply hideModel_idem.
  - done.
Qed.

(** ** Loading one model *)

Lemma showModel_mm rev path ms s : mm (showModel rev path ms s) = mm s.
Proof. unfold showModel. destruct (obj_get _ _); [|done]. by destruct (ar_gate _ _). Qed.

Lemma showModel_next_ref rev path ms s :
  next_ref (host (showModel rev path ms s)) = next_ref (host s).
Proof. unfold showModel. destruct (obj_get _ _); [|done]. by destruct (ar_gate _ _). Qed.

Lemma install_spec rev path mo asset s s' m :
  install rev path mo asset s = (s', m) ->
  oid (object m) = next_ref (host s)
  /\ next_ref (host s) < next_ref (host s')
  /\ obj_get path (models (mm s')) = Some m
  /\ options m = mo.
Proof.
  unfold install. simpl.
  destruct (asset_animations asset) as [|c cs]; simpl;
    destruct ((0 <? delay mo)%N && negb (visible mo)); intros [= <- <-]; simpl;
    rewrite ?showModel_mm, ?showModel_next_ref; simpl;
    rewrite obj_get_set_eq; repeat split; lia.
Qed.

Lemma loadModel_Ok rev env path opts p p1 m :
  loadModel rev env path opts p = (p1, Ok m) ->
  exists asset,
    head_ok env path = true /\ supported path = true
    /\ decode env path = Some asset
    /\ net_log p1 = net_log p ++ [Head path; Decode path]
    /\ scene p1 = scene p /\ anchor p1 = anchor p
    /\ install rev path (mergeOptions path opts) asset (state p) = (state p1, m).
Proof.
  unfold loadModel.
  destruct (head_ok env path); simpl; [|done].
  destruct (supported path); [|done].
  destruct (decode env path) as [asset|]; [|done].
  destruct (install _ _ _ _ _) as [s' m'] eqn:Hi. intros [= <- <-].
  exists asset. simpl. rewrite <- app_assoc. by repeat split.
Qed.

(** A failed load leaves the manager and the timers as they were. *)
Lemma loadModel_fails rev env path opts p :
  loads env path = false ->
  exists e ops,
    loadModel rev env path opts p =
      ({| state := state p; scene := scene p; anchor := anchor p;
          net_log := net_log p ++ ops |}, Throw e).
Proof.
  unfold loads, loadModel. intros H.
  destruct (head_ok env path); simpl in *.
  - destruct (supported path); simpl in *.
    + destruct (decode env path) as [asset|] eqn:Hd.
      * exfalso. rewrite bool_decide_eq_false in H. apply H. eauto.
      * exists (LoaderFailed path), [Head path; Decode path].
        unfold log_net. simpl. by rewrite <- app_assoc.
    + by exists (UnsupportedFormat path), [Head path].
  - by exists (CannotAccessModel path), [Head path].
Qed.

(** The first manager answers a second request for a path from its
    registry: no request goes to the network and the state is the same. *)
Lemma legacy_loadModel_cached env path opts opts' s s1 m :
  Legacy.loadModel env path opts s = (s1, inr m) ->
  Legacy.loadModel env path opts' s1 = (s1, inr m).
Proof.
  unfold Legacy.loadModel at 1.
  destruct (obj_get path (Legacy.models s)) as [m0|] eqn:Hm.
  - intros [= <- <-]. unfold Legacy.loadModel. by rewrite Hm.
  - destruct (head_ok env path); simpl; [|done].
    destruct (decode env path) as [asset|]; [|done].
    intros [= <- <-]. unfold Legacy.loadModel. simpl.
    by rewrite obj_get_set_eq.
Qed.

(** C5. What the later managers do on a second [loadModel] of a path that
    is in the registry: the file is requested and decoded again, and the
    registry entry is replaced by a new object. *)
Theorem loadModel_reloads (rev : Revision) (env : Env) (path : string)
    (opts : Options) (p p1 : Page) (m1 : Model)
    (Hfirst : loadModel rev env path opts p = (p1, Ok m1)) :
  obj_get path (models (mm (state p1))) = Some m1
  /\ exists p2 m2,
       loadModel rev env path opts p1 = (p2, Ok m2)
       /\ net_log p2 = net_log p1 ++ [Head path; Decode path]
       /\ oid (object m2) <> oid (object m1)
       /\ obj_get path (models (mm (state p2))) = Some m2.
Proof.
  destruct (loadModel_Ok _ _ _ _ _ _ _ Hfirst)
    as (asset & Hh & Hs & Hd & _ & _ & _ & Hi).
  destruct (install_spec _ _ _ _ _ _ _ Hi) as (Ho1 & Hlt & Hg1 & _).
  split; [done|].
  destruct (install rev path (mergeOptions path opts) asset (state p1))
    as [s2 m2] eqn:Hi2.
  destruct (install_spec _ _ _ _ _ _ _ Hi2) as (Ho2 & _ & Hg2 & _).
  exists (with_state (fun _ => s2)
            (log_net (Decode path) (log_net (Head path) p1))), m2.
  split; [|split; [|split]].
  - unfold loadModel. rewrite Hh, Hs, Hd. simpl. by rewrite Hi2.
  - simpl. by rewrite <- app_assoc.
  - lia.
  - done.
Qed.

Lemma install_unscheduled rev path mo asset s s' m :
  ((0 <? delay mo)%N && negb (visible mo)) = false ->
  install rev path mo asset s = (s', m) ->
  timers (host s') = timers (host s).
Proof.
  unfold install. simpl. intros ->.
  destruct (asset_animations asset); intros [= <- <-]; by simpl.
Qed.

(** C3. [loadModel] arms no reveal for an entry with delay zero and
    initial visibility false: the guard [delay > 0] leaves the timers as
    they were, and the model stays invisible. *)
Theorem zero_delay_hidden_not_scheduled (rev : Revision) (env : Env)
    (path : string) (opts : Options) (p p1 : Page) (m : Model)
    (Hdelay : delay (mergeOptions path opts) = 0%N)
    (Hhidden : visible (mergeOptions path opts) = false)
    (Hload : loadModel rev env path opts p = (p1, Ok m)) :
  timers (host (state p1)) = timers (host (state p))
  /\ visibleModel path (state p1) = false.
Proof.
  destruct (loadModel_Ok _ _ _ _ _ _ _ Hload)
    as (asset & _ & _ & _ & _ & _ & _ & Hi).
  unfold visibleModel.
  destruct (install_spec _ _ _ _ _ _ _ Hi) as (_ & _ & -> & Ho).
  split.
  - eapply install_unscheduled; [|exact Hi]. by rewrite Hdelay.
  - revert Hi. unfold install. simpl.
    destruct (asset_animations asset);
      destruct (_ && _); intros [= _ <-]; simpl; exact Hhidden.
Qed.

(** ** Clearing the registry *)

Lemma clearModels_timers s :
  timers (host (clearModels s)) =
    match cycleTimer (mm s) with
    | Some id => cancel id (timers (host s))
    | None => timers (host s)
    end.
Proof. unfold clearModels, stopResetCycle. by destruct (cycleTimer (mm s)). Qed.

(** C6. [clearModels] of the later managers empties the registry and
    cancels the reset cycle only: the other pending timers stay in the
    queue, a reveal that runs afterwards reads a registry entry that is
    gone and throws, and the scene keeps the nodes of the cleared models. *)
Theorem clearModels_keeps_reveals (rev : Revision) (p : Page) (path : string) :
  timers (host (state (with_state clearModels p))) =
    match cycleTimer (mm (state p)) with
    | Some id => cancel id (timers (host (state p)))
    | None => timers (host (state p))
    end
  /\ models (mm (state (with_state clearModels p))) = []
  /\ run_callback rev (CbShowModel path) (state (with_state clearModels p))
     = Throw (TypeError "this.models[path] is undefined")
  /\ scene (with_state clearModels p) = scene p.
Proof.
  simpl. split; [apply clearModels_timers|]. split; [done|]. split; [|done].
  unfold reveal, clearModels. by simpl.
Qed.

(** ** What the operations leave alone: the registry *)

Lemma models_schedule_spotlights mk track l : forall i s,
  mm (schedule_spotlights mk track i l s) = mm s.
Proof.
  induction l as [|sp r IH]; intros i s; simpl; [done|].
  rewrite IH. by destruct track.
Qed.

Lemma models_hideModel_keys path s :
  obj_keys (models (mm (hideModel path s))) = obj_keys (models (mm s)).
Proof.
  unfold hideModel. destruct (obj_get path (models (mm s))) eqn:E; [|done].
  simpl. apply obj_keys_set. by rewrite E.
Qed.

Lemma models_hideAllModels_keys s :
  obj_keys (models (mm (hideAllModels s))) = obj_keys (models (mm s)).
Proof.
  unfold hideAllModels.
  apply (fold_left_inv (fun s' => obj_keys (models (mm s')) = _)); [done|].
  intros a b H. by rewrite models_hideModel_keys.
Qed.

Lemma models_resetMixer path s :
  models (mm (resetMixer path s)) = models (mm s).
Proof.
  unfold resetMixer. destruct (mixers (mm s) !! path); [|done]. simpl.
  destruct (obj_get path (models (mm s))) as [model|]; [|done].
  by destruct (animations model).
Qed.

Lemma models_showAgain rev path s :
  models (mm (showAgain rev path s)) = models (mm s).
Proof.
  unfold showAgain. destruct (obj_get _ _); [|done]. by rewrite showModel_mm.
Qed.

Lemma models_resetModels_keys rev s :
  obj_keys (models (mm (resetModels rev s))) = obj_keys (models (mm s)).
Proof.
  unfold resetModels.
  rewrite (fold_left_inv (fun s' => models (mm s') = models (mm _))
             (fun s path => showAgain rev path s) _ _ eq_refl).
  2: { intros a b H. by rewrite models_showAgain. }
  rewrite (fold_left_inv (fun s' => models (mm s') = models (mm _))
             (fun s path => resetMixer path s) _ _ eq_refl).
  2: { intros a b H. by rewrite models_resetMixer. }
  apply models_hideAllModels_keys.
Qed.

Lemma models_reveal_keys path s s1 :
  reveal path s = Ok s1 ->
  obj_keys (models (mm s1)) = obj_keys (models (mm s)).
Proof.
  unfold reveal. destruct (obj_get path (models (mm s))) eqn:E; [|done].
  intros [= <-]. simpl. apply obj_keys_set. by rewrite E.
Qed.

Lemma models_seqReveal_keys path o s :
  obj_keys (models (mm (seqReveal path o s))) = obj_keys (models (mm s)).
Proof.
  unfold seqReveal. destruct (negb _); [done|]. simpl.
  destruct (obj_get path (models (mm s))) eqn:E; [|done].
  destruct (_ =? _); [|done]. apply obj_keys_set. by rewrite E.
Qed.

Lemma models_fire_keys rev t s :
  obj_keys (models (mm (fire rev t s))) = obj_keys (models (mm s)).
Proof.
  unfold fire, dequeue.
  set (s1 := with_host _ s).
  assert (H1 : models (mm s1) = models (mm s)) by done.
  rewrite <- H1. clearbody s1.
  destruct (cb t) as [path|i|path o|i|]; simpl.
  - destruct (reveal path s1) eqn:E; [|done]. by apply models_reveal_keys in E.
  - done.
  - apply models_seqReveal_keys.
  - unfold seqSpotlight. by destruct (negb _).
  - unfold resetCycle. destruct (resetPatched s1).
    + rewrite models_schedule_spotlights. simpl. apply models_resetModels_keys.
    + apply models_resetModels_keys.
Qed.

Lemma models_fire_n_keys rev n : forall s,
  obj_keys (models (mm (fire_n rev n s))) = obj_keys (models (mm s)).
Proof.
  induction n as [|n IH]; intros s; simpl; [done|].
  unfold fire_next. destruct (earliest _); [|done].
  by rewrite IH, models_fire_keys.
Qed.

Lemma absent_never_visible rev path n s :
  obj_get path (models (mm s)) = None ->
  visibleModel path (fire_n rev n s) = false.
Proof.
  intros H. unfold visibleModel.
  apply obj_get_None_keys in H. rewrite <- (models_fire_n_keys rev n) in H.
  apply obj_get_None_keys in H. by rewrite H.
Qed.

(** ** One failing asset in [loadTestModels] *)

Lemma loadModel_alike rev env path opts p q :
  state p = state q ->
  snd (loadModel rev env path opts p) = snd (loadModel rev env path opts q)
  /\ state (fst (loadModel rev env path opts p))
     = state (fst (loadModel rev env path opts q))
  /\ scene (fst (loadModel rev env path opts p)) = scene p
  /\ scene (fst (loadModel rev env path opts q)) = scene q.
Proof.
  intros H. unfold loadModel.
  destruct (head_ok env path); simpl; [|done].
  destruct (supported path); [|done].
  destruct (decode env path) as [asset|]; [|done].
  simpl. rewrite H. by destruct (install _ _ _ _ _).
Qed.

Lemma loadTestModel_alike rev env c p q :
  alike p q ->
  exists p' q',
    loadTestModel rev env c p = (p', Ok tt)
    /\ loadTestModel rev env c q = (q', Ok tt)
    /\ alike p' q'
    /\ (forall n, scene_has n p -> scene_has n p').
Proof.
  intros (Hs & [chp Hp] & [chq Hq]). unfold loadTestModel.
  destruct (cfg_enabled c); simpl.
  2: { exists p, q. split; [done|]. split; [done|].
       split; [by repeat split; eauto|auto]. }
  destruct (loadModel_alike rev env (cfg_path c)
              (entry_options (cfg_visible c) c) p q Hs) as (Hr & Hst & Hsp & Hsq).
  destruct (loadModel rev env (cfg_path c) _ p) as [p1 r1].
  destruct (loadModel rev env (cfg_path c) _ q) as [q1 r2].
  simpl in *. subst r2. rewrite Hp in Hsp. rewrite Hq in Hsq.
  destruct r1 as [model|e].
  - rewrite Hsp, Hsq. destruct (includes (cfg_path c) "dis-ball").
    + eexists _, _. split; [done|]. split; [done|]. split.
      * by repeat split; simpl; eauto.
      * intros n (ch & Hch & Hin). rewrite Hp in Hch. injection Hch as <-.
        eexists. split; [done|]. apply in_app_iff. by left.
    + eexists _, _. split; [done|]. split; [done|]. split.
      * repeat split; simpl; eauto. by rewrite Hst.
      * intros n (ch & Hch & Hin). rewrite Hp in Hch. injection Hch as <-.
        eexists. split; [done|]. apply in_app_iff. by left.
  - unfold displayErrorMessage. rewrite Hsp, Hsq.
    eexists _, _. split; [done|]. split; [done|]. split.
    + by repeat split; simpl; eauto.
    + intros n (ch & Hch & Hin). rewrite Hp in Hch. injection Hch as <-.
      eexists. split; [done|]. apply in_app_iff. by left.
Qed.

Lemma for_each_alike rev env l : forall p q,
  alike p q ->
  exists p' q',
    for_each_config (loadTestModel rev env) l p = (p', Ok tt)
    /\ for_each_config (loadTestModel rev env) l q = (q', Ok tt)
    /\ alike p' q'
    /\ (forall n, scene_has n p -> scene_has n p').
Proof.
  induction l as [|c r IH]; intros p q H; simpl.
  - exists p, q. split; [done|]. split; [done|]. split; [exact H|auto].
  - destruct (loadTestModel_alike rev env c p q H) as (p1 & q1 & -> & -> & H1 & Hn1).
    destruct (IH p1 q1 H1) as (p2 & q2 & -> & -> & H2 & Hn2).
    exists p2, q2. split; [done|]. split; [done|]. split; [exact H2|auto].
Qed.

Lemma for_each_app body l1 l2 p :
  for_each_config body (l1 ++ l2) p =
    match for_each_config body l1 p with
    | (p1, Ok _) => for_each_config body l2 p1
    | (p1, Throw e) => (p1, Throw e)
    end.
Proof.
  revert p. induction l1 as [|c r IH]; intros p; simpl; [done|].
  destruct (body c p) as [p1 [[]|e]]; [apply IH|done].
Qed.

(** The entry whose load fails: the exception is caught in the loop body,
    the plane is added, the manager and the timers are untouched. *)
Lemma loadTestModel_failing rev env z p ch :
  cfg_enabled z = true -> loads env (cfg_path z) = false ->
  scene p = Some ch ->
  exists ops,
    loadTestModel rev env z p =
      ({| state := state p;
          scene := Some (ch ++ [NodeErrorPlane ("Failed to load " +:+ cfg_path z)]);
          anchor := anchor p; net_log := net_log p ++ ops |}, Ok tt).
Proof.
  intros He Hl Hs. unfold loadTestModel. rewrite He. simpl.
  destruct (loadModel_fails rev env (cfg_path z)
              (entry_options (cfg_visible z) z) p Hl) as (e & ops & ->).
  exists ops. unfold displayErrorMessage. simpl. by rewrite Hs.
Qed.

Lemma loadTestModel_absent rev env path c p p' r :
  loads env path = false ->
  obj_get path (models (mm (state p))) = None ->
  loadTestModel rev env c p = (p', r) ->
  obj_get path (models (mm (state p'))) = None.
Proof.
  intros Hl Hp. unfold loadTestModel.
  destruct (cfg_enabled c); simpl; [|by intros [= <- _]].
  destruct (loadModel rev env (cfg_path c) _ p) as [p1 r1] eqn:E.
  assert (H1 : obj_get path (models (mm (state p1))) = None).
  { destruct r1 as [model|e].
    - destruct (loadModel_Ok _ _ _ _ _ _ _ E)
        as (asset & Hh & Hsup & Hd & _ & _ & _ & Hi).
      assert (cfg_path c <> path).
      { intros Heq. subst path. unfold loads in Hl. rewrite Hh, Hsup, Hd in Hl.
        simpl in Hl.
        first [discriminate | rewrite bool_decide_eq_false in Hl; apply Hl; eauto]. }
      revert Hi. unfold install. simpl.
      destruct (asset_animations asset);
        destruct (_ && _); intros [= <- _]; simpl;
        rewrite ?showModel_mm; simpl; by rewrite obj_get_set_ne.
    - unfold loadModel in E. revert E.
      destruct (head_ok env (cfg_path c)); simpl; [|by intros [= <- _]].
      destruct (supported (cfg_path c)); [|by intros [= <- _]].
      destruct (decode env (cfg_path c)); [|by intros [= <- _]].
      by destruct (install _ _ _ _ _). }
  destruct r1 as [model|e].
  - destruct (scene p1).
    + destruct (includes _ _); by intros [= <- _].
    + unfold displayErrorMessage. destruct (scene p1); by intros [= <- _].
  - unfold displayErrorMessage. destruct (scene p1); by intros [= <- _].
Qed.

Lemma for_each_absent rev env path l : forall p p' r,
  loads env path = false ->
  obj_get path (models (mm (state p))) = None ->
  for_each_config (loadTestModel rev env) l p = (p', r) ->
  obj_get path (models (mm (state p'))) = None.
Proof.
  induction l as [|c rest IH]; intros p p' r Hl Hp; simpl.
  - by intros [= <- _].
  - destruct (loadTestModel rev env c p) as [p1 r1] eqn:E.
    pose proof (loadTestModel_absent _ _ _ _ _ _ _ Hl Hp E) as H1.
    destruct r1 as [[]|e]; [by apply IH|by intros [= <- _]].
Qed.

Lemma state_with_state f p : state (with_state f p) = f (state p).
Proof. done. Qed.

Lemma models_afterTestLoad s : models (mm (afterTestLoad s)) = models (mm s).
Proof.
  unfold afterTestLoad, startResetCycle. simpl.
  destruct (cycleTimer (mm _)); simpl; by rewrite models_schedule_spotlights.
Qed.


(** ** The timer queue *)

Lemma earliest_None l : earliest l = None -> l = [].
Proof.
  destruct l as [|t r]; simpl; [done|].
  destruct (earliest r) as [u|]; [|done]. by destruct (_ <? _)%N.
Qed.

Lemma earliest_In l t : earliest l = Some t -> In t l.
Proof.
  revert t. induction l as [|x r IH]; intros t; simpl; [done|].
  destruct (earliest r) as [u|].
  - destruct (due u <? due x)%N; intros [= <-]; auto.
  - intros [= <-]. auto.
Qed.

Lemma earliest_min l t u :
  earliest l = Some t -> In u l -> (due t <= due u)%N.
Proof.
  revert t. induction l as [|x r IH]; intros t; simpl; [done|].
  destruct (earliest r) as [u0|] eqn:E.
  - destruct (due u0 <? due x)%N eqn:C; intros [= <-] [<-|Hin].
    + apply N.ltb_lt in C. lia.
    + by apply IH.
    + lia.
    + apply N.ltb_ge in C. specialize (IH u0 eq_refl Hin). lia.
  - intros [= <-] [<-|Hin]; [lia|].
    apply earliest_None in E. subst r. destruct Hin.
Qed.

(** Among the timers of the earliest time, the one armed first runs:
    ids grow along the queue. *)
Lemma earliest_first l t u :
  StronglySorted tid_lt l ->
  earliest l = Some t -> In u l -> due u = due t -> tid t <= tid u.
Proof.
  intros Hs. revert t. induction Hs as [|x r Hr IH Hx]; intros t; simpl; [done|].
  destruct (earliest r) as [u0|] eqn:E.
  - destruct (due u0 <? due x)%N eqn:C; intros [= <-] [<-|Hin] Hd.
    + apply N.ltb_lt in C. lia.
    + by apply IH.
    + lia.
    + rewrite List.Forall_forall in Hx. apply Hx in Hin. unfold tid_lt in Hin. lia.
  - intros [= <-] [<-|Hin] Hd; [lia|].
    apply earliest_None in E. subst r. destruct Hin.
Qed.

Lemma In_cancel id l u : In u (cancel id l) <-> In u l /\ tid u <> id.
Proof.
  unfold cancel. rewrite List.filter_In. rewrite negb_true_iff, Nat.eqb_neq. tauto.
Qed.

Lemma sorted_filter (f : Timer -> bool) l :
  StronglySorted tid_lt l -> StronglySorted tid_lt (List.filter f l).
Proof.
  induction 1 as [|x r Hr IH Hx]; simpl; [constructor|].
  destruct (f x); [|done]. constructor; [done|].
  rewrite List.Forall_forall in *. intros u Hu. apply List.filter_In in Hu.
  apply Hx, Hu.
Qed.

Lemma sorted_tid_inj l a b :
  StronglySorted tid_lt l -> In a l -> In b l -> tid a = tid b -> a = b.
Proof.
  induction 1 as [|x r Hr IH Hx]; simpl; [done|].
  rewrite List.Forall_forall in Hx. unfold tid_lt in Hx.
  intros [<-|Ha] [<-|Hb] Heq; auto.
  - apply Hx in Hb. lia.
  - apply Hx in Ha. lia.
Qed.

Lemma sorted_snoc l t :
  StronglySorted tid_lt l -> Forall (fun u => tid u < tid t) l ->
  StronglySorted tid_lt (l ++ [t]).
Proof.
  induction 1 as [|x r Hr IH Hx]; simpl; intros Hall.
  - repeat constructor.
  - inversion Hall as [|? ? Hxt Hrt]; subst. constructor; [auto|].
    rewrite List.Forall_forall in *. intros u Hu. apply in_app_iff in Hu.
    destruct Hu as [Hu|[<-|[]]]; [by apply Hx|done].
Qed.

Lemma length_cancel_lt l t :
  In t l -> length (cancel (tid t) l) < length l.
Proof.
  unfold cancel. induction l as [|x r IH]; simpl; [done|].
  intros [->|Hin].
  - rewrite Nat.eqb_refl. simpl.
    pose proof (filter_length_le (fun t0 => negb (tid t0 =? tid t)) r). lia.
  - specialize (IH Hin). destruct (negb _); simpl; lia.
Qed.

Lemma timers_clearTimeouts s :
  timers (host (clearTimeouts s)) =
    List.filter (fun t => negb (existsb (Nat.eqb (tid t)) (timeoutIds s)))
      (timers (host s)).
Proof.
  unfold clearTimeouts. simpl.
  generalize (timeoutIds s) as ids. intros ids. revert s.
  induction ids as [|id r IH]; intros s; simpl.
  - induction (timers (host s)) as [|t l IHl]; simpl; [done|]. by rewrite <- IHl.
  - rewrite IH. simpl. unfold cancel. clear IH.
    induction (timers (host s)) as [|t l IHl]; simpl; [done|].
    destruct (tid t =? id) eqn:E; simpl; [done|].
    destruct (existsb _ r); simpl; by rewrite IHl.
Qed.

Lemma clearTimeouts_all s :
  Forall (fun t => In (tid t) (timeoutIds s)) (timers (host s)) ->
  timers (host (clearTimeouts s)) = [].
Proof.
  rewrite timers_clearTimeouts. induction 1 as [|t l Ht Hl IH]; simpl; [done|].
  assert (existsb (Nat.eqb (tid t)) (timeoutIds s) = true) as ->.
  { apply existsb_exists. exists (tid t). split; [done|apply Nat.eqb_refl]. }
  done.
Qed.

(** ** The registry that [initializeAR] builds *)

Lemma obj_set_new {V : Type} (k : string) (v : V) o :
  obj_get k o = None -> obj_set k v o = o ++ [(k, v)].
Proof.
  induction o as [|[k' v'] r IH]; simpl; [done|].
  destruct (String.eqb k k'); [done|]. intros H. by rewrite IH.
Qed.

Lemma install_tracked path mo asset s s' m :
  testMode s = false -> mindarThree s = true ->
  install RevTracked path mo asset s = (s', m) ->
  timers (host s') = timers (host s)
  /\ now (host s') = now (host s)
  /\ next_tid (host s') = next_tid (host s)
  /\ testMode s' = false /\ mindarThree s' = true
  /\ spotlights s' = spotlights s
  /\ timeoutIds s' = timeoutIds s
  /\ animationSequenceStarted s' = animationSequenceStarted s
  /\ models (mm s') = obj_set path m (models (mm s))
  /\ options m = mo
  /\ obj_visible (object m) = visible mo.
Proof.
  intros Ht Hm. unfold install. simpl.
  assert (Hgate : forall s0 ms, testMode s0 = false -> mindarThree s0 = true ->
            showModel RevTracked path ms s0 = s0).
  { intros s0 ms H1 H2. unfold showModel, ar_gate. rewrite H1, H2. simpl.
    by destruct (obj_get _ _). }
  destruct (asset_animations asset); destruct (_ && _);
    rewrite ?Hgate; try done; intros [= <- <-]; by simpl.
Qed.

Lemma ar_loaded_keys seen p :
  ar_loaded seen p ->
  obj_keys (models (mm (state p))) = map cfg_path (List.filter cfg_enabled seen).
Proof.
  intros (_ & _ & _ & _ & _ & _ & _ & H).
  apply (f_equal (map (fun x => fst (fst x)))) in H.
  rewrite !map_map in H. unfold obj_keys. rewrite <- H at 1.
  apply map_ext. by intros [k m].
Qed.

Lemma loadTrackedModel_step env seen c p p' :
  ar_loaded seen p ->
  (cfg_enabled c = true ->
   ~ In (cfg_path c) (map cfg_path (List.filter cfg_enabled seen))) ->
  loadTrackedModel RevTracked env c p = (p', Ok tt) ->
  ar_loaded (seen ++ [c]) p'.
Proof.
  intros Hl Hnew. unfold loadTrackedModel.
  destruct (cfg_enabled c) eqn:He; simpl.
  - specialize (Hnew eq_refl).
    destruct (loadModel RevTracked env (cfg_path c) (entry_options false c) p)
      as [p1 r1] eqn:E.
    destruct (loadModel_alike RevTracked env (cfg_path c)
                (entry_options false c) p p eq_refl) as (_ & _ & Hsc & _).
    rewrite E in Hsc. simpl in Hsc.
    pose proof (ar_loaded_keys _ _ Hl) as Hkeys.
    destruct Hl as (Htm & Hnow & Htest & Hmind & Hst & Hids & Hscene & Hreg).
    destruct r1 as [model|e].
    + destruct (loadModel_Ok _ _ _ _ _ _ _ E)
        as (asset & _ & _ & _ & _ & _ & _ & Hi).
      destruct (install_tracked _ _ _ _ _ _ Htest Hmind Hi)
        as (H1 & H2 & H3 & H4 & H5 & H6 & H7 & H8 & H9 & H10 & H11).
      assert (Hp1 : ar_loaded (seen ++ [c]) p1).
      { unfold ar_loaded. rewrite H1, H2, H4, H5, H7, H8, H9, Hsc.
        repeat (split; [congruence|]).
        rewrite List.filter_app, map_app. simpl. rewrite He. simpl.
        rewrite obj_set_new.
        - rewrite map_app, Hreg. simpl. rewrite H10, H11. by simpl.
        - apply obj_get_None_keys. by rewrite Hkeys. }
      destruct (includes (cfg_path c) "dis-ball"); intros [= <-]; exact Hp1.
    + unfold displayErrorMessage. rewrite Hsc, Hscene. done.
  - intros [= <-]. unfold ar_loaded in *.
    rewrite List.filter_app. simpl. rewrite He. simpl. by rewrite app_nil_r.
Qed.

Lemma for_each_tracked env l : forall seen p p',
  ar_loaded seen p ->
  List.NoDup (map cfg_path (List.filter cfg_enabled (seen ++ l))) ->
  for_each_config (loadTrackedModel RevTracked env) l p = (p', Ok tt) ->
  ar_loaded (seen ++ l) p'.
Proof.
  induction l as [|c r IH]; intros seen p p' Hl Hnd; simpl.
  - intros [= <-]. by rewrite app_nil_r.
  - destruct (loadTrackedModel RevTracked env c p) as [p1 [[]|e]] eqn:E; [|done].
    intros Hrest.
    assert (Hnew : cfg_enabled c = true ->
              ~ In (cfg_path c) (map cfg_path (List.filter cfg_enabled seen))).
    { intros He Hin. rewrite List.filter_app, map_app in Hnd. simpl in Hnd.
      rewrite He in Hnd. simpl in Hnd.
      apply List.NoDup_remove_2 in Hnd. apply Hnd, in_app_iff. by left. }
    replace (seen ++ c :: r) with ((seen ++ [c]) ++ r) in *
      by (by rewrite <- app_assoc).
    apply (IH (seen ++ [c]) p1 p'); [|done|done].
    by apply (loadTrackedModel_step env seen c p p1 Hl).
Qed.

Lemma initializeAR_loaded env cfgs p0 :
  List.NoDup (map cfg_path (List.filter cfg_enabled cfgs)) ->
  initializeAR RevTracked env cfgs (initial_page false) = (p0, Ok tt) ->
  ar_loaded cfgs p0.
Proof.
  intros Hnd H. unfold initializeAR in H.
  eapply (for_each_tracked env cfgs []); [|exact Hnd|exact H].
  by repeat split.
Qed.

(** Disabled entries take no part in the loading loop. *)
Lemma for_each_enabled body l p :
  (forall c q, cfg_enabled c = false -> body c q = (q, Ok tt)) ->
  for_each_config body (List.filter cfg_enabled l) p = for_each_config body l p.
Proof.
  intros Hb. revert p. induction l as [|c r IH]; intros p; simpl; [done|].
  destruct (cfg_enabled c) eqn:E; simpl.
  - destruct (body c p) as [p1 [[]|e]]; [apply IH|done].
  - by rewrite (Hb c p E).
Qed.

Lemma initializeAR_enabled rev env cfgs p :
  initializeAR rev env (List.filter cfg_enabled cfgs) p = initializeAR rev env cfgs p.
Proof.
  unfold initializeAR. apply for_each_enabled.
  intros c q E. unfold loadTrackedModel. by rewrite E.
Qed.

(** ** The animation sequence and its timers *)

Lemma host_concealModel path s : host (concealModel path s) = host s.
Proof. unfold concealModel. by destruct (obj_get _ _). Qed.

Lemma timeoutIds_concealModel path s :
  timeoutIds (concealModel path s) = timeoutIds s.
Proof. unfold concealModel. by destruct (obj_get _ _). Qed.

Lemma host_concealAll s : host (concealAll s) = host s.
Proof.
  unfold concealAll. simpl.
  apply (fold_left_inv (fun s' => host s' = host s)); [done|].
  intros a b H. by rewrite host_concealModel.
Qed.

Lemma timeoutIds_concealAll s : timeoutIds (concealAll s) = timeoutIds s.
Proof.
  unfold concealAll. simpl.
  apply (fold_left_inv (fun s' => timeoutIds s' = timeoutIds s)); [done|].
  intros a b H. by rewrite timeoutIds_concealModel.
Qed.

Lemma armed_ext s s' :
  host s' = host s -> timeoutIds s' = timeoutIds s -> armed s -> armed s'.
Proof. unfold armed. by intros -> ->. Qed.

Lemma armed_arm c ms s :
  seq_callback c = true -> armed s ->
  armed (with_timeoutIds (timeoutIds (fst (setTimeout c ms s))
                          ++ [snd (setTimeout c ms s)])
           (fst (setTimeout c ms s))).
Proof.
  intros Hc [Hall Hs]. unfold armed. simpl. split.
  - apply Forall_app. split.
    + eapply List.Forall_impl; [|exact Hall]. simpl.
      intros t (H1 & H2 & H3 & H4).
      split; [apply in_app_iff; by left|]. repeat split; auto.
    + constructor; [|constructor]. simpl.
      split; [apply in_app_iff; right; by left|]. repeat split; auto.
  - apply sorted_snoc; [done|]. simpl.
    eapply List.Forall_impl; [|exact Hall]. simpl. tauto.
Qed.

Lemma armed_scheduleModel path s : armed s -> armed (scheduleModel path s).
Proof.
  intros H. unfold scheduleModel. destruct (obj_get _ _) as [model|]; [|done].
  by apply (armed_arm (CbSeqModel path (oid (object model)))).
Qed.

Lemma armed_schedule_spotlights l : forall i s,
  armed s -> armed (schedule_spotlights CbSeqSpotlight true i l s).
Proof.
  induction l as [|sp r IH]; intros i s H; simpl; [done|].
  apply IH. by apply (armed_arm (CbSeqSpotlight i)).
Qed.

Lemma armed_nil s : timers (host s) = [] -> armed s.
Proof. intros H. unfold armed. rewrite H. split; constructor. Qed.

Lemma seq_inv_start s : seq_inv s -> seq_inv (startAnimationSequence s).
Proof.
  intros [Ha Hq]. split; [|by rewrite started_startAnimationSequence].
  unfold startAnimationSequence.
  destruct (animationSequenceStarted s) eqn:E; [done|].
  apply armed_schedule_spotlights.
  apply (fold_left_inv armed); [|intros; by apply armed_scheduleModel].
  apply armed_nil. rewrite host_concealAll, timers_clearTimeouts. simpl.
  by rewrite (Hq eq_refl).
Qed.

Lemma started_stopAnimationSequence s :
  animationSequenceStarted (stopAnimationSequence s) = false.
Proof.
  unfold stopAnimationSequence.
  destruct (animationSequenceStarted s) eqn:E; cbn [negb]; [|done].
  by rewrite started_concealAll, started_clearTimeouts.
Qed.

Lemma stop_cancels s : seq_inv s -> timers (host (stopAnimationSequence s)) = [].
Proof.
  intros [[Hall _] Hq]. unfold stopAnimationSequence.
  destruct (animationSequenceStarted s) eqn:E; cbn [negb]; [|auto].
  rewrite host_concealAll. apply clearTimeouts_all. simpl.
  eapply List.Forall_impl; [|exact Hall]. simpl. tauto.
Qed.

Lemma seq_inv_stop s : seq_inv s -> seq_inv (stopAnimationSequence s).
Proof.
  intros H. pose proof (stop_cancels s H) as Hn. split; [by apply armed_nil|done].
Qed.

(** A sequence callback that runs while the sequence is stopped returns
    at its guard. *)
Lemma seq_callback_stopped rev c s :
  seq_callback c = true -> animationSequenceStarted s = false ->
  run_callback rev c s = Ok s.
Proof.
  intros Hc Hs. destruct c; try done; simpl.
  - unfold seqReveal. by rewrite Hs.
  - unfold seqSpotlight. by rewrite Hs.
Qed.

Lemma host_seqReveal path o s : host (seqReveal path o s) = host s.
Proof. unfold seqReveal. by destruct (negb _). Qed.

Lemma host_seqSpotlight i s : host (seqSpotlight i s) = host s.
Proof. unfold seqSpotlight. by destruct (negb _). Qed.

Lemma fire_seq rev t s :
  seq_callback (cb t) = true -> period t = None ->
  host (fire rev t s)
  = with_now (N.max (now (host s)) (due t))
      (with_timers (cancel (tid t)) (host s))
  /\ timeoutIds (fire rev t s) = timeoutIds s
  /\ animationSequenceStarted (fire rev t s) = animationSequenceStarted s
  /\ testMode (fire rev t s) = testMode s
  /\ mindarThree (fire rev t s) = mindarThree s.
Proof.
  intros Hc Hp. unfold fire, dequeue. rewrite Hp.
  destruct (cb t) as [?|?|path o|i|]; try done; simpl.
  - rewrite host_seqReveal. unfold seqReveal. simpl.
    destruct (animationSequenceStarted s) eqn:E; simpl; rewrite ?E;
      repeat split; reflexivity.
  - rewrite host_seqSpotlight. unfold seqSpotlight. simpl.
    destruct (animationSequenceStarted s) eqn:E; simpl; rewrite ?E;
      repeat split; reflexivity.
Qed.

Lemma seq_inv_fire rev t s :
  seq_inv s -> earliest (timers (host s)) = Some t -> seq_inv (fire rev t s).
Proof.
  intros [[Hall Hs] Hq] He. pose proof (earliest_In _ _ He) as Hin.
  pose proof Hall as Hall'. rewrite List.Forall_forall in Hall'.
  destruct (Hall' t Hin) as (_ & Hc & Hp & _).
  destruct (fire_seq rev t s Hc Hp) as (Hh & Hids & Hst & _).
  split.
  - unfold armed. rewrite Hh, Hids. simpl. split.
    + unfold cancel. apply List.Forall_forall. intros u Hu.
      apply List.filter_In in Hu. apply Hall', Hu.
    + by apply sorted_filter.
  - rewrite Hst. intros Hf. rewrite (Hq Hf) in Hin. destruct Hin.
Qed.

Lemma seq_inv_at_time t s : seq_inv s -> seq_inv (at_time t s).
Proof. by intros [[Hall Hs] Hq]. Qed.

Lemma loadTrackedModel_quiet env c p p' r :
  ar_quiet p -> loadTrackedModel RevTracked env c p = (p', r) -> ar_quiet p'.
Proof.
  intros (Ht & Htest & Hmind & Hst). unfold loadTrackedModel.
  destruct (cfg_enabled c); simpl; [|by intros [= <- _]].
  destruct (loadModel RevTracked env (cfg_path c) (entry_options false c) p)
    as [p1 r1] eqn:E.
  assert (Hq : ar_quiet p1).
  { destruct r1 as [model|e].
    - destruct (loadModel_Ok _ _ _ _ _ _ _ E)
        as (asset & _ & _ & _ & _ & _ & _ & Hi).
      destruct (install_tracked _ _ _ _ _ _ Htest Hmind Hi)
        as (H1 & _ & _ & H4 & H5 & _ & _ & H8 & _).
      unfold ar_quiet. by rewrite H1, H4, H5, H8.
    - unfold loadModel in E. revert E.
      destruct (head_ok env (cfg_path c)); simpl; [|by intros [= <- _]].
      destruct (supported (cfg_path c)); [|by intros [= <- _]].
      destruct (decode env (cfg_path c)); [|by intros [= <- _]].
      by destruct (install _ _ _ _ _). }
  destruct r1 as [model|e].
  - destruct (includes _ _); by intros [= <- _].
  - unfold displayErrorMessage. destruct (scene p1); by intros [= <- _].
Qed.

Lemma for_each_quiet env l : forall p p' r,
  ar_quiet p ->
  for_each_config (loadTrackedModel RevTracked env) l p = (p', r) -> ar_quiet p'.
Proof.
  induction l as [|c rest IH]; intros p p' r Hq; simpl.
  - by intros [= <- _].
  - destruct (loadTrackedModel RevTracked env c p) as [p1 r1] eqn:E.
    pose proof (loadTrackedModel_quiet _ _ _ _ _ Hq E) as H1.
    destruct r1 as [[]|e]; [by apply IH|by intros [= <- _]].
Qed.

Lemma tracked_seq_inv env cfgs s : tracked env cfgs s -> seq_inv s.
Proof.
  induction 1 as [p Hi|s _ IH|s _ IH|s s' _ IH Hf|s delta _ IH|s t _ IH].
  - unfold initializeAR in Hi.
    apply for_each_quiet in Hi; [|by repeat split].
    destruct Hi as (Ht & _). split; [by apply armed_nil|done].
  - by apply seq_inv_start.
  - by apply seq_inv_stop.
  - unfold fire_next in Hf.
    destruct (earliest (timers (host s))) as [t|] eqn:E; [|done].
    injection Hf as <-. by apply seq_inv_fire.
  - by destruct IH as [[Hall Hs] Hq].
  - by apply seq_inv_at_time.
Qed.

Lemma advance_idle rev fuel t s :
  timers (host s) = [] -> advance rev fuel t s = Some (at_time t s).
Proof. intros H. destruct fuel; simpl; by rewrite H. Qed.

Lemma stopped_stays rev n : forall s,
  animationSequenceStarted s = false ->
  Forall (fun t => seq_callback (cb t) = true) (timers (host s)) ->
  mm (fire_n rev n s) = mm s
  /\ spotlights (fire_n rev n s) = spotlights s
  /\ animationSequenceStarted (fire_n rev n s) = false.
Proof.
  induction n as [|n IH]; intros s Hs Hall; simpl; [done|].
  unfold fire_next. destruct (earliest (timers (host s))) as [t|] eqn:E; [|done].
  pose proof (earliest_In _ _ E) as Hin.
  pose proof Hall as Hall'. rewrite List.Forall_forall in Hall'.
  pose proof (Hall' t Hin) as Hc.
  unfold fire, dequeue.
  set (s1 := with_host _ s).
  rewrite (seq_callback_stopped rev (cb t) s1 Hc Hs).
  destruct (IH s1) as (H1 & H2 & H3); [done| |by rewrite H1, H2, H3].
  simpl. apply List.Forall_forall. intros u Hu.
  destruct (period t).
  - apply in_app_iff in Hu. destruct Hu as [Hu|[<-|[]]]; [|done].
    apply In_cancel in Hu. apply Hall', Hu.
  - apply In_cancel in Hu. apply Hall', Hu.
Qed.

(** C1. In every state of an AR session, [stopAnimationSequence] leaves no
    timer pending, so that advancing the clock afterwards, by any amount,
    only moves the clock.  And whatever sequence callbacks might still be
    pending when it returns, in any state at all, each of them returns at
    its guard: however many of them fire, no model, clip or spotlight
    changes. *)
Theorem stop_leaves_no_reveal (env : Env) (cfgs : list Config) :
  (forall s, tracked env cfgs s ->
     timers (host (stopAnimationSequence s)) = []
     /\ forall fuel t,
          advance RevTracked fuel t (stopAnimationSequence s)
          = Some (at_time t (stopAnimationSequence s)))
  /\ (forall s c, seq_callback c = true ->
        run_callback RevTracked c (stopAnimationSequence s)
        = Ok (stopAnimationSequence s))
  /\ (forall s n,
        Forall (fun t => seq_callback (cb t) = true)
          (timers (host (stopAnimationSequence s))) ->
        mm (fire_n RevTracked n (stopAnimationSequence s))
        = mm (stopAnimationSequence s)
        /\ spotlights (fire_n RevTracked n (stopAnimationSequence s))
           = spotlights (stopAnimationSequence s)).
Proof.
  split; [|split].
  - intros s Hs. pose proof (stop_cancels s (tracked_seq_inv _ _ _ Hs)) as Hn.
    split; [done|]. intros fuel t. by apply advance_idle.
  - intros s c Hc. apply seq_callback_stopped; [done|].
    apply started_stopAnimationSequence.
  - intros s n Hall.
    destruct (stopped_stays RevTracked n (stopAnimationSequence s)) as (H1 & H2 & _);
      [apply started_stopAnimationSequence|done|done].
Qed.

(** ** A running sequence *)

Lemma pending_path_spec k l :
  pending_path k l = true <-> exists t o, In t l /\ cb t = CbSeqModel k o.
Proof.
  unfold pending_path. induction l as [|t r IH]; simpl.
  - split; [done|]. by intros (? & ? & [] & _).
  - destruct (cb t) as [?|?|path o|?|] eqn:E; simpl;
      try (rewrite IH; split;
           [intros (u & o' & Hu & Hc); exists u, o'; auto
           |intros (u & o' & [<-|Hu] & Hc); [congruence|eauto]]).
    rewrite orb_true_iff, IH, String.eqb_eq. split.
    + intros [->|(u & o' & Hu & Hc)]; [exists t, o; auto|exists u, o'; auto].
    + intros (u & o' & [<-|Hu] & Hc); [left; congruence|right; eauto].
Qed.

Lemma model_schedule_In_path l k :
  In k (map snd (model_schedule l)) <-> exists t o, In t l /\ cb t = CbSeqModel k o.
Proof.
  rewrite <- pending_path_spec. unfold pending_path. rewrite existsb_exists.
  split.
  - intros H. exists k. split; [done|apply String.eqb_refl].
  - intros (x & Hx & He). apply String.eqb_eq in He. by subst.
Qed.

Lemma model_schedule_unique l a b k o o' :
  List.NoDup (map snd (model_schedule l)) ->
  In a l -> In b l -> cb a = CbSeqModel k o -> cb b = CbSeqModel k o' ->
  a = b.
Proof.
  induction l as [|t r IH]; simpl; [done|].
  intros Hnd [<-|Ha] [<-|Hb] Hca Hcb; auto.
  - rewrite Hca in Hnd. simpl in Hnd. inversion Hnd as [|? ? Hni _]; subst.
    exfalso. apply Hni. apply model_schedule_In_path. eauto.
  - rewrite Hcb in Hnd. simpl in Hnd. inversion Hnd as [|? ? Hni _]; subst.
    exfalso. apply Hni. apply model_schedule_In_path. eauto.
  - apply IH; auto. destruct (cb t); simpl in Hnd; auto.
    by inversion Hnd.
Qed.

Lemma model_schedule_filter_NoDup (f : Timer -> bool) l :
  List.NoDup (map snd (model_schedule l)) ->
  List.NoDup (map snd (model_schedule (List.filter f l))).
Proof.
  induction l as [|t r IH]; simpl; [done|].
  intros Hnd.
  assert (Hr : List.NoDup (map snd (model_schedule r))).
  { destruct (cb t); simpl in Hnd; auto. by inversion Hnd. }
  destruct (f t); [|auto]. simpl.
  destruct (cb t) as [?|?|path o|?|] eqn:E; simpl; auto.
  simpl in Hnd. inversion Hnd as [|? ? Hni _]; subst.
  constructor; [|auto].
  intros Hin. apply Hni. apply model_schedule_In_path in Hin.
  destruct Hin as (u & o' & Hu & Hc). apply List.filter_In in Hu.
  apply model_schedule_In_path. exists u, o'. tauto.
Qed.

Lemma model_schedule_filter_due (t : N) l :
  model_schedule (List.filter (fun u => (t <? due u)%N) l)
  = List.filter (fun e => (t <? fst e)%N) (model_schedule l).
Proof.
  induction l as [|u r IH]; simpl; [done|].
  destruct (t <? due u)%N eqn:C; simpl.
  - destruct (cb u); simpl; rewrite ?C; simpl; by rewrite IH.
  - destruct (cb u); simpl; rewrite ?C; simpl; by rewrite IH.
Qed.

Lemma model_schedule_app l1 l2 :
  model_schedule (l1 ++ l2) = model_schedule l1 ++ model_schedule l2.
Proof.
  induction l1 as [|t r IH]; simpl; [done|].
  destruct (cb t); simpl; by rewrite IH.
Qed.

Lemma pending_path_cancel_other k t l :
  (forall o, cb t <> CbSeqModel k o) ->
  StronglySorted tid_lt l -> In t l ->
  pending_path k (cancel (tid t) l) = pending_path k l.
Proof.
  intros Hne Hs Hin. apply eq_true_iff_eq. rewrite !pending_path_spec.
  split; intros (u & o & Hu & Hc).
  - apply In_cancel in Hu. exists u, o. tauto.
  - exists u, o. split; [|done]. apply In_cancel. split; [done|].
    intros Heq. apply (sorted_tid_inj l u t Hs Hu Hin) in Heq. subst u.
    by apply (Hne o).
Qed.

Lemma pending_path_cancel_same k o t l :
  cb t = CbSeqModel k o ->
  List.NoDup (map snd (model_schedule l)) -> In t l ->
  pending_path k (cancel (tid t) l) = false.
Proof.
  intros Hc Hnd Hin. apply not_true_iff_false. rewrite pending_path_spec.
  intros (u & o' & Hu & Hcu). apply In_cancel in Hu. destruct Hu as [Hu Hne].
  apply Hne. by rewrite (model_schedule_unique l u t k o' o Hnd Hu Hin Hcu Hc).
Qed.

Lemma playing_seqReveal (acts : gmap string Action) name a :
  (set_paused false <$> (play <$> (reset <$> acts))) !! name = Some a ->
  playing_from_zero a.
Proof.
  rewrite !lookup_fmap. destruct (acts !! name) as [a0|]; simpl; [|done].
  intros [= <-]. by destruct a0.
Qed.

Lemma fire_model rev t s path o m :
  period t = None -> cb t = CbSeqModel path o ->
  animationSequenceStarted s = true ->
  obj_get path (models (mm s)) = Some m -> oid (object m) = o ->
  models (mm (fire rev t s)) = obj_set path (set_visible true m) (models (mm s))
  /\ actions (mm (fire rev t s))
     = match actions (mm s) !! path with
       | Some acts =>
           <[path := set_paused false <$> (play <$> (reset <$> acts))]>
             (actions (mm s))
       | None => actions (mm s)
       end.
Proof.
  intros Hp Hc Hst Hm Ho. unfold fire, dequeue. rewrite Hp, Hc. simpl.
  unfold seqReveal. simpl. rewrite Hst. simpl. rewrite Hm, Ho, Nat.eqb_refl.
  done.
Qed.

Lemma fire_spot rev t s i :
  period t = None -> cb t = CbSeqSpotlight i -> mm (fire rev t s) = mm s.
Proof.
  intros Hp Hc. unfold fire, dequeue. rewrite Hp, Hc. simpl.
  unfold seqSpotlight. simpl. by destruct (animationSequenceStarted s).
Qed.

Lemma running_fire rev t s :
  running s -> earliest (timers (host s)) = Some t -> running (fire rev t s).
Proof.
  intros (Hst & Harm & Hnd & Hoid & Hvis & Hclips) He.
  pose proof (earliest_In _ _ He) as Hin.
  destruct Harm as [Hall Hsorted].
  pose proof Hall as Hall'. rewrite List.Forall_forall in Hall'.
  destruct (Hall' t Hin) as (_ & Hc & Hp & _).
  assert (Hinv : seq_inv (fire rev t s)).
  { apply seq_inv_fire; [|done]. split; [by split|]. by rewrite Hst. }
  destruct (fire_seq rev t s Hc Hp) as (Hh & _ & Hst' & _).
  assert (Htm : timers (host (fire rev t s)) = cancel (tid t) (timers (host s))).
  { by rewrite Hh. }
  split; [by rewrite Hst'|]. split; [apply Hinv|].
  split; [rewrite Htm; by apply model_schedule_filter_NoDup|].
  destruct (cb t) as [?|?|path o|i|] eqn:Ecb; try done.
  - (* the model timer of [path] *)
    destruct (Hoid t path o Hin Ecb) as (m & Hm & Ho).
    destruct (fire_model rev t s path o m Hp Ecb Hst Hm Ho) as (Hms & Hacts).
    split; [|split].
    + intros u path' o' Hu Hcu. rewrite Htm in Hu. apply In_cancel in Hu.
      destruct (Hoid u path' o' (proj1 Hu) Hcu) as (m' & Hm' & Ho').
      rewrite Hms.
      destruct (String.eqb path path') eqn:Ep.
      * apply String.eqb_eq in Ep. subst path'.
        rewrite obj_get_set_eq. exists (set_visible true m). split; [done|].
        simpl. congruence.
      * apply String.eqb_neq in Ep. rewrite obj_get_set_ne; eauto.
    + intros k m' Hk. rewrite Htm. rewrite Hms in Hk.
      destruct (String.eqb path k) eqn:Ep.
      * apply String.eqb_eq in Ep. subst k.
        rewrite obj_get_set_eq in Hk. injection Hk as <-. simpl.
        by rewrite (pending_path_cancel_same path o t _ Ecb Hnd Hin).
      * apply String.eqb_neq in Ep. rewrite obj_get_set_ne in Hk; [|done].
        rewrite pending_path_cancel_other; auto.
        intros o' Heq. congruence.
    + intros k name a. unfold visibleModel, clips. rewrite Hms, Hacts.
      destruct (String.eqb path k) eqn:Ep.
      * apply String.eqb_eq in Ep. subst k. intros _.
        destruct (actions (mm s) !! path) as [acts|] eqn:Ea.
        -- rewrite lookup_insert_eq. simpl. apply playing_seqReveal.
        -- rewrite Ea. simpl. by rewrite lookup_empty.
      * apply String.eqb_neq in Ep. rewrite obj_get_set_ne; [|done].
        intros Hv.
        assert (Hl : (match actions (mm s) !! path with
                      | Some acts =>
                          <[path := set_paused false <$> (play <$> (reset <$> acts))]>
                            (actions (mm s))
                      | None => actions (mm s)
                      end) !! k = actions (mm s) !! k).
        { destruct (actions (mm s) !! path); [|done]. by rewrite lookup_insert_ne. }
        rewrite Hl. apply (Hclips k name a). exact Hv.
  - (* a spotlight timer *)
    pose proof (fire_spot rev t s i Hp Ecb) as Hmm.
    split; [|split].
    + intros u path' o' Hu Hcu. rewrite Htm in Hu. apply In_cancel in Hu.
      rewrite Hmm. apply (Hoid u path' o' (proj1 Hu) Hcu).
    + intros k m' Hk. rewrite Hmm in Hk.
      rewrite Htm, pending_path_cancel_other; auto.
      intros o' Heq. congruence.
    + intros k name a. unfold visibleModel, clips. rewrite Hmm.
      apply (Hclips k name a).
Qed.

Lemma filter_id {A : Type} (f : A -> bool) l :
  (forall x, In x l -> f x = true) -> List.filter f l = l.
Proof.
  induction l as [|x r IH]; simpl; [done|]. intros H.
  rewrite (H x (or_introl eq_refl)). f_equal. auto.
Qed.

Lemma filter_filter_weaker {A : Type} (f g : A -> bool) l :
  (forall x, In x l -> f x = true -> g x = true) ->
  List.filter f (List.filter g l) = List.filter f l.
Proof.
  induction l as [|x r IH]; simpl; [done|]. intros H.
  destruct (g x) eqn:G; simpl.
  - destruct (f x); [f_equal|]; auto.
  - destruct (f x) eqn:F; [|auto].
    rewrite (H x (or_introl eq_refl) F) in G. done.
Qed.

Lemma running_at_time t s : running s -> running (at_time t s).
Proof. by intros (? & [? ?] & ? & ? & ? & ?). Qed.

(** Advancing the clock of a running sequence: with fuel for every
    pending timer the run completes, the sequence is still running, and
    the timers left are exactly those due later. *)
Lemma advance_running fuel : forall s t,
  running s -> length (timers (host s)) <= fuel ->
  exists s',
    advance RevTracked fuel t s = Some s'
    /\ running s'
    /\ timers (host s') = List.filter (fun u => (t <? due u)%N) (timers (host s))
    /\ obj_keys (models (mm s')) = obj_keys (models (mm s)).
Proof.
  induction fuel as [|fuel IH]; intros s t Hr Hlen.
  - assert (E : timers (host s) = []).
    { destruct (timers (host s)); [done|simpl in Hlen; lia]. }
    exists (at_time t s). rewrite advance_idle; [|done].
    split; [done|]. split; [by apply running_at_time|]. simpl. by rewrite E.
  - simpl. destruct (earliest (timers (host s))) as [tm|] eqn:E.
    + pose proof (earliest_In _ _ E) as Hin.
      destruct (due tm <=? t)%N eqn:C.
      * pose proof (running_fire RevTracked tm s Hr E) as Hr'.
        destruct Hr as (_ & [Hall Hsorted] & _).
        rewrite List.Forall_forall in Hall.
        destruct (Hall tm Hin) as (_ & Hc & Hp & _).
        destruct (fire_seq RevTracked tm s Hc Hp) as (Hh & _).
        assert (Htm : timers (host (fire RevTracked tm s))
                      = cancel (tid tm) (timers (host s))) by (by rewrite Hh).
        destruct (IH (fire RevTracked tm s) t Hr') as (s' & Ha & Hr2 & Ht2 & Hk2).
        { rewrite Htm. pose proof (length_cancel_lt _ _ Hin). lia. }
        exists s'. split; [done|]. split; [done|]. split.
        -- rewrite Ht2, Htm. unfold cancel. apply filter_filter_weaker.
           intros u Hu Hd. apply negb_true_iff, Nat.eqb_neq. intros Heq.
           apply (sorted_tid_inj _ u tm Hsorted Hu Hin) in Heq. subst u.
           apply N.leb_le in C. apply N.ltb_lt in Hd. lia.
        -- by rewrite Hk2, models_fire_keys.
      * exists (at_time t s). split; [done|]. split; [by apply running_at_time|].
        split; [|done]. simpl. symmetry. apply filter_id.
        intros u Hu. apply N.ltb_lt. apply N.leb_gt in C.
        pose proof (earliest_min _ _ _ E Hu). lia.
    + apply earliest_None in E. exists (at_time t s).
      split; [done|]. split; [by apply running_at_time|].
      split; [|done]. simpl. by rewrite E.
Qed.

(** *** The state that [startAnimationSequence] builds *)

Lemma scheduleModel_step k s :
  mm (scheduleModel k s) = mm s
  /\ now (host (scheduleModel k s)) = now (host s)
  /\ animationSequenceStarted (scheduleModel k s) = animationSequenceStarted s
  /\ spotlights (scheduleModel k s) = spotlights s
  /\ timers (host (scheduleModel k s))
     = timers (host s)
       ++ match obj_get k (models (mm s)) with
          | Some m => [{| tid := next_tid (host s);
                          due := (now (host s) + delay (options m))%N;
                          period := None;
                          cb := CbSeqModel k (oid (object m)) |}]
          | None => []
          end.
Proof.
  unfold scheduleModel. destruct (obj_get k (models (mm s))); simpl.
  - done.
  - by rewrite app_nil_r.
Qed.

Lemma fold_scheduleModel ks : forall s,
  let s' := fold_left (fun s path => scheduleModel path s) ks s in
  mm s' = mm s
  /\ now (host s') = now (host s)
  /\ animationSequenceStarted s' = animationSequenceStarted s
  /\ spotlights s' = spotlights s
  /\ model_schedule (timers (host s'))
     = model_schedule (timers (host s)) ++ sched_of (models (mm s)) (now (host s)) ks
  /\ (forall t, In t (timers (host s')) ->
        In t (timers (host s))
        \/ exists k m, obj_get k (models (mm s)) = Some m
                       /\ cb t = CbSeqModel k (oid (object m))).
Proof.
  induction ks as [|k r IH]; intros s; simpl.
  - rewrite app_nil_r. repeat split; auto.
  - destruct (IH (scheduleModel k s)) as (H1 & H2 & H3 & H4 & H5 & H6).
    destruct (scheduleModel_step k s) as (E1 & E2 & E3 & E4 & E5).
    rewrite H1, H2, H3, H4, H5, E1, E2, E3, E4, E5.
    split; [done|]. split; [done|]. split; [done|]. split; [done|]. split.
    + rewrite model_schedule_app, <- app_assoc. f_equal.
      destruct (obj_get k (models (mm s))); simpl; done.
    + intros t Ht. destruct (H6 t Ht) as [Hin|Hex].
      * rewrite E5 in Hin. apply in_app_iff in Hin.
        destruct Hin as [Hin|Hin]; [by left|].
        destruct (obj_get k (models (mm s))) as [m|] eqn:Hm; [|destruct Hin].
        destruct Hin as [<-|[]]. right. exists k, m. by split.
      * right. by rewrite E1 in Hex.
Qed.

Lemma schedule_spotlights_seq l : forall i s,
  let s' := schedule_spotlights CbSeqSpotlight true i l s in
  mm s' = mm s
  /\ now (host s') = now (host s)
  /\ model_schedule (timers (host s')) = model_schedule (timers (host s))
  /\ (forall t, In t (timers (host s')) ->
        In t (timers (host s)) \/ exists j, cb t = CbSeqSpotlight j)
  /\ (forall t, In t (timers (host s')) ->
        In t (timers (host s))
        \/ exists sp, In sp l /\ due t = (now (host s) + spot_delay sp)%N).
Proof.
  induction l as [|sp r IH]; intros i s; simpl.
  - repeat split; auto.
  - match goal with |- context [schedule_spotlights _ _ _ _ ?x] =>
      destruct (IH (S i) x) as (H1 & H2 & H3 & H4 & H5) end.
    simpl in *. rewrite H1, H2, H3. repeat split; auto.
    + rewrite model_schedule_app. simpl. by rewrite app_nil_r.
    + intros t Ht. destruct (H4 t Ht) as [Hin|Hex]; [|by right].
      apply in_app_iff in Hin. destruct Hin as [Hin|[<-|[]]]; [by left|].
      right. by exists i.
    + intros t Ht. destruct (H5 t Ht) as [Hin|(sp' & Hsp & Hd)].
      * apply in_app_iff in Hin. destruct Hin as [Hin|[<-|[]]]; [by left|].
        right. exists sp. split; [by left|done].
      * right. exists sp'. split; [by right|done].
Qed.

Lemma obj_get_In {V : Type} (k : string) (v : V) o :
  List.NoDup (obj_keys o) -> In (k, v) o -> obj_get k o = Some v.
Proof.
  unfold obj_keys. induction o as [|[k' v'] r IH]; simpl; [done|].
  intros Hnd [[= -> ->]|Hin].
  - by rewrite String.eqb_refl.
  - inversion Hnd as [|? ? Hni Hr]; subst.
    destruct (String.eqb k k') eqn:E; [|auto].
    apply String.eqb_eq in E. subst k'. exfalso. apply Hni.
    apply in_map_iff. by exists (k, v).
Qed.

Lemma obj_get_Some_In {V : Type} (k : string) (v : V) o :
  obj_get k o = Some v -> In (k, v) o.
Proof.
  induction o as [|[k' v'] r IH]; simpl; [done|].
  destruct (String.eqb k k') eqn:E; [|auto].
  apply String.eqb_eq in E. intros [= ->]. subst. by left.
Qed.

Lemma sched_of_keys ms t0 :
  List.NoDup (obj_keys ms) ->
  sched_of ms t0 (obj_keys ms)
  = map (fun '(k, m) => ((t0 + delay (options m))%N, k)) ms.
Proof.
  intros Hnd. unfold sched_of, obj_keys.
  assert (H : forall l, incl l ms ->
            flat_map (fun k => match obj_get k ms with
                               | Some m => [((t0 + delay (options m))%N, k)]
                               | None => []
                               end) (map fst l)
            = map (fun '(k, m) => ((t0 + delay (options m))%N, k)) l).
  { induction l as [|[k m] r IH]; simpl; [done|]. intros Hincl.
    rewrite (obj_get_In k m ms Hnd); [|apply Hincl; by left].
    simpl. f_equal. apply IH. intros x Hx. apply Hincl. by right. }
  apply H. apply incl_refl.
Qed.

Lemma concealModel_hidden path s :
  (forall k m, obj_get k (models (mm s)) = Some m -> obj_visible (object m) = false) ->
  models (mm (concealModel path s)) = models (mm s).
Proof.
  intros Hh. unfold concealModel.
  destruct (obj_get path (models (mm s))) as [m|] eqn:Hm; [|done]. simpl.
  apply obj_set_id. rewrite Hm. f_equal.
  specialize (Hh path m Hm). destruct m as [[o v] op an]. simpl in *. by subst.
Qed.

Lemma concealAll_hidden s :
  (forall k m, obj_get k (models (mm s)) = Some m -> obj_visible (object m) = false) ->
  models (mm (concealAll s)) = models (mm s).
Proof.
  intros Hh. unfold concealAll. simpl.
  apply (fold_left_inv (fun s' => models (mm s') = models (mm s))); [done|].
  intros a b Ha. rewrite <- Ha. apply concealModel_hidden. by rewrite Ha.
Qed.

Lemma ar_loaded_entries seen p (T : N) :
  ar_loaded seen p ->
  (forall k m, obj_get k (models (mm (state p))) = Some m ->
     obj_visible (object m) = false)
  /\ map (fun '(k, m) => ((T + delay (options m))%N, k)) (models (mm (state p)))
     = map (fun c => ((T + cfg_delay c)%N, cfg_path c))
         (List.filter cfg_enabled seen).
Proof.
  intros (_ & _ & _ & _ & _ & _ & _ & Hreg). split.
  - intros k m Hm. apply obj_get_Some_In in Hm.
    apply (in_map (fun '(k, m) => (k, delay (options m), obj_visible (object m))))
      in Hm.
    rewrite Hreg in Hm. apply in_map_iff in Hm. destruct Hm as (c & Hc & _).
    by injection Hc.
  - apply (f_equal (map (fun x : string * N * bool =>
                           ((T + snd (fst x))%N, fst (fst x))))) in Hreg.
    rewrite !map_map in Hreg. simpl in Hreg. rewrite <- Hreg.
    apply map_ext. by intros [k m].
Qed.

Lemma start_running s0 (T : N) :
  timers (host s0) = [] -> timeoutIds s0 = [] ->
  animationSequenceStarted s0 = false ->
  (forall k m, obj_get k (models (mm s0)) = Some m ->
     obj_visible (object m) = false) ->
  List.NoDup (obj_keys (models (mm s0))) ->
  let s1 := startAnimationSequence (at_time T s0) in
  running s1
  /\ models (mm s1) = models (mm s0)
  /\ model_schedule (timers (host s1))
     = map (fun '(k, m) => ((N.max (now (host s0)) T + delay (options m))%N, k))
         (models (mm s0)).
Proof.
  intros Htm Hids Hst Hhid Hnd s1.
  assert (Hinv : seq_inv s1).
  { apply seq_inv_start. split; [by apply armed_nil|done]. }
  pose proof (started_startAnimationSequence (at_time T s0)) as Hstarted.
  fold s1 in Hstarted.
  unfold s1, startAnimationSequence in *.
  replace (animationSequenceStarted (at_time T s0)) with false in * by done.
  set (s2 := clearTimeouts (with_started true (at_time T s0))) in *.
  assert (Hs2 : s2 = with_timeoutIds [] (with_started true (at_time T s0))).
  { unfold s2, clearTimeouts. simpl. by rewrite Hids. }
  set (s3 := concealAll s2) in *.
  assert (Hm3 : models (mm s3) = models (mm s0)).
  { unfold s3. rewrite concealAll_hidden; rewrite Hs2; [done|]. simpl. exact Hhid. }
  assert (Hh3 : host s3 = host (at_time T s0)).
  { unfold s3. rewrite host_concealAll. by rewrite Hs2. }
  set (s4 := fold_left (fun s path => scheduleModel path s)
               (obj_keys (models (mm s3))) s3) in *.
  destruct (fold_scheduleModel (obj_keys (models (mm s3))) s3)
    as (F1 & F2 & F3 & F4 & F5 & F6).
  fold s4 in F1, F2, F3, F4, F5, F6. clearbody s4.
  set (s5 := schedule_spotlights CbSeqSpotlight true 0 (spotlights s4) s4) in *.
  destruct (schedule_spotlights_seq (spotlights s4) 0 s4) as (G1 & G2 & G3 & G4 & _).
  fold s5 in G1, G2, G3, G4. clearbody s5. clearbody s3.
  assert (Hsched : model_schedule (timers (host s5))
            = map (fun '(k, m) =>
                     ((N.max (now (host s0)) T + delay (options m))%N, k))
                (models (mm s0))).
  { rewrite G3, F5, Hh3, Hm3.
    change (timers (host (at_time T s0))) with (timers (host s0)).
    change (now (host (at_time T s0))) with (N.max (now (host s0)) T).
    rewrite Htm. simpl. by apply sched_of_keys. }
  assert (Hms5 : models (mm s5) = models (mm s0)) by (by rewrite G1, F1, Hm3).
  assert (Hpaths : map snd (model_schedule (timers (host s5)))
                   = obj_keys (models (mm s0))).
  { rewrite Hsched, map_map. unfold obj_keys. apply map_ext. by intros [k m]. }
  split; [|by split].
  split; [done|]. split; [apply Hinv|]. split; [by rewrite Hpaths|].
  split; [|split].
  - intros t path o Ht Hc. destruct (G4 t Ht) as [Hin|[j Hj]]; [|congruence].
    destruct (F6 t Hin) as [Hin3|(k & m & Hk & Hck)].
    + rewrite Hh3 in Hin3.
      change (timers (host (at_time T s0))) with (timers (host s0)) in Hin3.
      rewrite Htm in Hin3. destruct Hin3.
    + rewrite Hc in Hck. injection Hck as -> ->.
      exists m. split; [|done]. by rewrite Hms5, <- Hm3.
  - intros k m Hk. rewrite Hms5 in Hk. rewrite (Hhid k m Hk).
    symmetry. apply negb_false_iff. unfold pending_path. rewrite Hpaths.
    apply existsb_exists. exists k. split; [|apply String.eqb_refl].
    by apply obj_get_Some_keys in Hk.
  - intros k name a Hv. unfold visibleModel in Hv. rewrite Hms5 in Hv.
    destruct (obj_get k (models (mm s0))) as [m|] eqn:Hk; [|done].
    by rewrite (Hhid k m Hk) in Hv.
Qed.

Lemma pending_entry (T t : N) E c :
  List.NoDup (map cfg_path E) -> In c E ->
  existsb (String.eqb (cfg_path c))
    (map snd (List.filter (fun e => (t <? fst e)%N)
                (map (fun c => ((T + cfg_delay c)%N, cfg_path c)) E)))
  = (t <? T + cfg_delay c)%N.
Proof.
  induction E as [|c' r IH]; simpl; [done|].
  intros Hnd Hin. inversion Hnd as [|? ? Hni Hr]; subst.
  assert (Hrest : forall x, ~ In (cfg_path x) (map cfg_path r) ->
            existsb (String.eqb (cfg_path x))
              (map snd (List.filter (fun e => (t <? fst e)%N)
                          (map (fun c => ((T + cfg_delay c)%N, cfg_path c)) r)))
            = false).
  { intros x Hx. apply not_true_iff_false. intros He.
    apply existsb_exists in He. destruct He as (k & Hk & Heq).
    apply String.eqb_eq in Heq. subst k. apply Hx.
    apply in_map_iff in Hk. destruct Hk as ((d & k) & Hk1 & Hk2).
    simpl in Hk1. subst k. apply List.filter_In in Hk2. destruct Hk2 as [Hk2 _].
    apply in_map_iff in Hk2. destruct Hk2 as (c0 & Hc0 & Hin0).
    injection Hc0 as _ <-. by apply in_map. }
  destruct Hin as [->|Hin].
  - destruct (t <? T + cfg_delay c)%N; simpl.
    + by rewrite String.eqb_refl.
    + by apply Hrest.
  - assert (Hne : cfg_path c <> cfg_path c').
    { intros Heq. apply Hni. rewrite <- Heq. by apply in_map. }
    apply String.eqb_neq in Hne.
    destruct (t <? T + cfg_delay c')%N; simpl; rewrite ?Hne; by apply IH.
Qed.


(** ** The order in which the timers of a sequence fire *)

Lemma in_order_fire rev L t s :
  running s -> in_order L s -> earliest (timers (host s)) = Some t ->
  in_order L (fire rev t s).
Proof.
  intros (_ & [Hall Hsorted] & _) [Hsub Hord] He.
  pose proof (earliest_In _ _ He) as Hin.
  rewrite List.Forall_forall in Hall.
  destruct (Hall t Hin) as (_ & Hc & Hp & _).
  destruct (fire_seq rev t s Hc Hp) as (Hh & _).
  assert (Htm : timers (host (fire rev t s)) = cancel (tid t) (timers (host s)))
    by (by rewrite Hh).
  unfold in_order. rewrite Htm.
  split.
  - intros u Hu. apply In_cancel in Hu. apply Hsub, Hu.
  - intros a b Ha Hb Hab Hpa. apply In_cancel in Hpa. destruct Hpa as [Hpa Hne].
    pose proof (Hord a b Ha Hb Hab Hpa) as Hpb.
    apply In_cancel. split; [done|]. intros Heq.
    apply (sorted_tid_inj _ b t Hsorted Hpb Hin) in Heq. subst b.
    pose proof (earliest_min _ _ _ He Hpa) as Hmin.
    destruct Hab as [Hlt|[Hd Hlt]]; [lia|].
    pose proof (earliest_first _ _ _ Hsorted He Hpa Hd). lia.
Qed.

Lemma fire_n_running rev L n : forall s,
  running s -> in_order L s ->
  running (fire_n rev n s) /\ in_order L (fire_n rev n s).
Proof.
  induction n as [|n IH]; intros s Hr Ho; simpl; [done|].
  unfold fire_next. destruct (earliest (timers (host s))) as [t|] eqn:E; [|done].
  apply IH; [by apply running_fire|by apply in_order_fire].
Qed.

Lemma model_schedule_split l : forall a e b,
  model_schedule l = a ++ e :: b ->
  exists l1 t l2 o,
    l = l1 ++ t :: l2 /\ cb t = CbSeqModel (snd e) o /\ due t = fst e
    /\ model_schedule l1 = a /\ model_schedule l2 = b.
Proof.
  induction l as [|u r IH]; intros a e b; simpl.
  - by destruct a.
  - destruct (cb u) as [?|?|path o|?|] eqn:E;
      try (intros H; destruct (IH a e b H) as (l1 & t & l2 & o' & -> & ? & ? & ? & ?);
           exists (u :: l1), t, l2, o'; simpl; rewrite E; by repeat split).
    destruct a as [|a0 a']; simpl.
    + intros [= <- <-]. exists [], u, r, o. by repeat split.
    + intros [= <- H]. destruct (IH a' e b H) as (l1 & t & l2 & o' & -> & ? & ? & ? & ?).
      exists (u :: l1), t, l2, o'. simpl. rewrite E. repeat split; auto. by f_equal.
Qed.

Lemma sorted_app_r l1 l2 :
  StronglySorted tid_lt (l1 ++ l2) -> StronglySorted tid_lt l2.
Proof.
  induction l1 as [|x r IH]; simpl; [done|]. intros H. inversion H. auto.
Qed.


(** ** Restart: what depends on the mixers and actions, and what does not *)

Lemma view_idem s : schedule_view (schedule_view s) = schedule_view s.
Proof. done. Qed.

Lemma view_models s : models (mm (schedule_view s)) = models (mm s).
Proof. done. Qed.

Lemma view_visible path s :
  visibleModel path (schedule_view s) = visibleModel path s.
Proof. done. Qed.

Lemma view_timers s : timers (host (schedule_view s)) = timers (host s).
Proof. done. Qed.

Lemma view_local_eq f s s' :
  view_local f -> schedule_view s = schedule_view s' ->
  schedule_view (f s) = schedule_view (f s').
Proof. intros Hf H. by rewrite (Hf s), (Hf s'), H. Qed.

Lemma view_local_fold (f : string -> State -> State) ks :
  (forall k, view_local (f k)) ->
  view_local (fun s => fold_left (fun s k => f k s) ks s).
Proof.
  intros Hf. induction ks as [|k r IH]; intros s; simpl; [done|].
  rewrite (IH (f k s)), (IH (f k (schedule_view s))).
  f_equal. f_equal. apply Hf.
Qed.

Lemma view_local_hideModel path : view_local (hideModel path).
Proof.
  intros s. unfold hideModel. rewrite view_models.
  by destruct (obj_get path (models (mm s))).
Qed.

Lemma view_local_hideAllModels : view_local hideAllModels.
Proof.
  intros s. unfold hideAllModels. rewrite view_models.
  apply (view_local_fold hideModel). apply view_local_hideModel.
Qed.

Lemma view_resetMixer path s :
  schedule_view (resetMixer path s) = schedule_view s.
Proof.
  unfold resetMixer. destruct (mixers (mm s) !! path); [|done]. simpl.
  destruct (obj_get path (models (mm s))) as [model|]; [|done].
  by destruct (animations model).
Qed.

Lemma view_fold_resetMixer ks s :
  schedule_view (fold_left (fun s path => resetMixer path s) ks s)
  = schedule_view s.
Proof.
  revert s. induction ks as [|k r IH]; intros s; simpl; [done|].
  by rewrite IH, view_resetMixer.
Qed.

Lemma view_local_showModel rev path ms : view_local (showModel rev path ms).
Proof.
  intros s. unfold showModel. rewrite view_models.
  destruct (obj_get path (models (mm s))); [|done].
  unfold ar_gate. destruct rev; simpl; [done|].
  by destruct (negb (testMode s) && mindarThree s).
Qed.

Lemma view_local_showAgain rev path : view_local (showAgain rev path).
Proof.
  intros s. unfold showAgain. rewrite view_models.
  destruct (obj_get path (models (mm s))); [|done].
  apply view_local_showModel.
Qed.

Lemma view_local_schedule_spotlights mk track l : forall i,
  view_local (schedule_spotlights mk track i l).
Proof.
  induction l as [|sp r IH]; intros i s; simpl; [done|].
  destruct track; (etrans; [apply IH|]; symmetry; etrans; [apply IH|]; done).
Qed.

Lemma view_local_compose (f g : State -> State) :
  view_local f -> view_local g -> view_local (fun s => g (f s)).
Proof. intros Hf Hg s. by rewrite (Hg (f s)), (Hf s), <- (Hg (f (schedule_view s))). Qed.

Lemma view_resetModels rev s :
  schedule_view (resetModels rev s)
  = schedule_view
      (fold_left (fun s path => showAgain rev path s)
         (obj_keys (models (mm (hideAllModels s)))) (hideAllModels s)).
Proof.
  unfold resetModels.
  set (s1 := hideAllModels s).
  set (s2 := fold_left (fun s path => resetMixer path s) _ s1).
  assert (Hv : schedule_view s2 = schedule_view s1) by apply view_fold_resetMixer.
  assert (Hm : models (mm s2) = models (mm s1)).
  { by rewrite <- (view_models s2), Hv. }
  rewrite Hm.
  rewrite (view_local_fold (showAgain rev) _ (view_local_showAgain rev) s2).
  rewrite Hv.
  by rewrite <- (view_local_fold (showAgain rev) _ (view_local_showAgain rev) s1).
Qed.

Lemma view_local_resetModels rev : view_local (resetModels rev).
Proof.
  intros s. rewrite !view_resetModels.
  pose proof (view_local_hideAllModels s) as Hh.
  assert (Hm : models (mm (hideAllModels (schedule_view s)))
               = models (mm (hideAllModels s))).
  { by rewrite <- (view_models (hideAllModels (schedule_view s))), <- Hh. }
  rewrite Hm.
  rewrite (view_local_fold (showAgain rev) _ (view_local_showAgain rev)
             (hideAllModels s)).
  rewrite (view_local_fold (showAgain rev) _ (view_local_showAgain rev)
             (hideAllModels (schedule_view s))).
  by rewrite Hh.
Qed.

Lemma view_local_resetCycle rev : view_local (resetCycle rev).
Proof.
  intros s. unfold resetCycle.
  replace (resetPatched (schedule_view s)) with (resetPatched s) by done.
  destruct (resetPatched s); [|apply view_local_resetModels].
  set (hide := with_spotlights (map (set_spot_visible false))).
  assert (Hh : view_local hide) by done.
  assert (Hsp : spotlights (hide (resetModels rev (schedule_view s)))
                = spotlights (hide (resetModels rev s))).
  { pose proof (view_local_compose _ _ (view_local_resetModels rev) Hh s) as H.
    simpl in H.
    apply (f_equal spotlights) in H. by simpl in H. }
  rewrite Hsp.
  etrans; [apply view_local_schedule_spotlights|].
  symmetry. etrans; [apply view_local_schedule_spotlights|].
  f_equal. f_equal.
  symmetry. apply (view_local_compose _ _ (view_local_resetModels rev) Hh s).
Qed.

Lemma view_local_fire rev t : view_local (fire rev t).
Proof.
  intros s. unfold fire, dequeue.
  set (step := with_host (fun h : Host =>
                 with_now (N.max (now h) (due t))
                   (with_timers (fun l =>
                      match period t with
                      | None => cancel (tid t) l
                      | Some p => cancel (tid t) l
                                  ++ [{| tid := tid t; due := (due t + p)%N;
                                         period := period t; cb := cb t |}]
                      end) h))).
  assert (Hs : schedule_view (step (schedule_view s)) = schedule_view (step s))
    by done.
  destruct (cb t) as [path|i|path o|i|]; cbn [run_callback].
  - unfold reveal.
    change (models (mm (step (schedule_view s)))) with (models (mm (step s))).
    by destruct (obj_get path (models (mm (step s)))).
  - done.
  - unfold seqReveal.
    change (animationSequenceStarted (step (schedule_view s)))
      with (animationSequenceStarted (step s)).
    by destruct (negb _).
  - unfold seqSpotlight.
    change (animationSequenceStarted (step (schedule_view s)))
      with (animationSequenceStarted (step s)).
    by destruct (negb _).
  - rewrite (view_local_resetCycle rev (step s)).
    rewrite (view_local_resetCycle rev (step (schedule_view s))).
    by rewrite Hs.
Qed.

(** A frame moves clips on and nothing else. *)
Lemma view_updateAnimations delta s :
  schedule_view (updateAnimations delta s) = schedule_view s.
Proof. done. Qed.

Lemma view_local_run rev evs : view_local (run rev evs).
Proof.
  induction evs as [|[|delta] r IH]; intros s; simpl; [done| |].
  - rewrite (IH (default s (fire_next rev s))),
            (IH (default (schedule_view s) (fire_next rev (schedule_view s)))).
    f_equal. f_equal. unfold fire_next. rewrite view_timers.
    destruct (earliest (timers (host s))) as [t|]; simpl; [|done].
    apply view_local_fire.
  - rewrite (IH (updateAnimations delta s)),
            (IH (updateAnimations delta (schedule_view s))).
    by rewrite !view_updateAnimations.
Qed.

Lemma view_local_fire_n rev n : view_local (fire_n rev n).
Proof.
  induction n as [|n IH]; intros s; simpl; [done|].
  unfold fire_next. rewrite view_timers.
  destruct (earliest (timers (host s))) as [t|]; [|done].
  rewrite (IH (fire rev t s)), (IH (fire rev t (schedule_view s))).
  by rewrite (view_local_fire rev t s).
Qed.

(** ** Everything is hidden after [hideAllModels] *)

Lemma hideModel_visible path k s :
  visibleModel k (hideModel path s)
  = if String.eqb path k then false else visibleModel k s.
Proof.
  unfold hideModel, visibleModel.
  destruct (obj_get path (models (mm s))) as [m|] eqn:Hm; simpl.
  - destruct (String.eqb path k) eqn:E.
    + apply String.eqb_eq in E. subst. by rewrite obj_get_set_eq.
    + apply String.eqb_neq in E. by rewrite obj_get_set_ne.
  - destruct (String.eqb path k) eqn:E; [|done].
    apply String.eqb_eq in E. subst. by rewrite Hm.
Qed.

Lemma fold_hideModel_visible ks : forall k s,
  visibleModel k (fold_left (fun s path => hideModel path s) ks s)
  = if existsb (fun path => String.eqb path k) ks then false else visibleModel k s.
Proof.
  induction ks as [|p r IH]; intros k s; simpl; [done|].
  rewrite IH, hideModel_visible.
  destruct (String.eqb p k); simpl; by destruct (existsb _ r).
Qed.

Lemma hideAllModels_hidden k s : visibleModel k (hideAllModels s) = false.
Proof.
  unfold hideAllModels. rewrite fold_hideModel_visible.
  destruct (existsb _ _) eqn:E; [done|].
  unfold visibleModel. destruct (obj_get k (models (mm s))) as [m|] eqn:Hm; [|done].
  apply obj_get_Some_keys in Hm.
  assert (existsb (fun path => String.eqb path k) (obj_keys (models (mm s))) = true).
  { apply existsb_exists. exists k. split; [done|apply String.eqb_refl]. }
  congruence.
Qed.

Lemma resetModels_hidden rev k s : visibleModel k (resetModels rev s) = false.
Proof.
  rewrite <- view_visible, view_resetModels, view_visible.
  unfold visibleModel.
  rewrite (fold_left_inv (fun s' => models (mm s') = models (mm (hideAllModels s)))
             (fun s path => showAgain rev path s) _ _ eq_refl).
  - apply hideAllModels_hidden.
  - intros a b H. by rewrite models_showAgain.
Qed.


(* ===================================================================== *)
(** * The properties on the worked configurations *)
(* ===================================================================== *)

Lemma NoDup_by_computation (l : list string) :
  bool_decide (NoDup l) = true -> List.NoDup l.
Proof. intros H. apply NoDup_ListNoDup. by apply bool_decide_eq_true in H. Qed.

Lemma tracked_page_abc :
  initializeAR RevTracked env_ok cfgs_abc (initial_page false)
  = (tracked_page cfgs_abc, Ok tt).
Proof. vm_compute. reflexivity. Qed.

Lemma tracked_midway_reached : tracked env_ok cfgs_abc tracked_midway.
Proof.
  eapply tracked_fire.
  - apply tracked_found. apply (tracked_init _ _ _ tracked_page_abc).
  - vm_compute. reflexivity.
Qed.

(** C1 on [cfgs_abc]: the target is lost after the first reveal; no timer
    is left and the clock runs on to 5000 with nothing else happening. *)
Lemma stop_leaves_no_reveal_witness :
  tracked env_ok cfgs_abc tracked_midway
  /\ timers (host (stopAnimationSequence tracked_midway)) = []
  /\ advance RevTracked 0 5000 (stopAnimationSequence tracked_midway)
     = Some (at_time 5000 (stopAnimationSequence tracked_midway)).
Proof.
  split; [exact tracked_midway_reached|].
  destruct (proj1 (stop_leaves_no_reveal env_ok cfgs_abc) tracked_midway
              tracked_midway_reached) as [H1 H2].
  split; [exact H1|exact (H2 0 5000%N)].
Defined.



(** C3 on a page in test mode: the load of a hidden entry with delay zero
    arms nothing. *)
Lemma zero_delay_hidden_not_scheduled_witness :
  let p := initTestScene (initial_page true) in
  let p1 := fst (loadModel RevTimed env_ok "models/a.fbx" hidden_now p) in
  delay (mergeOptions "models/a.fbx" hidden_now) = 0%N
  /\ visible (mergeOptions "models/a.fbx" hidden_now) = false
  /\ timers (host (state p1)) = timers (host (state p))
  /\ visibleModel "models/a.fbx" (state p1) = false.
Proof.
  split; [reflexivity|]. split; [reflexivity|].
  eapply (zero_delay_hidden_not_scheduled RevTimed env_ok "models/a.fbx"
            hidden_now (initTestScene (initial_page true))).
  - reflexivity.
  - reflexivity.
  - vm_compute. reflexivity.
Defined.

(** In test mode the entry A of [cfgs_abc], hidden with delay zero, is
    still invisible just before the first reset cycle, 18 seconds later;
    the reset cycle is what shows it. *)
Lemma zero_delay_entry_waits_for_the_cycle :
  let s := state (test_page env_ok cfgs_abc) in
  option_map (visibleModel "models/a.fbx") (advance RevTimed 16 0 s) = Some false
  /\ option_map (visibleModel "models/a.fbx") (advance RevTimed 16 17999 s)
     = Some false
  /\ option_map (visibleModel "models/b.fbx") (advance RevTimed 16 17999 s)
     = Some true
  /\ option_map (visibleModel "models/a.fbx") (advance RevTimed 16 18000 s)
     = Some true.
Proof. vm_compute. by repeat split. Qed.



(** C5 on a page in test mode: a first load of a path that succeeds,
    and what the second load of the same path then does. *)
Lemma loadModel_reloads_witness :
  let p := initTestScene (initial_page true) in
  let p1 := fst (loadModel RevTimed env_ok "models/a.fbx" hidden_now p) in
  exists m1,
    loadModel RevTimed env_ok "models/a.fbx" hidden_now p = (p1, Ok m1)
    /\ obj_get "models/a.fbx" (models (mm (state p1))) = Some m1
    /\ exists p2 m2,
         loadModel RevTimed env_ok "models/a.fbx" hidden_now p1 = (p2, Ok m2)
         /\ net_log p2
            = net_log p1 ++ [Head "models/a.fbx"; Decode "models/a.fbx"]
         /\ oid (object m2) <> oid (object m1)
         /\ obj_get "models/a.fbx" (models (mm (state p2))) = Some m2.
Proof.
  intros p p1.
  assert (H : exists m1, loadModel RevTimed env_ok "models/a.fbx" hidden_now p
                         = (p1, Ok m1)).
  { eexists. vm_compute. reflexivity. }
  destruct H as [m1 H]. exists m1. split; [exact H|].
  exact (loadModel_reloads RevTimed env_ok "models/a.fbx" hidden_now p p1 m1 H).
Defined.

(** The same two loads, evaluated: two requests and two decodings, and
    the object and the mixer of the first load (0 and 1) replaced in the
    registry by those of the second (2 and 3). *)
Lemma second_load_replaces_handle :
  let p := initTestScene (initial_page true) in
  let p1 := fst (loadModel RevTimed env_ok "models/a.fbx" hidden_now p) in
  let p2 := fst (loadModel RevTimed env_ok "models/a.fbx" hidden_now p1) in
  net_log p1 = [Head "models/a.fbx"; Decode "models/a.fbx"]
  /\ option_map (fun m => oid (object m))
       (obj_get "models/a.fbx" (models (mm (state p1)))) = Some 0
  /\ net_log p2 = [Head "models/a.fbx"; Decode "models/a.fbx";
                   Head "models/a.fbx"; Decode "models/a.fbx"]
  /\ option_map (fun m => oid (object m))
       (obj_get "models/a.fbx" (models (mm (state p2)))) = Some 2
  /\ mixers (mm (state p1)) !! "models/a.fbx" = Some 1
  /\ mixers (mm (state p2)) !! "models/a.fbx" = Some 3.
Proof. vm_compute. by repeat split. Qed.

(** C6 on [cfgs_slow] in test mode: the stop button clears the registry
    at 1000, before the reveal due at 20000; the timer is still there, and
    when it fires the exception reaches the page's error handler; the
    scene keeps the nodes of the cleared model. *)
Lemma cleared_registry_reveal_throws :
  let s := clearModels (at_time 1000 (state (test_page env_ok cfgs_slow))) in
  models (mm s) = []
  /\ map (fun t => (due t, cb t)) (timers (host s))
     = [(20000%N, CbShowModel "models/a.fbx"); (20500%N, CbSpotlight 0)]
  /\ option_map (fun s' => uncaught (host s')) (fire_next RevTimed s)
     = Some [TypeError "this.models[path] is undefined"]
  /\ scene (with_state clearModels (test_page env_ok cfgs_slow))
     = Some [NodeModel 0; NodeSpotlight 0].
Proof. vm_compute. by repeat split. Qed.


Lemma tracked_page_tie :
  initializeAR RevTracked env_ok cfgs_tie (initial_page false)
  = (tracked_page cfgs_tie, Ok tt).
Proof. vm_compute. reflexivity. Qed.



(** C9 on the entry B of [cfgs_abc] in test mode, right after the load. *)
Lemma show_hide_idempotent_witness :
  let s := state (test_page env_ok cfgs_abc) in
  is_Some (obj_get "models/b.fbx" (models (mm s)))
  /\ hideModel "models/b.fbx" (hideModel "models/b.fbx" s)
     = hideModel "models/b.fbx" s
  /\ showModel RevTimed "models/b.fbx" 0 s
     = fst (setTimeout (CbShowModel "models/b.fbx") 0 s).
Proof.
  intros s.
  assert (H : exists m, obj_get "models/b.fbx" (models (mm s)) = Some m).
  { eexists. vm_compute. reflexivity. }
  destruct H as [m H]. split; [by exists m|].
  destruct (show_hide_idempotent s "models/b.fbx" m 0 H)
    as (Hshow & _ & (_ & _ & Hhide) & _).
  split; [exact Hhide|exact Hshow].
Defined.

(** C10 on the running sequence of [cfgs_abc]. *)
Lemma start_while_running_is_noop_witness :
  animationSequenceStarted tracked_midway = true
  /\ startAnimationSequence tracked_midway = tracked_midway.
Proof.
  assert (H : animationSequenceStarted tracked_midway = true)
    by (vm_compute; reflexivity).
  split; [exact H|].
  exact (proj1 (start_while_running_is_noop tracked_midway) H).
Defined.

(* ===================================================================== *)
(** * Further properties of the loaders, the reset cycle and the sequence *)
(* ===================================================================== *)

(** ** One load *)

Lemma install_effect rev path mo asset s s' m :
  install rev path mo asset s = (s', m) ->
  let armed_now := (0 <? delay mo)%N && negb (visible mo) && negb (ar_gate rev s) in
  timers (host s')
  = timers (host s)
    ++ (if armed_now
        then [{| tid := next_tid (host s); due := (now (host s) + delay mo)%N;
                 period := None; cb := CbShowModel path |}]
        else [])
  /\ now (host s') = now (host s)
  /\ next_tid (host s')
     = (if armed_now then S (next_tid (host s)) else next_tid (host s))
  /\ uncaught (host s') = uncaught (host s)
  /\ testMode s' = testMode s /\ mindarThree s' = mindarThree s
  /\ spotlights s' = spotlights s /\ timeoutIds s' = timeoutIds s
  /\ animationSequenceStarted s' = animationSequenceStarted s
  /\ resetPatched s' = resetPatched s
  /\ cycleTimer (mm s') = cycleTimer (mm s)
  /\ models (mm s') = obj_set path m (models (mm s))
  /\ options m = mo
  /\ obj_visible (object m) = visible mo
  /\ oid (object m) = next_ref (host s).
Proof.
  unfold install. simpl.
  destruct (asset_animations asset) as [|c cs]; simpl;
    destruct ((0 <? delay mo)%N && negb (visible mo)) eqn:E; simpl;
    intros [= <- <-]; simpl; unfold showModel; simpl;
    rewrite ?obj_get_set_eq; unfold ar_gate; simpl;
    destruct rev; simpl; try destruct (negb (testMode s) && mindarThree s);
    simpl; rewrite ?app_nil_r; done.
Qed.

Lemma requests_loads env path :
  loads env path = true -> requests env path = [Head path; Decode path].
Proof.
  unfold loads, requests. intros H.
  apply andb_prop in H as [H _]. by rewrite H.
Qed.

(** Every outcome of [loadModel]: what was asked of the network, and the
    state when the load fails. *)
Lemma loadModel_outcome rev env path opts p :
  net_log (fst (loadModel rev env path opts p)) = net_log p ++ requests env path
  /\ scene (fst (loadModel rev env path opts p)) = scene p
  /\ anchor (fst (loadModel rev env path opts p)) = anchor p
  /\ (loads env path = false ->
      state (fst (loadModel rev env path opts p)) = state p
      /\ snd (loadModel rev env path opts p)
         = Throw (if negb (head_ok env path) then CannotAccessModel path
                  else if supported path then LoaderFailed path
                  else UnsupportedFormat path))
  /\ (loads env path = true ->
      exists asset,
        decode env path = Some asset
        /\ loadModel rev env path opts p
           = (with_state (fun _ =>
                  fst (install rev path (mergeOptions path opts) asset (state p)))
                (log_net (Decode path) (log_net (Head path) p)),
              Ok (snd (install rev path (mergeOptions path opts) asset (state p))))).
Proof.
  unfold loadModel, requests, loads.
  destruct (head_ok env path); simpl; [|by repeat split].
  destruct (supported path); simpl; [|by repeat split].
  destruct (decode env path) as [asset|] eqn:Hd; simpl.
  - destruct (install _ _ _ _ _) as [s' m] eqn:Hi. simpl.
    rewrite <- app_assoc. repeat split; try done.
    intros _. exists asset. by rewrite Hi.
  - rewrite <- app_assoc. by repeat split.
Qed.

(** The three ways through the body of the loop of [loadTestModels]. *)
Lemma loadTestModel_cases rev env c p ch :
  scene p = Some ch ->
  (cfg_enabled c = false /\ loadTestModel rev env c p = (p, Ok tt))
  \/ (cfg_enabled c = true /\ loads env (cfg_path c) = false
      /\ loadTestModel rev env c p
         = ({| state := state p;
               scene := Some (ch ++ [NodeErrorPlane ("Failed to load " +:+ cfg_path c)]);
               anchor := anchor p;
               net_log := net_log p ++ requests env (cfg_path c) |}, Ok tt))
  \/ (cfg_enabled c = true /\ loads env (cfg_path c) = true
      /\ exists asset s' m,
           install rev (cfg_path c)
             (mergeOptions (cfg_path c) (entry_options (cfg_visible c) c))
             asset (state p) = (s', m)
           /\ loadTestModel rev env c p
              = ({| state :=
                      if includes (cfg_path c) "dis-ball" then s'
                      else with_spotlights (fun l => l ++
                             [createSpotlightCylinder (cfg_delay c + 500)
                                (cfg_path c)]) s';
                    scene :=
                      Some (ch ++ NodeModel (oid (object m))
                               :: (if includes (cfg_path c) "dis-ball" then []
                                   else [NodeSpotlight (length (spotlights s'))]));
                    anchor := anchor p;
                    net_log := net_log p ++ requests env (cfg_path c) |}, Ok tt)).
Proof.
  intros Hs. unfold loadTestModel.
  destruct (cfg_enabled c); simpl; [|by left]. right.
  destruct (loadModel_outcome rev env (cfg_path c)
              (entry_options (cfg_visible c) c) p) as (Hn & Hsc & Ha & Hf & Hok).
  destruct (loads env (cfg_path c)) eqn:Hl.
  - right. repeat split; try done.
    destruct (Hok eq_refl) as (asset & Hd & Hload).
    destruct (install _ _ _ _ _) as [s' m] eqn:Hi.
    exists asset, s', m. split; [done|].
    rewrite Hload. simpl. rewrite Hs, (requests_loads _ _ Hl).
    destruct (includes (cfg_path c) "dis-ball"); simpl;
      unfold with_scene, with_state, log_net; simpl;
      rewrite <- ?app_assoc; done.
  - left. repeat split; try done.
    destruct (Hf eq_refl) as [Hst Hth].
    destruct (loadModel _ _ _ _ _) as [p1 r]. simpl in *. subst r.
    unfold displayErrorMessage. rewrite Hsc, Hs. unfold with_scene. simpl.
    by rewrite Hst, Ha, Hn.
Qed.

(** ** The loop of [loadTestModels] *)

Lemma same_frame_refl s : same_frame s s.
Proof. by repeat split. Qed.

Lemma same_frame_trans s1 s2 s3 :
  same_frame s1 s2 -> same_frame s2 s3 -> same_frame s1 s3.
Proof.
  unfold same_frame. intros (A1 & A2 & A3 & A4 & A5 & A6 & A7 & A8)
    (B1 & B2 & B3 & B4 & B5 & B6 & B7 & B8).
  repeat split; congruence.
Qed.

Lemma same_frame_gate rev s s' : same_frame s s' -> ar_gate rev s' = ar_gate rev s.
Proof.
  intros (_ & _ & Ht & Hm & _). unfold ar_gate. by rewrite Ht, Hm.
Qed.

Lemma entry_view_obj_set k m ms :
  map entry_view (obj_set k m ms)
  = obj_set k (options m, obj_visible (object m)) (map entry_view ms).
Proof.
  induction ms as [|[k' m'] r IH]; simpl; [done|].
  destruct (String.eqb k k'); simpl; [done|]. by rewrite IH.
Qed.

Lemma for_each_test rev env cfgs : forall p ch,
  scene p = Some ch ->
  exists q nodes,
    for_each_config (loadTestModel rev env) cfgs p = (q, Ok tt)
    /\ scene q = Some (ch ++ nodes)
    /\ map anonymous nodes = test_nodes env (length (spotlights (state p))) cfgs
    /\ anchor q = anchor p
    /\ net_log q
       = net_log p ++ flat_map (fun c => requests env (cfg_path c))
                        (List.filter cfg_enabled cfgs)
    /\ spotlights (state q)
       = spotlights (state p)
         ++ map (fun c => createSpotlightCylinder (cfg_delay c + 500) (cfg_path c))
              (List.filter (spotlit env) cfgs)
    /\ map timer_view (timers (host (state q)))
       = map timer_view (timers (host (state p)))
         ++ (if ar_gate rev (state p) then []
             else map (fun c => ((now (host (state p)) + cfg_delay c)%N, None,
                                 CbShowModel (cfg_path c)))
                    (List.filter (timed env) cfgs))
    /\ same_frame (state p) (state q)
    /\ map entry_view (models (mm (state q)))
       = assign_all test_entry (List.filter (loadable env) cfgs)
           (map entry_view (models (mm (state p)))).
Proof.
  induction cfgs as [|c r IH]; intros p ch Hs.
  - exists p, []. simpl. rewrite !app_nil_r.
    destruct (ar_gate rev (state p)); rewrite ?app_nil_r.
    all: repeat (split; [done|]); apply same_frame_refl || done.
  - destruct (loadTestModel_cases rev env c p ch Hs)
      as [[He Hc]|[(He & Hl & Hc)|(He & Hl & asset & s' & m & Hi & Hc)]].
    + assert (P1 : loadable env c = false) by (unfold loadable; by rewrite He).
      assert (P2 : spotlit env c = false) by (unfold spotlit; by rewrite P1).
      assert (P3 : timed env c = false) by (unfold timed; by rewrite P1).
      destruct (IH p ch Hs) as (q & nodes & Hq & H1 & H2 & H3 & H4 & H5 & H6 & H7 & H8).
      exists q, nodes. simpl. rewrite Hc, He, P1, P2, P3. simpl.
      by repeat (split; [done|]).
    + assert (P1 : loadable env c = false) by (unfold loadable; by rewrite He, Hl).
      assert (P2 : spotlit env c = false) by (unfold spotlit; by rewrite P1).
      assert (P3 : timed env c = false) by (unfold timed; by rewrite P1).
      set (p1 := {| state := state p;
                    scene := Some (ch ++ [NodeErrorPlane ("Failed to load " +:+ cfg_path c)]);
                    anchor := anchor p;
                    net_log := net_log p ++ requests env (cfg_path c) |}) in *.
      destruct (IH p1 _ eq_refl)
        as (q & nodes & Hq & H1 & H2 & H3 & H4 & H5 & H6 & H7 & H8).
      exists q, (NodeErrorPlane ("Failed to load " +:+ cfg_path c) :: nodes).
      simpl. rewrite Hc, He, Hl, P1, P2, P3. simpl.
      rewrite H1, H2, H4. simpl. rewrite <- !app_assoc.
      by repeat (split; [done|]).
    + assert (P1 : loadable env c = true) by (unfold loadable; by rewrite He, Hl).
      assert (P2 : spotlit env c = negb (includes (cfg_path c) "dis-ball"))
        by (unfold spotlit; by rewrite P1).
      assert (P3 : timed env c = (0 <? cfg_delay c)%N && negb (cfg_visible c))
        by (unfold timed; by rewrite P1).
      destruct (install_effect _ _ _ _ _ _ _ Hi)
        as (I1 & I2 & I3 & I4 & I5 & I6 & I7 & I8 & I9 & I10 & I11 & I12 & I13 & I14 & I15).
      simpl in I1, I3, I14.
      match type of Hc with _ = (?x, _) => set (p1 := x) in * end.
      assert (Hf1 : same_frame (state p) (state p1)).
      { subst p1. simpl. by destruct (includes _ _); repeat split. }
      assert (Ht : timers (host (state p1)) = timers (host s')).
      { subst p1. simpl. by destruct (includes _ _). }
      assert (Hm : models (mm (state p1)) = models (mm s')).
      { subst p1. simpl. by destruct (includes _ _). }
      destruct (IH p1 _ eq_refl)
        as (q & nodes & Hq & H1 & H2 & H3 & H4 & H5 & H6 & H7 & H8).
      rewrite (same_frame_gate rev _ _ Hf1) in H6.
      exists q.
      eexists (NodeModel (oid (object m))
                 :: (if includes (cfg_path c) "dis-ball" then []
                     else [NodeSpotlight (length (spotlights s'))]) ++ nodes).
      simpl. rewrite Hc, He, Hl, P1, P2, P3. simpl.
      split; [done|]. split.
      { rewrite H1. f_equal. by rewrite <- app_assoc. }
      split.
      { rewrite map_app, H2. subst p1. simpl.
        destruct (includes (cfg_path c) "dis-ball"); simpl; [by rewrite I7|].
        rewrite I7, length_app. simpl. by rewrite Nat.add_1_r. }
      split; [done|]. split.
      { rewrite H4. subst p1. simpl. rewrite <- app_assoc.
        by rewrite (requests_loads _ _ Hl). }
      split.
      { rewrite H5. subst p1. simpl.
        destruct (includes (cfg_path c) "dis-ball"); simpl;
          rewrite I7, <- ?app_assoc; done. }
      split.
      { destruct Hf1 as (Hnow & _).
        rewrite H6, Hnow, Ht, I1, map_app, <- app_assoc. f_equal.
        destruct (ar_gate rev (state p)); simpl;
          rewrite ?andb_false_r, ?andb_true_r; simpl; [done|].
        by destruct ((0 <? cfg_delay c)%N && negb (cfg_visible c)). }
      split; [by eapply same_frame_trans|].
      rewrite H8, Hm, I12, entry_view_obj_set, I13, I14. unfold test_entry.
      reflexivity.
Qed.

(** ** What follows the loop *)

Lemma armed_spots_view mk t0 l : forall id i,
  map timer_view (armed_spots mk t0 id i l) = spot_timers mk t0 i l.
Proof. induction l as [|sp r IH]; intros id i; simpl; [done|]. by rewrite IH. Qed.

Lemma armed_spots_tids mk t0 l : forall id i,
  map tid (armed_spots mk t0 id i l) = seq id (length l).
Proof. induction l as [|sp r IH]; intros id i; simpl; [done|]. by rewrite IH. Qed.

Lemma schedule_spotlights_effect mk track l : forall i s,
  let s' := schedule_spotlights mk track i l s in
  timers (host s')
  = timers (host s) ++ armed_spots mk (now (host s)) (next_tid (host s)) i l
  /\ next_tid (host s') = next_tid (host s) + length l
  /\ now (host s') = now (host s)
  /\ uncaught (host s') = uncaught (host s)
  /\ next_ref (host s') = next_ref (host s)
  /\ mm s' = mm s
  /\ spotlights s' = spotlights s
  /\ testMode s' = testMode s /\ mindarThree s' = mindarThree s
  /\ animationSequenceStarted s' = animationSequenceStarted s
  /\ resetPatched s' = resetPatched s
  /\ timeoutIds s'
     = timeoutIds s ++ (if track then seq (next_tid (host s)) (length l) else []).
Proof.
  induction l as [|sp r IH]; intros i s; simpl.
  - rewrite !app_nil_r, Nat.add_0_r. by destruct track; rewrite ?app_nil_r.
  - destruct (IH (S i)
        (if track
         then with_timeoutIds (timeoutIds (fst (setTimeout (mk i) (spot_delay sp) s))
                               ++ [snd (setTimeout (mk i) (spot_delay sp) s)])
                (fst (setTimeout (mk i) (spot_delay sp) s))
         else fst (setTimeout (mk i) (spot_delay sp) s)))
      as (H1 & H2 & H3 & H4 & H5 & H6 & H7 & H8 & H9 & H10 & H11 & H12).
    unfold setTimeout, arm in *. simpl in *.
    destruct track; simpl in *;
      rewrite H1, H2, H3, H4, H5, H6, H7, H8, H9, H10, H11, H12;
      rewrite <- ?app_assoc; simpl; repeat split; try done; lia.
Qed.

Lemma startResetCycle_effect s :
  let s' := startResetCycle s in
  timers (host s')
  = match cycleTimer (mm s) with
    | Some id => cancel id (timers (host s))
    | None => timers (host s)
    end ++ [cycle_timer (next_tid (host s)) (now (host s))]
  /\ next_tid (host s') = S (next_tid (host s))
  /\ cycleTimer (mm s') = Some (next_tid (host s))
  /\ now (host s') = now (host s)
  /\ uncaught (host s') = uncaught (host s)
  /\ next_ref (host s') = next_ref (host s)
  /\ models (mm s') = models (mm s)
  /\ mixers (mm s') = mixers (mm s)
  /\ actions (mm s') = actions (mm s)
  /\ spotlights s' = spotlights s
  /\ testMode s' = testMode s /\ mindarThree s' = mindarThree s
  /\ animationSequenceStarted s' = animationSequenceStarted s
  /\ resetPatched s' = resetPatched s
  /\ timeoutIds s' = timeoutIds s.
Proof.
  unfold startResetCycle, setInterval, arm, clearInterval, clearTimeout, cycle_timer.
  by destruct (cycleTimer (mm s)); simpl; repeat split.
Qed.

Lemma assign_all_fresh {V : Type} (f : Config -> V) l : forall o,
  List.NoDup (obj_keys o ++ map cfg_path l) ->
  assign_all f l o = o ++ map (fun c => (cfg_path c, f c)) l.
Proof.
  induction l as [|c r IH]; intros o Hnd; simpl.
  - by rewrite app_nil_r.
  - unfold assign_all in *. simpl.
    assert (Hnew : obj_get (cfg_path c) o = None).
    { apply obj_get_None_keys. intros Hin.
      apply List.NoDup_remove_2 in Hnd. apply Hnd.
      apply in_or_app. by left. }
    rewrite (obj_set_new _ _ _ Hnew), IH.
    + by rewrite <- app_assoc.
    + unfold obj_keys in *. rewrite map_app. simpl.
      rewrite <- app_assoc. exact Hnd.
Qed.

(** [loadTestModels] on a page that has a scene and no reset cycle yet. *)
Lemma loadTestModels_effect rev env cfgs p ch :
  scene p = Some ch ->
  cycleTimer (mm (state p)) = None ->
  let q := loadTestModels rev env cfgs p in
  let t0 := now (host (state p)) in
  (exists nodes,
     scene q = Some (ch ++ nodes) /\ map anonymous nodes = test_nodes env 0 cfgs)
  /\ anchor q = anchor p
  /\ net_log q
     = net_log p ++ flat_map (fun c => requests env (cfg_path c))
                      (List.filter cfg_enabled cfgs)
  /\ spotlights (state q)
     = map (fun c => createSpotlightCylinder (cfg_delay c + 500) (cfg_path c))
         (List.filter (spotlit env) cfgs)
  /\ map timer_view (timers (host (state q)))
     = map timer_view (timers (host (state p)))
       ++ (if ar_gate rev (state p) then []
           else map (fun c => ((t0 + cfg_delay c)%N, None, CbShowModel (cfg_path c)))
                  (List.filter (timed env) cfgs))
       ++ spot_timers CbSpotlight t0 0 (spotlights (state q))
       ++ [((t0 + cycleInterval)%N, Some cycleInterval, CbResetCycle)]
  /\ now (host (state q)) = t0
  /\ resetPatched (state q) = true
  /\ is_Some (cycleTimer (mm (state q)))
  /\ testMode (state q) = testMode (state p)
  /\ mindarThree (state q) = mindarThree (state p)
  /\ map entry_view (models (mm (state q)))
     = assign_all test_entry (List.filter (loadable env) cfgs)
         (map entry_view (models (mm (state p)))).
Proof.
  intros Hs Hc. unfold loadTestModels.
  set (p0 := with_state (with_spotlights (fun _ => [])) p).
  destruct (for_each_test rev env cfgs p0 ch Hs)
    as (q1 & nodes & Hq & H1 & H2 & H3 & H4 & H5 & H6 & H7 & H8).
  rewrite Hq. simpl in H2, H5.
  destruct H7 as (F1 & F2 & F3 & F4 & F5 & F6 & F7 & F8).
  change (state p0) with (with_spotlights (fun _ => []) (state p)) in *.
  simpl in F1, F2, F3, F4, F5, F6, F7, F8, H6, H8.
  rewrite state_with_state. unfold afterTestLoad.
  set (s1 := state q1) in *.
  destruct (schedule_spotlights_effect CbSpotlight false (spotlights s1) 0 s1)
    as (S1 & S2 & S3 & S4 & S5 & S6 & S7 & S8 & S9 & S10 & S11 & S12).
  set (s2 := schedule_spotlights CbSpotlight false 0 (spotlights s1) s1) in *.
  destruct (startResetCycle_effect s2)
    as (C1 & C2 & C3 & C4 & C5 & C6 & C7 & C8 & C9 & C10 & C11 & C12 & C13 & C14 & C15).
  set (s3 := startResetCycle s2) in *.
  assert (Hc2 : cycleTimer (mm s2) = None) by (by rewrite S6, F8).
  rewrite Hc2 in C1.
  split; [by exists nodes|]. split; [done|]. split; [done|].
  unfold with_patched.
  cbn [spotlights host mm testMode mindarThree resetPatched].
  split; [by rewrite C10, S7|].
  split.
  { rewrite C1, S1, !map_app, armed_spots_view, H6, C10, S7, ?S3, ?F1.
    unfold timer_view at 3, cycle_timer. simpl. rewrite ?S3, ?F1.
    by rewrite <- !app_assoc. }
  split; [by rewrite C4, S3|]. split; [done|].
  split; [by rewrite C3|].
  split; [by rewrite C11, S8|]. split; [by rewrite C12, S9|].
  by rewrite C7, S6.
Qed.

(** X1. [loadTestModels] asks the network for every enabled entry, in
    list order: a HEAD request, and the download only when the HEAD
    request succeeds and the extension is a supported one.  A disabled
    entry is never asked for. *)
Theorem test_load_requests (rev : Revision) (env : Env) (cfgs : list Config)
    (p : Page) (ch : list Node)
    (Hscene : scene p = Some ch) :
  net_log (loadTestModels rev env cfgs p)
  = net_log p
    ++ flat_map (fun c =>
         if head_ok env (cfg_path c) && supported (cfg_path c)
         then [Head (cfg_path c); Decode (cfg_path c)]
         else [Head (cfg_path c)])
       (List.filter cfg_enabled cfgs).
Proof.
  unfold loadTestModels.
  destruct (for_each_test rev env cfgs
              (with_state (with_spotlights (fun _ => [])) p) ch Hscene)
    as (q1 & nodes & Hq & _ & _ & _ & H4 & _).
  rewrite Hq. exact H4.
Qed.

(** X2. [loadTestModels] of the revision with the reset cycle adds to
    the scene, for each enabled entry in list order, the model followed
    by its spotlight, the model alone when the path contains "dis-ball",
    or an error plane with the path when the load fails; the spotlights
    are created invisible, with the entry's delay plus 500. *)
Theorem test_load_scene (env : Env) (cfgs : list Config)
    (p : Page) (ch : list Node)
    (Hscene : scene p = Some ch) :
  (exists nodes,
     scene (loadTestModels RevTimed env cfgs p) = Some (ch ++ nodes)
     /\ map anonymous nodes = test_nodes env 0 cfgs)
  /\ spotlights (state (loadTestModels RevTimed env cfgs p))
     = map (fun c => {| spot_visible := false;
                        spot_delay := (cfg_delay c + 500)%N;
                        spot_modelPath := cfg_path c |})
         (List.filter (fun c => cfg_enabled c && loads env (cfg_path c)
                                && negb (includes (cfg_path c) "dis-ball")) cfgs).
Proof.
  unfold loadTestModels.
  destruct (for_each_test RevTimed env cfgs
              (with_state (with_spotlights (fun _ => [])) p) ch Hscene)
    as (q1 & nodes & Hq & H1 & H2 & _ & _ & H5 & _).
  rewrite Hq. split.
  - exists nodes. by split.
  - rewrite state_with_state. unfold afterTestLoad, with_patched.
    cbn [spotlights].
    destruct (startResetCycle_effect
                (schedule_spotlights CbSpotlight false 0
                   (spotlights (state q1)) (state q1)))
      as (_ & _ & _ & _ & _ & _ & _ & _ & _ & C10 & _).
    destruct (schedule_spotlights_effect CbSpotlight false
                (spotlights (state q1)) 0 (state q1))
      as (_ & _ & _ & _ & _ & _ & S7 & _).
    rewrite C10, S7. exact H5.
Qed.


(** X4. The registry after [loadTestModels]: each loaded entry was
    assigned to its path in list order, so a path keeps the place of its
    first load and the options of its last.  When the loaded paths are
    pairwise distinct and the registry was empty, the registry lists the
    loaded entries in order, each with the options of its configuration
    and the visibility the configuration asks for. *)
Theorem test_load_registry (rev : Revision) (env : Env) (cfgs : list Config)
    (p : Page) (ch : list Node)
    (Hscene : scene p = Some ch) :
  let q := loadTestModels rev env cfgs p in
  map entry_view (models (mm (state q)))
  = assign_all test_entry (List.filter (loadable env) cfgs)
      (map entry_view (models (mm (state p))))
  /\ (models (mm (state p)) = [] ->
      List.NoDup (map cfg_path (List.filter (loadable env) cfgs)) ->
      map entry_view (models (mm (state q)))
      = map (fun c => (cfg_path c, test_entry c))
          (List.filter (loadable env) cfgs)).
Proof.
  assert (H : map entry_view (models (mm (state (loadTestModels rev env cfgs p))))
              = assign_all test_entry (List.filter (loadable env) cfgs)
                  (map entry_view (models (mm (state p))))).
  { unfold loadTestModels.
    destruct (for_each_test rev env cfgs
                (with_state (with_spotlights (fun _ => [])) p) ch Hscene)
      as (q1 & nodes & Hq & _ & _ & _ & _ & _ & _ & _ & H8).
    rewrite Hq, state_with_state, models_afterTestLoad. exact H8. }
  split; [exact H|]. intros Hm Hnd. simpl. rewrite H, Hm. simpl.
  by rewrite assign_all_fresh.
Qed.

(** X1 on [cfgs_mixed]: the missing file and the text file get a HEAD
    request only, the disabled entry nothing. *)
Lemma test_load_requests_witness :
  scene (initTestScene (initial_page true)) = Some []
  /\ net_log (test_page env_missing cfgs_mixed)
     = [Head "models/a.fbx"; Decode "models/a.fbx";
        Head "models/missing.fbx"; Head "models/notes.txt";
        Head "models/dis-ball.fbx"; Decode "models/dis-ball.fbx";
        Head "models/v.glb"; Decode "models/v.glb"].
Proof.
  split; [reflexivity|].
  pose proof (test_load_requests RevTimed env_missing cfgs_mixed
                (initTestScene (initial_page true)) [] eq_refl) as H.
  vm_compute in H. vm_compute. exact H.
Defined.

(** X2 on [cfgs_mixed]. *)
Lemma test_load_scene_witness :
  scene (initTestScene (initial_page true)) = Some []
  /\ (exists nodes,
        scene (test_page env_missing cfgs_mixed) = Some ([] ++ nodes)
        /\ map anonymous nodes
           = [NodeModel 0; NodeSpotlight 0;
              NodeErrorPlane "Failed to load models/missing.fbx";
              NodeErrorPlane "Failed to load models/notes.txt";
              NodeModel 0; NodeModel 0; NodeSpotlight 1])
  /\ spotlights (state (test_page env_missing cfgs_mixed))
     = [{| spot_visible := false; spot_delay := 1500;
           spot_modelPath := "models/a.fbx" |};
        {| spot_visible := false; spot_delay := 500;
           spot_modelPath := "models/v.glb" |}].
Proof.
  split; [reflexivity|].
  pose proof (test_load_scene env_missing cfgs_mixed
                (initTestScene (initial_page true)) [] eq_refl) as H.
  vm_compute in H. vm_compute. exact H.
Defined.


(** X4 on the shipped configuration. *)
Lemma test_load_registry_witness :
  scene (initTestScene (initial_page true)) = Some []
  /\ models (mm (state (initTestScene (initial_page true)))) = []
  /\ List.NoDup (map cfg_path (List.filter (loadable env_ok) getModelConfigs))
  /\ map entry_view (models (mm (state (test_page env_ok getModelConfigs))))
     = map (fun c => (cfg_path c, test_entry c)) getModelConfigs.
Proof.
  assert (Hnd : List.NoDup
                  (map cfg_path (List.filter (loadable env_ok) getModelConfigs))).
  { apply NoDup_by_computation. vm_compute. reflexivity. }
  split; [reflexivity|]. split; [reflexivity|]. split; [exact Hnd|].
  pose proof (proj2 (test_load_registry RevTimed env_ok getModelConfigs
                       (initTestScene (initial_page true)) [] eq_refl)
                eq_refl Hnd) as H.
  vm_compute in H. vm_compute. exact H.
Defined.

(** X5. A load that fails changes nothing but the list of requests: the
    manager, the timers, the scene and the anchor are as before.  The
    error is "cannot access" when the HEAD request fails, whatever the
    extension; "unsupported format" when the request succeeds and the
    extension is none of .fbx, .glb and .gltf, so the format is looked at
    only after the request; and the loader's failure otherwise. *)
Theorem failed_load_changes_nothing (rev : Revision) (env : Env)
    (path : string) (opts : Options) (p : Page)
    (Hfails : loads env path = false) :
  exists p1,
    loadModel rev env path opts p
    = (p1, Throw (if negb (head_ok env path) then CannotAccessModel path
                  else if supported path then LoaderFailed path
                  else UnsupportedFormat path))
    /\ state p1 = state p /\ scene p1 = scene p /\ anchor p1 = anchor p
    /\ net_log p1
       = net_log p ++ (if head_ok env path && supported path
                       then [Head path; Decode path] else [Head path]).
Proof.
  destruct (loadModel_outcome rev env path opts p) as (Hn & Hs & Ha & Hf & _).
  destruct (Hf Hfails) as [Hst Hth].
  destruct (loadModel rev env path opts p) as [p1 r]. simpl in *.
  exists p1. subst r. by repeat split.
Qed.

(** X5 on a text file that is there: the request is made, then the
    format is refused. *)
Lemma failed_load_changes_nothing_witness :
  loads env_ok "models/notes.txt" = false
  /\ exists p1,
       loadModel RevTimed env_ok "models/notes.txt" hidden_now
         (test_page env_ok cfgs_abc)
       = (p1, Throw (UnsupportedFormat "models/notes.txt"))
       /\ state p1 = state (test_page env_ok cfgs_abc)
       /\ scene p1 = scene (test_page env_ok cfgs_abc)
       /\ anchor p1 = anchor (test_page env_ok cfgs_abc)
       /\ net_log p1
          = net_log (test_page env_ok cfgs_abc) ++ [Head "models/notes.txt"].
Proof.
  split; [reflexivity|].
  exact (failed_load_changes_nothing RevTimed env_ok "models/notes.txt"
           hidden_now (test_page env_ok cfgs_abc) eq_refl).
Defined.

(** ** The loop of [initializeAR] *)

Lemma loadTrackedModel_cases env c p :
  (cfg_enabled c = false /\ loadTrackedModel RevTracked env c p = (p, Ok tt))
  \/ (cfg_enabled c = true /\ loads env (cfg_path c) = false
      /\ loadTrackedModel RevTracked env c p
         = displayErrorMessage ("Failed to load " +:+ cfg_path c)
             {| state := state p; scene := scene p; anchor := anchor p;
                net_log := net_log p ++ requests env (cfg_path c) |})
  \/ (cfg_enabled c = true /\ loads env (cfg_path c) = true
      /\ exists asset s' m,
           install RevTracked (cfg_path c)
             (mergeOptions (cfg_path c) (entry_options false c))
             asset (state p) = (s', m)
           /\ loadTrackedModel RevTracked env c p
              = ({| state :=
                      if includes (cfg_path c) "dis-ball" then s'
                      else with_spotlights (fun l => l ++
                             [createSpotlightCylinder (cfg_delay c) (cfg_path c)]) s';
                    scene := scene p;
                    anchor :=
                      anchor p ++ NodeModel (oid (object m))
                        :: (if includes (cfg_path c) "dis-ball" then []
                            else [NodeSpotlight (length (spotlights s'))]);
                    net_log := net_log p ++ requests env (cfg_path c) |}, Ok tt)).
Proof.
  unfold loadTrackedModel.
  destruct (cfg_enabled c); simpl; [|by left]. right.
  destruct (loadModel_outcome RevTracked env (cfg_path c)
              (entry_options false c) p) as (Hn & Hsc & Ha & Hf & Hok).
  destruct (loads env (cfg_path c)) eqn:Hl.
  - right. repeat split; try done.
    destruct (Hok eq_refl) as (asset & Hd & Hload).
    destruct (install _ _ _ _ _) as [s' m] eqn:Hi.
    exists asset, s', m. split; [done|].
    rewrite Hload. simpl. rewrite (requests_loads _ _ Hl).
    destruct (includes (cfg_path c) "dis-ball"); simpl;
      unfold with_anchor, with_state, log_net; simpl;
      rewrite <- ?app_assoc; done.
  - left. repeat split; try done.
    destruct (Hf eq_refl) as [Hst Hth].
    destruct (loadModel _ _ _ _ _) as [p1 r]. simpl in *. subst r.
    destruct p1 as [st sc an nl]. simpl in *. by subst.
Qed.

Lemma for_each_tracked_effect env cfgs : forall p,
  Forall (fun c => cfg_enabled c = true -> loads env (cfg_path c) = true) cfgs ->
  exists q nodes,
    for_each_config (loadTrackedModel RevTracked env) cfgs p = (q, Ok tt)
    /\ anchor q = anchor p ++ nodes
    /\ map anonymous nodes = test_nodes env (length (spotlights (state p))) cfgs
    /\ scene q = scene p
    /\ net_log q
       = net_log p ++ flat_map (fun c => requests env (cfg_path c))
                        (List.filter cfg_enabled cfgs)
    /\ spotlights (state q)
       = spotlights (state p)
         ++ map (fun c => createSpotlightCylinder (cfg_delay c) (cfg_path c))
              (List.filter (spotlit env) cfgs)
    /\ map timer_view (timers (host (state q)))
       = map timer_view (timers (host (state p)))
         ++ (if ar_gate RevTracked (state p) then []
             else map (fun c => ((now (host (state p)) + cfg_delay c)%N, None,
                                 CbShowModel (cfg_path c)))
                    (List.filter (fun c => loadable env c && (0 <? cfg_delay c)%N)
                       cfgs))
    /\ same_frame (state p) (state q)
    /\ map entry_view (models (mm (state q)))
       = assign_all tracked_entry (List.filter (loadable env) cfgs)
           (map entry_view (models (mm (state p))))
    /\ (ar_gate RevTracked (state p) = true ->
        timers (host (state q)) = timers (host (state p))
        /\ next_tid (host (state q)) = next_tid (host (state p))).
Proof.
  induction cfgs as [|c r IH]; intros p Hall.
  - exists p, []. cbn [for_each_config map test_nodes List.filter flat_map].
    rewrite !app_nil_r.
    destruct (ar_gate RevTracked (state p)); rewrite ?app_nil_r.
    all: repeat (split; [done|]); try (split; [apply same_frame_refl|]); done.
  - apply Forall_cons in Hall as [Hc0 Hall].
    destruct (loadTrackedModel_cases env c p)
      as [[He Hc]|[(He & Hl & Hc)|(He & Hl & asset & s' & m & Hi & Hc)]].
    + assert (P1 : loadable env c = false) by (unfold loadable; by rewrite He).
      assert (P2 : spotlit env c = false) by (unfold spotlit; by rewrite P1).
      destruct (IH p Hall) as (q & nodes & Hq & H1 & H2 & H3 & H4 & H5 & H6 & H7 & H8 & H9).
      exists q, nodes. simpl. rewrite Hc, He, P1, P2. simpl.
      by repeat (split; [done|]).
    + rewrite (Hc0 He) in Hl. done.
    + assert (P1 : loadable env c = true) by (unfold loadable; by rewrite He, Hl).
      assert (P2 : spotlit env c = negb (includes (cfg_path c) "dis-ball"))
        by (unfold spotlit; by rewrite P1).
      destruct (install_effect _ _ _ _ _ _ _ Hi)
        as (I1 & I2 & I3 & I4 & I5 & I6 & I7 & I8 & I9 & I10 & I11 & I12 & I13 & I14 & I15).
      simpl in I1, I3, I14.
      match type of Hc with _ = (?x, _) => set (p1 := x) in * end.
      assert (Hf1 : same_frame (state p) (state p1)).
      { subst p1. simpl. by destruct (includes _ _); repeat split. }
      assert (Ht : timers (host (state p1)) = timers (host s')).
      { subst p1. simpl. by destruct (includes _ _). }
      assert (Hm : models (mm (state p1)) = models (mm s')).
      { subst p1. simpl. by destruct (includes _ _). }
      destruct (IH p1 Hall)
        as (q & nodes & Hq & H1 & H2 & H3 & H4 & H5 & H6 & H7 & H8 & H9).
      rewrite (same_frame_gate RevTracked _ _ Hf1) in H6.
      exists q.
      eexists (NodeModel (oid (object m))
                 :: (if includes (cfg_path c) "dis-ball" then []
                     else [NodeSpotlight (length (spotlights s'))]) ++ nodes).
      simpl. rewrite Hc, He, Hl, P1, P2. simpl.
      split; [done|]. split.
      { rewrite H1. subst p1. simpl. by rewrite <- app_assoc. }
      split.
      { rewrite map_app, H2. subst p1. simpl.
        destruct (includes (cfg_path c) "dis-ball"); simpl; [by rewrite I7|].
        rewrite I7, length_app. simpl. by rewrite Nat.add_1_r. }
      split; [done|]. split.
      { rewrite H4. subst p1. simpl. rewrite <- app_assoc.
        by rewrite (requests_loads _ _ Hl). }
      split.
      { rewrite H5. subst p1. simpl.
        destruct (includes (cfg_path c) "dis-ball"); simpl;
          rewrite I7, <- ?app_assoc; done. }
      split.
      { destruct Hf1 as (Hnow & _).
        rewrite H6, Hnow, Ht, I1, map_app, <- app_assoc. f_equal.
        unfold ar_gate.
        destruct (negb (testMode (state p)) && mindarThree (state p)); simpl;
          rewrite ?andb_false_r, ?andb_true_r; simpl; [done|].
        by destruct (0 <? cfg_delay c)%N. }
      split; [by eapply same_frame_trans|].
      split.
      { rewrite H8, Hm, I12, entry_view_obj_set, I13, I14. unfold tracked_entry.
        reflexivity. }
      intros Hg.
      assert (Hg' : negb (testMode (state p)) && mindarThree (state p) = true)
        by exact Hg.
      destruct H9 as [H9a H9b];
        [by rewrite (same_frame_gate RevTracked _ _ Hf1)|].
      assert (Hn : next_tid (host (state p1)) = next_tid (host s')).
      { subst p1. simpl. by destruct (includes _ _). }
      rewrite Hg', !andb_false_r in I1, I3.
      rewrite H9a, H9b, Ht, Hn, I1, I3. by rewrite app_nil_r.
Qed.

Lemma assign_all_values {V : Type} (P : V -> Prop) (f : Config -> V) l : forall o,
  Forall (fun e => P (snd e)) o -> (forall c, P (f c)) ->
  Forall (fun e => P (snd e)) (assign_all f l o).
Proof.
  induction l as [|c r IH]; intros o Ho Hf; [done|].
  unfold assign_all in *. simpl. apply IH; [|done].
  clear IH. induction o as [|[k v] o IHo]; simpl.
  - constructor; [apply Hf|constructor].
  - apply Forall_cons in Ho as [Hv Ho].
    destruct (String.eqb (cfg_path c) k).
    + constructor; [apply Hf|done].
    + constructor; [done|]. by apply IHo.
Qed.

Lemma all_enabled_load env cfgs :
  Forall (fun c => cfg_enabled c = true -> loads env (cfg_path c) = true) cfgs ->
  List.filter (loadable env) cfgs = List.filter cfg_enabled cfgs
  /\ List.filter (spotlit env) cfgs
     = List.filter (fun c => cfg_enabled c
                             && negb (includes (cfg_path c) "dis-ball")) cfgs.
Proof.
  intros Hall. rewrite List.Forall_forall in Hall.
  split; apply List.filter_ext_in; intros c Hc;
    unfold spotlit, loadable; specialize (Hall c Hc);
    destruct (cfg_enabled c); simpl; [|done| |done]; by rewrite Hall.
Qed.

(** X6. [initializeAR] of the revision with the tracked sequence, in AR
    mode and with every enabled entry loading: the anchor group gets, per
    enabled entry in list order, the model and its spotlight (the model
    alone for a "dis-ball" path), the text boxes, which are not recorded
    as nodes, apart; each spotlight carries the delay of its entry; every
    entry is stored invisible, whatever its configuration says; no timer
    is armed, whatever the delays; and the sequence is not started. *)
Theorem ar_load_result (env : Env) (cfgs : list Config) (p : Page)
    (Hmode : testMode (state p) = false)
    (Hall : Forall (fun c => cfg_enabled c = true -> loads env (cfg_path c) = true)
              cfgs) :
  exists q,
    initializeAR RevTracked env cfgs p = (q, Ok tt)
    /\ map anonymous (anchor q) = test_nodes env 0 cfgs
    /\ scene q = scene p
    /\ spotlights (state q)
       = map (fun c => {| spot_visible := false; spot_delay := cfg_delay c;
                          spot_modelPath := cfg_path c |})
           (List.filter (fun c => cfg_enabled c
                                  && negb (includes (cfg_path c) "dis-ball")) cfgs)
    /\ timers (host (state q)) = timers (host (state p))
    /\ animationSequenceStarted (state q) = false
    /\ timeoutIds (state q) = []
    /\ map entry_view (models (mm (state q)))
       = assign_all tracked_entry (List.filter cfg_enabled cfgs)
           (map entry_view (models (mm (state p))))
    /\ (models (mm (state p)) = [] ->
        Forall (fun e => obj_visible (object (snd e)) = false)
          (models (mm (state q)))).
Proof.
  unfold initializeAR.
  set (p0 := with_anchor _ _).
  destruct (for_each_tracked_effect env cfgs p0 Hall)
    as (q & nodes & Hq & H1 & H2 & H3 & H4 & H5 & H6 & H7 & H8 & H9).
  destruct (all_enabled_load env cfgs Hall) as [E1 E2].
  assert (Hg : ar_gate RevTracked (state p0) = true).
  { subst p0. simpl. by rewrite Hmode. }
  destruct (H9 Hg) as [H9a _].
  destruct H7 as (_ & _ & _ & _ & F5 & F6 & _).
  exists q. rewrite E1 in H8. rewrite E2 in H5.
  split; [done|]. split; [by rewrite H1|]. split; [done|].
  split; [exact H5|]. split; [by rewrite H9a|].
  split; [by rewrite F6|]. split; [by rewrite F5|].
  split; [exact H8|].
  intros Hm.
  assert (Hv : Forall (fun e => snd (snd e) = false)
                 (map entry_view (models (mm (state q))))).
  { rewrite H8. subst p0. simpl. rewrite Hm. simpl.
    by apply (assign_all_values (fun v => snd v = false)). }
  rewrite List.Forall_forall in *. intros e He.
  apply (Hv (entry_view e)). by apply in_map.
Qed.

(** X6 on [cfgs_abc], whose last entry is configured with a delay of 500:
    nothing is armed. *)
Lemma ar_load_result_witness :
  testMode (state (initial_page false)) = false
  /\ Forall (fun c => cfg_enabled c = true -> loads env_ok (cfg_path c) = true)
       cfgs_abc
  /\ exists q,
       initializeAR RevTracked env_ok cfgs_abc (initial_page false) = (q, Ok tt)
       /\ timers (host (state q)) = []
       /\ map anonymous (anchor q)
          = [NodeModel 0; NodeSpotlight 0; NodeModel 0; NodeSpotlight 1;
             NodeModel 0; NodeSpotlight 2].
Proof.
  assert (Hall : Forall (fun c => cfg_enabled c = true ->
                                  loads env_ok (cfg_path c) = true) cfgs_abc).
  { repeat constructor. }
  split; [reflexivity|]. split; [exact Hall|].
  destruct (ar_load_result env_ok cfgs_abc (initial_page false) eq_refl Hall)
    as (q & Hq & Hn & _ & _ & Ht & _).
  exists q. split; [exact Hq|]. split; [exact Ht|]. exact Hn.
Defined.

(** X7. In AR mode the global [scene] is not set, so the first enabled
    entry that fails to load ends [initializeAR]: the error handler of the
    loop calls [displayErrorMessage], whose [scene.add] throws.  What the
    entries before it loaded stays in the manager; the entries after it
    are never asked for. *)
Theorem ar_load_aborts (env : Env) (l1 l2 : list Config) (z : Config) (p : Page)
    (Hscene : scene p = None)
    (Hbefore : Forall (fun c => cfg_enabled c = true -> loads env (cfg_path c) = true)
                 l1)
    (Henabled : cfg_enabled z = true)
    (Hfails : loads env (cfg_path z) = false) :
  exists q1,
    initializeAR RevTracked env l1 p = (q1, Ok tt)
    /\ initializeAR RevTracked env (l1 ++ z :: l2) p
       = ({| state := state q1; scene := None; anchor := anchor q1;
             net_log := net_log q1
                        ++ (if head_ok env (cfg_path z) && supported (cfg_path z)
                            then [Head (cfg_path z); Decode (cfg_path z)]
                            else [Head (cfg_path z)]) |},
          Throw (TypeError "scene is undefined")).
Proof.
  unfold initializeAR.
  set (p0 := with_anchor _ _).
  destruct (for_each_tracked_effect env l1 p0 Hbefore)
    as (q & nodes & Hq & H1 & H2 & H3 & _).
  exists q. split; [done|].
  rewrite for_each_app, Hq. simpl.
  destruct (loadTrackedModel_cases env z q)
    as [[He _]|[(_ & _ & Hc)|(_ & Hl & _)]]; [congruence| |congruence].
  rewrite Hc. unfold displayErrorMessage. simpl.
  rewrite H3. subst p0. simpl. by rewrite Hscene.
Qed.

(** X7 on [cfgs_missing]: the entry after the missing file is not
    loaded. *)
Lemma ar_load_aborts_witness :
  let a := entry "A" "models/a.fbx" 1000 false true in
  let z := entry "Z" "models/missing.fbx" 2000 false true in
  let b := entry "B" "models/b.fbx" 3000 false true in
  let q := fst (initializeAR RevTracked env_missing ([a] ++ z :: [b])
                  (initial_page false)) in
  snd (initializeAR RevTracked env_missing ([a] ++ z :: [b]) (initial_page false))
  = Throw (TypeError "scene is undefined")
  /\ obj_keys (models (mm (state q))) = ["models/a.fbx"]
  /\ net_log q = [Head "models/a.fbx"; Decode "models/a.fbx";
                  Head "models/missing.fbx"].
Proof.
  intros a z b q.
  assert (Hall : Forall (fun c => cfg_enabled c = true ->
                                  loads env_missing (cfg_path c) = true) [a]).
  { repeat constructor. }
  destruct (ar_load_aborts env_missing [a] [b] z (initial_page false)
              eq_refl Hall eq_refl eq_refl) as (q1 & H1 & H2).
  subst q. rewrite H2. simpl.
  assert (E : q1 = fst (initializeAR RevTracked env_missing [a] (initial_page false)))
    by (by rewrite H1).
  rewrite E. vm_compute. by repeat split.
Defined.

(** ** The sequence at rest *)

Lemma NoDup_obj_set {V : Type} (k : string) (v : V) o :
  List.NoDup (obj_keys o) -> List.NoDup (obj_keys (obj_set k v o)).
Proof.
  intros Hnd.
  destruct (obj_get k o) as [v0|] eqn:E.
  - by rewrite obj_keys_set.
  - rewrite (obj_keys_set_new _ _ _ E).
    apply obj_get_None_keys in E.
    apply List.NoDup_rev in Hnd. rewrite <- (rev_involutive (_ ++ _)).
    apply List.NoDup_rev. rewrite rev_app_distr. simpl.
    constructor; [|done]. by rewrite <- in_rev.
Qed.

Lemma visible_obj_set k path (m : Model) s :
  visibleModel k (with_mm (with_models (obj_set path m)) s)
  = if String.eqb path k then obj_visible (object m) else visibleModel k s.
Proof.
  unfold visibleModel. simpl.
  destruct (String.eqb path k) eqn:E.
  - apply String.eqb_eq in E. subst. by rewrite obj_get_set_eq.
  - apply String.eqb_neq in E. by rewrite obj_get_set_ne.
Qed.

Lemma concealModel_visible path k s :
  visibleModel k (concealModel path s)
  = if String.eqb path k then false else visibleModel k s.
Proof.
  unfold concealModel, visibleModel.
  destruct (obj_get path (models (mm s))) as [m|] eqn:Hm; simpl.
  - destruct (String.eqb path k) eqn:E.
    + apply String.eqb_eq in E. subst. by rewrite obj_get_set_eq.
    + apply String.eqb_neq in E. by rewrite obj_get_set_ne.
  - destruct (String.eqb path k) eqn:E; [|done].
    apply String.eqb_eq in E. subst. by rewrite Hm.
Qed.

Lemma keys_concealModel path s :
  obj_keys (models (mm (concealModel path s))) = obj_keys (models (mm s)).
Proof.
  unfold concealModel.
  destruct (obj_get path (models (mm s))) as [m|] eqn:Hm; [|done].
  simpl. by rewrite obj_keys_set.
Qed.

Lemma keys_concealAll s :
  obj_keys (models (mm (concealAll s))) = obj_keys (models (mm s)).
Proof.
  unfold concealAll. simpl.
  apply (fold_left_inv
           (fun s' => obj_keys (models (mm s')) = obj_keys (models (mm s))));
    [done|].
  intros a b H. by rewrite keys_concealModel.
Qed.

Lemma concealAll_hides s : all_hidden (concealAll s).
Proof.
  split.
  - intros k. unfold concealAll.
    change (visibleModel k (with_spotlights ?f ?x)) with (visibleModel k x).
    assert (H : forall ks s0,
              visibleModel k (fold_left (fun s path => concealModel path s) ks s0)
              = if existsb (fun path => String.eqb path k) ks then false
                else visibleModel k s0).
    { induction ks as [|p r IH]; intros s0; simpl; [done|].
      rewrite IH, concealModel_visible.
      destruct (String.eqb p k); simpl; by destruct (existsb _ r). }
    rewrite H. destruct (existsb _ _) eqn:E; [done|].
    unfold visibleModel.
    destruct (obj_get k (models (mm s))) as [m|] eqn:Hm; [|done].
    apply obj_get_Some_keys in Hm.
    assert (existsb (fun path => String.eqb path k) (obj_keys (models (mm s)))
            = true).
    { apply existsb_exists. exists k. split; [done|apply String.eqb_refl]. }
    congruence.
  - unfold concealAll. simpl. apply Forall_map. by apply Forall_true.
Qed.

Lemma stop_rests s : seq_inv s -> animationSequenceStarted s = true ->
  at_rest (stopAnimationSequence s).
Proof.
  intros Hinv Hst. split; [by apply stop_cancels|].
  unfold stopAnimationSequence. rewrite Hst. cbn [negb]. split.
  - by rewrite timeoutIds_concealAll.
  - apply concealAll_hides.
Qed.

(** The loop of [initializeAR], however it ends. *)
Lemma for_each_tracked_rest env l : forall p q r,
  testMode (state p) = false -> mindarThree (state p) = true ->
  animationSequenceStarted (state p) = false ->
  List.NoDup (obj_keys (models (mm (state p)))) ->
  at_rest (state p) ->
  for_each_config (loadTrackedModel RevTracked env) l p = (q, r) ->
  animationSequenceStarted (state q) = false
  /\ List.NoDup (obj_keys (models (mm (state q))))
  /\ at_rest (state q).
Proof.
  induction l as [|c l IH]; intros p q r Ht Hm Hst Hnd Hrest; simpl.
  - by intros [= <- <-].
  - destruct (loadTrackedModel_cases env c p)
      as [[He Hc]|[(He & Hl & Hc)|(He & Hl & asset & s' & m & Hi & Hc)]].
    + rewrite Hc. by apply IH.
    + rewrite Hc. unfold displayErrorMessage. simpl.
      destruct (scene p); simpl.
      * by apply IH.
      * by intros [= <- <-].
    + rewrite Hc.
      destruct (install_effect _ _ _ _ _ _ _ Hi)
        as (I1 & I2 & I3 & I4 & I5 & I6 & I7 & I8 & I9 & I10 & I11 & I12 & I13 & I14 & I15).
      assert (Hg : ar_gate RevTracked (state p) = true)
        by (unfold ar_gate; by rewrite Ht, Hm).
      rewrite Hg, !andb_false_r, app_nil_r in I1.
      destruct Hrest as (R1 & R2 & R3 & R4).
      assert (Hvis : forall k, visibleModel k s' = false).
      { intros k. unfold visibleModel. rewrite I12.
        destruct (String.eqb (cfg_path c) k) eqn:E.
        - apply String.eqb_eq in E. subst. rewrite obj_get_set_eq.
          by rewrite I14.
        - apply String.eqb_neq in E. rewrite obj_get_set_ne by done.
          apply R3. }
      apply IH; simpl.
      * by destruct (includes _ _); simpl; rewrite I5.
      * by destruct (includes _ _); simpl; rewrite I6.
      * by destruct (includes _ _); simpl; rewrite I9.
      * destruct (includes _ _); simpl; rewrite I12; by apply NoDup_obj_set.
      * destruct (includes _ _); simpl.
        -- split; [by rewrite I1|]. split; [by rewrite I8|].
           split; [done|by rewrite I7].
        -- unfold at_rest, all_hidden. simpl.
           split; [by rewrite I1|]. split; [by rewrite I8|].
           split; [done|]. rewrite I7. apply Forall_app. split; [done|].
           by repeat constructor.
Qed.

Lemma tracked_is_wf env cfgs s : tracked env cfgs s -> tracked_wf s.
Proof.
  induction 1 as [p Hi|s Ht IH|s Ht IH|s s' Ht IH Hf|s delta Ht IH|s t Ht IH].
  - unfold initializeAR in Hi.
    eapply for_each_tracked_rest in Hi.
    + destruct Hi as (H1 & H2 & H3). by split.
    + done.
    + done.
    + done.
    + constructor.
    + by repeat split.
  - destruct IH as [Hnd Hr]. split.
    + unfold onTargetFound, startAnimationSequence.
      destruct (animationSequenceStarted s); [done|].
      rewrite models_schedule_spotlights.
      match goal with
      | |- List.NoDup (obj_keys (models (mm (fold_left ?f ?ks ?s0)))) =>
          rewrite (fold_left_inv (fun s' => mm s' = mm s0) f ks s0 eq_refl)
      end.
      * rewrite keys_concealAll. unfold clearTimeouts. simpl.
        match goal with
        | |- List.NoDup (obj_keys (models (mm (fold_left ?f ?ks ?s0)))) =>
            rewrite (fold_left_inv (fun s' => mm s' = mm s0) f ks s0 eq_refl)
        end; [done|]. by intros a b H.
      * intros a b <-. by destruct (scheduleModel_step b a) as [H _].
    + unfold onTargetFound. by rewrite started_startAnimationSequence.
  - destruct IH as [Hnd Hr]. pose proof (tracked_seq_inv _ _ _ Ht) as Hinv.
    unfold onTargetLost.
    destruct (animationSequenceStarted s) eqn:E.
    + split; [|intros _; by apply stop_rests].
      unfold stopAnimationSequence. rewrite E. cbn [negb].
      rewrite keys_concealAll. unfold clearTimeouts. simpl.
      match goal with
      | |- List.NoDup (obj_keys (models (mm (fold_left ?f ?ks ?s0)))) =>
          rewrite (fold_left_inv (fun s' => mm s' = mm s0) f ks s0 eq_refl)
      end; [done|]. by intros a b H.
    + unfold stopAnimationSequence. rewrite E. cbn [negb].
      split; [done|]. intros _. by apply Hr.
  - pose proof (tracked_seq_inv _ _ _ Ht) as [[Hall _] Hq].
    unfold fire_next in Hf.
    destruct (earliest (timers (host s))) as [t|] eqn:E; [|done].
    injection Hf as <-.
    assert (Hst : animationSequenceStarted s = true).
    { destruct (animationSequenceStarted s); [done|].
      rewrite (Hq eq_refl) in E. done. }
    pose proof (earliest_In _ _ E) as Hin.
    rewrite List.Forall_forall in Hall.
    destruct (Hall t Hin) as (_ & Hcb & Hp & _).
    destruct (fire_seq RevTracked t s Hcb Hp) as (_ & _ & Hs' & _).
    split; [|by rewrite Hs', Hst].
    rewrite models_fire_keys. apply IH.
  - destruct IH as [Hnd Hr]. split; [done|].
    intros Hst. destruct (Hr Hst) as (R1 & R2 & R3 & R4).
    by repeat split.
  - destruct IH as [Hnd Hr]. split; [done|].
    intros Hst. destruct (Hr Hst) as (R1 & R2 & R3 & R4).
    by repeat split.
Qed.

(** X8. In an AR session nothing shows while the target is not tracked:
    whenever the sequence is not started, every model and every spotlight
    is invisible and no timer is pending; and the loss of the target puts
    the session in that state at once, wherever the sequence was. *)
Theorem nothing_shows_without_target (env : Env) (cfgs : list Config) (s : State)
    (Hs : tracked env cfgs s) :
  (animationSequenceStarted s = false ->
     (forall path, visibleModel path s = false)
     /\ Forall (fun sp => spot_visible sp = false) (spotlights s)
     /\ timers (host s) = [] /\ timeoutIds s = [])
  /\ animationSequenceStarted (onTargetLost s) = false
  /\ (forall path, visibleModel path (onTargetLost s) = false)
  /\ Forall (fun sp => spot_visible sp = false) (spotlights (onTargetLost s))
  /\ timers (host (onTargetLost s)) = []
  /\ timeoutIds (onTargetLost s) = [].
Proof.
  assert (H : forall s0, tracked env cfgs s0 ->
            animationSequenceStarted s0 = false ->
            (forall path, visibleModel path s0 = false)
            /\ Forall (fun sp => spot_visible sp = false) (spotlights s0)
            /\ timers (host s0) = [] /\ timeoutIds s0 = []).
  { intros s0 H0 Hst. destruct (tracked_is_wf _ _ _ H0) as [_ Hr].
    destruct (Hr Hst) as (R1 & R2 & R3 & R4). by repeat split. }
  split; [by apply H|].
  assert (Hst : animationSequenceStarted (onTargetLost s) = false)
    by apply started_stopAnimationSequence.
  split; [done|]. apply H; [|done]. by apply tracked_lost.
Qed.

(** X8 on the session of [cfgs_abc] after the first reveal: the loss of
    the target hides the model that was showing. *)
Lemma nothing_shows_without_target_witness :
  tracked env_ok cfgs_abc tracked_midway
  /\ visibleModel "models/a.fbx" tracked_midway = true
  /\ visibleModel "models/a.fbx" (onTargetLost tracked_midway) = false
  /\ timers (host (onTargetLost tracked_midway)) = [].
Proof.
  pose proof tracked_midway_reached as Hr.
  destruct (nothing_shows_without_target env_ok cfgs_abc tracked_midway Hr)
    as (_ & _ & Hv & _ & Ht & _).
  split; [exact Hr|]. split; [reflexivity|]. split; [apply Hv|exact Ht].
Defined.

(** ** Finding the target again *)

Lemma at_time_now s : at_time (now (host s)) s = s.
Proof.
  unfold at_time, with_host, with_now. rewrite N.max_id.
  by destruct s as [[? ? ? ? ?] ? ? ? ? ? ? ?].
Qed.

Lemma opt_view_obj_set k m ms :
  map opt_view (obj_set k m ms) = obj_set k (options m) (map opt_view ms).
Proof.
  induction ms as [|[k' m'] r IH]; simpl; [done|].
  destruct (String.eqb k k'); simpl; [done|]. by rewrite IH.
Qed.

Lemma obj_get_opt_view k ms :
  obj_get k (map opt_view ms) = option_map options (obj_get k ms).
Proof.
  induction ms as [|[k' m'] r IH]; simpl; [done|].
  by destruct (String.eqb k k').
Qed.

Lemma opt_view_concealModel path s :
  map opt_view (models (mm (concealModel path s))) = map opt_view (models (mm s)).
Proof.
  unfold concealModel.
  destruct (obj_get path (models (mm s))) as [m|] eqn:Hm; [|done].
  simpl. rewrite opt_view_obj_set. apply obj_set_id.
  by rewrite obj_get_opt_view, Hm.
Qed.

Lemma opt_view_stop s :
  map opt_view (models (mm (stopAnimationSequence s))) = map opt_view (models (mm s)).
Proof.
  unfold stopAnimationSequence.
  destruct (negb (animationSequenceStarted s)); [done|].
  unfold concealAll. simpl.
  rewrite (fold_left_inv
             (fun s' => map opt_view (models (mm s'))
                        = map opt_view (models (mm s)))
             (fun s path => concealModel path s)).
  - done.
  - unfold clearTimeouts. simpl.
    match goal with
    | |- map opt_view (models (mm (fold_left ?f ?ks ?s0))) = _ =>
        rewrite (fold_left_inv (fun s' => mm s' = mm s0) f ks s0 eq_refl)
    end; [done|]. by intros a b H.
  - intros a b H. by rewrite opt_view_concealModel.
Qed.

(** A sequence started at rest: what is visible once the clock has
    reached [t]. *)
Lemma sequence_progress s0 (T : N) :
  at_rest s0 -> animationSequenceStarted s0 = false ->
  List.NoDup (obj_keys (models (mm s0))) ->
  let s1 := startAnimationSequence (at_time T s0) in
  let t0 := N.max (now (host s0)) T in
  model_schedule (timers (host s1)) = sequence_of t0 (map opt_view (models (mm s0)))
  /\ (forall k, visibleModel k s1 = false)
  /\ forall t, exists s2,
       advance RevTracked (length (timers (host s1))) t s1 = Some s2
       /\ forall k m, obj_get k (models (mm s0)) = Some m ->
            visibleModel k s2 = (t0 + delay (options m) <=? t)%N.
Proof.
  intros (Htm & Hids & Hhid & _) Hst Hnd s1 t0.
  assert (Hhid' : forall k m, obj_get k (models (mm s0)) = Some m ->
                    obj_visible (object m) = false).
  { intros k m Hk. specialize (Hhid k). unfold visibleModel in Hhid.
    by rewrite Hk in Hhid. }
  destruct (start_running s0 T Htm Hids Hst Hhid' Hnd) as (Hrun & Hms & Hsched).
  fold s1 in Hrun, Hms, Hsched. fold t0 in Hsched.
  assert (Hsched' : model_schedule (timers (host s1))
                    = sequence_of t0 (map opt_view (models (mm s0)))).
  { rewrite Hsched. unfold sequence_of. rewrite map_map.
    apply map_ext. by intros [k m]. }
  split; [done|]. split.
  { intros k. unfold visibleModel. rewrite Hms.
    destruct (obj_get k (models (mm s0))) as [m|] eqn:Hk; [|done].
    by apply (Hhid' k). }
  intros t.
  destruct (advance_running (length (timers (host s1))) s1 t Hrun (le_n _))
    as (s2 & Hadv & Hrun2 & Htm2 & Hk2).
  exists s2. split; [done|]. intros k m Hk.
  set (E := map (fun e : string * Model =>
                   entry "" (fst e) (delay (options (snd e))) false true)
              (models (mm s0))).
  assert (HE : map (fun c => ((t0 + cfg_delay c)%N, cfg_path c)) E
               = model_schedule (timers (host s1))).
  { rewrite Hsched. unfold E. rewrite map_map. apply map_ext. by intros [k' m']. }
  assert (HEk : map cfg_path E = obj_keys (models (mm s0))).
  { unfold E, obj_keys. rewrite map_map. by apply map_ext. }
  assert (Hpend : pending_path k (timers (host s2)) = (t <? t0 + delay (options m))%N).
  { unfold pending_path. rewrite Htm2, model_schedule_filter_due, <- HE.
    apply (pending_entry t0 t E (entry "" k (delay (options m)) false true)).
    - by rewrite HEk.
    - unfold E. apply in_map_iff. exists (k, m). split; [done|].
      by apply obj_get_Some_In. }
  destruct (obj_get k (models (mm s2))) as [m2|] eqn:Hm2.
  2: { exfalso. apply obj_get_None_keys in Hm2. apply Hm2.
       rewrite Hk2, Hms. by apply obj_get_Some_keys in Hk. }
  destruct Hrun2 as (_ & _ & _ & _ & Hvis & _).
  unfold visibleModel. rewrite Hm2, (Hvis _ _ Hm2), Hpend.
  symmetry. apply N.leb_antisym.
Qed.



(** ** One reset *)

Lemma skeleton_hideModel path s : skeleton (hideModel path s) = skeleton s.
Proof.
  unfold hideModel.
  destruct (obj_get path (models (mm s))) as [m|] eqn:Hm; [|done].
  unfold skeleton. simpl. rewrite opt_view_obj_set.
  rewrite obj_set_id; [done|]. by rewrite obj_get_opt_view, Hm.
Qed.

Lemma skeleton_hideAllModels s : skeleton (hideAllModels s) = skeleton s.
Proof.
  unfold hideAllModels.
  apply (fold_left_inv (fun s' => skeleton s' = skeleton s)); [done|].
  intros a b H. by rewrite skeleton_hideModel.
Qed.

Lemma skeleton_resetMixer path s : skeleton (resetMixer path s) = skeleton s.
Proof.
  unfold resetMixer.
  destruct (mixers (mm s) !! path); [|done].
  unfold stopAllAction. simpl.
  destruct (obj_get path (models (mm s))) as [m|]; [|done].
  simpl. by destruct (animations m).
Qed.

Lemma showAgain_effect rev path s :
  ar_gate rev s = false ->
  skeleton (showAgain rev path s)
  = match obj_get path (map opt_view (models (mm s))) with
    | Some o =>
        (timers (host s)
           ++ [{| tid := next_tid (host s); due := (now (host s) + delay o)%N;
                  period := None; cb := CbShowModel path |}],
         now (host s), S (next_tid (host s)), uncaught (host s),
         (testMode s, mindarThree s, resetPatched s, animationSequenceStarted s),
         spotlights s, timeoutIds s, cycleTimer (mm s),
         map opt_view (models (mm s)))
    | None => skeleton s
    end.
Proof.
  intros Hg. unfold showAgain, showModel. rewrite obj_get_opt_view.
  destruct (obj_get path (models (mm s))) as [m|] eqn:Hm; [|done].
  by rewrite Hg.
Qed.

Lemma ar_gate_skeleton rev s s' :
  skeleton s' = skeleton s -> ar_gate rev s' = ar_gate rev s.
Proof.
  unfold skeleton, ar_gate. intros [= _ _ _ _ H1 H2 _ _ _ _ _]. by rewrite H1, H2.
Qed.

Lemma flat_map_ext_In {A B : Type} (f g : A -> list B) l :
  (forall a, In a l -> f a = g a) -> flat_map f l = flat_map g l.
Proof.
  induction l as [|a r IH]; intros H; simpl; [done|].
  rewrite (H a) by (by left). rewrite IH; [done|].
  intros b Hb. apply H. by right.
Qed.

Lemma entries_of_keys {V : Type} (o : list (string * V)) :
  List.NoDup (obj_keys o) -> entries_of o (obj_keys o) = o.
Proof.
  induction o as [|[k v] r IH]; intros Hnd; [done|].
  inversion Hnd as [|? ? Hni Hr]; subst.
  unfold entries_of in *. simpl. rewrite String.eqb_refl. simpl. f_equal.
  rewrite <- (IH Hr) at 2. apply flat_map_ext_In. intros k' Hk'.
  destruct (String.eqb k' k) eqn:E; [|done].
  apply String.eqb_eq in E. subst. done.
Qed.

Lemma armed_reveals_app t0 l1 : forall id l2,
  armed_reveals t0 id (l1 ++ l2)
  = armed_reveals t0 id l1 ++ armed_reveals t0 (id + length l1) l2.
Proof.
  induction l1 as [|e r IH]; intros id l2; simpl.
  - by rewrite Nat.add_0_r.
  - rewrite IH. do 3 f_equal. lia.
Qed.

Lemma fold_showAgain rev ks : forall s,
  ar_gate rev s = false ->
  let l := entries_of (map opt_view (models (mm s))) ks in
  skeleton (fold_left (fun s path => showAgain rev path s) ks s)
  = (timers (host s) ++ armed_reveals (now (host s)) (next_tid (host s)) l,
     now (host s), next_tid (host s) + length l, uncaught (host s),
     (testMode s, mindarThree s, resetPatched s, animationSequenceStarted s),
     spotlights s, timeoutIds s, cycleTimer (mm s),
     map opt_view (models (mm s))).
Proof.
  induction ks as [|k r IH]; intros s Hg; simpl.
  - unfold skeleton. by rewrite app_nil_r, Nat.add_0_r.
  - pose proof (showAgain_effect rev k s Hg) as He.
    assert (Hg' : ar_gate rev (showAgain rev k s) = false).
    { unfold showAgain, showModel.
      destruct (obj_get k (models (mm s))); [|done]. by rewrite Hg. }
    rewrite (IH _ Hg'). clear IH.
    destruct (obj_get k (map opt_view (models (mm s)))) as [o|] eqn:Ho;
      unfold skeleton in He; injection He as -> -> -> -> -> -> -> -> -> -> -> ->.
    + simpl. rewrite <- app_assoc. simpl. repeat f_equal. lia.
    + done.
Qed.

Lemma keys_opt_view ms : obj_keys (map opt_view ms) = obj_keys ms.
Proof. unfold obj_keys. rewrite map_map. by apply map_ext. Qed.

Lemma skeleton_fold (f : string -> State -> State) ks s :
  (forall k s0, skeleton (f k s0) = skeleton s0) ->
  skeleton (fold_left (fun s k => f k s) ks s) = skeleton s.
Proof.
  intros H. apply (fold_left_inv (fun s' => skeleton s' = skeleton s)); [done|].
  intros a b Ha. by rewrite H.
Qed.

Lemma skeleton_keys s s' :
  skeleton s' = skeleton s ->
  obj_keys (models (mm s')) = obj_keys (models (mm s)).
Proof.
  unfold skeleton. intros [= _ _ _ _ _ _ _ _ _ _ _ H].
  by rewrite <- (keys_opt_view (models (mm s'))), H, keys_opt_view.
Qed.

(** [resetModels] with the gate of [showModel] open: what it arms and
    what it leaves. *)
Lemma resetModels_effect rev s :
  ar_gate rev s = false ->
  List.NoDup (obj_keys (models (mm s))) ->
  let l := map opt_view (models (mm s)) in
  skeleton (resetModels rev s)
  = (timers (host s) ++ armed_reveals (now (host s)) (next_tid (host s)) l,
     now (host s), next_tid (host s) + length l, uncaught (host s),
     (testMode s, mindarThree s, resetPatched s, animationSequenceStarted s),
     spotlights s, timeoutIds s, cycleTimer (mm s), l).
Proof.
  intros Hg Hnd l. unfold resetModels.
  set (s1 := hideAllModels s).
  set (s2 := fold_left (fun s path => resetMixer path s)
               (obj_keys (models (mm s1))) s1).
  assert (H1 : skeleton s1 = skeleton s) by apply skeleton_hideAllModels.
  assert (H2 : skeleton s2 = skeleton s).
  { unfold s2. rewrite skeleton_fold; [done|]. apply skeleton_resetMixer. }
  rewrite fold_showAgain by (by rewrite (ar_gate_skeleton rev _ _ H2)).
  pose proof (skeleton_keys _ _ H2) as Hk.
  unfold skeleton in H2.
  injection H2 as -> -> -> -> -> -> -> -> -> -> -> ->.
  rewrite Hk, <- (keys_opt_view (models (mm s))), entries_of_keys;
    [done|]. by rewrite keys_opt_view.
Qed.

Lemma visible_skeleton_spots k s f :
  visibleModel k (with_spotlights f s) = visibleModel k s.
Proof. done. Qed.

Lemma visible_schedule_spotlights k mk track l : forall i s,
  visibleModel k (schedule_spotlights mk track i l s) = visibleModel k s.
Proof.
  intros i s. unfold visibleModel. by rewrite models_schedule_spotlights.
Qed.

(** The callback of the reset cycle once [loadTestModels] has wrapped
    [resetModels]: every model and every spotlight is hidden, a reveal is
    armed for every model and a timer for every spotlight. *)
Lemma resetCycle_effect rev s :
  ar_gate rev s = false -> resetPatched s = true ->
  List.NoDup (obj_keys (models (mm s))) ->
  let l := map opt_view (models (mm s)) in
  let sps := map (set_spot_visible false) (spotlights s) in
  skeleton (resetCycle rev s)
  = (timers (host s)
       ++ armed_reveals (now (host s)) (next_tid (host s)) l
       ++ armed_spots CbSpotlight (now (host s)) (next_tid (host s) + length l) 0 sps,
     now (host s), next_tid (host s) + length l + length sps, uncaught (host s),
     (testMode s, mindarThree s, true, animationSequenceStarted s),
     sps, timeoutIds s, cycleTimer (mm s), l)
  /\ forall k, visibleModel k (resetCycle rev s) = false.
Proof.
  intros Hg Hp Hnd l sps. unfold resetCycle. rewrite Hp.
  pose proof (resetModels_effect rev s Hg Hnd) as H1. simpl in H1. fold l in H1.
  set (s1 := resetModels rev s) in *.
  set (s2 := with_spotlights (map (set_spot_visible false)) s1).
  destruct (schedule_spotlights_effect CbSpotlight false (spotlights s2) 0 s2)
    as (S1 & S2 & S3 & S4 & S5 & S6 & S7 & S8 & S9 & S10 & S11 & S12).
  split.
  - unfold skeleton in *. rewrite S1, S2, S3, S4, S6, S7, S8, S9, S10, S11, S12.
    subst s2. simpl.
    injection H1 as -> -> -> -> -> -> -> -> -> -> -> ->.
    rewrite Hp, app_nil_r, <- app_assoc. by subst sps.
  - intros k. rewrite visible_schedule_spotlights. subst s2.
    rewrite visible_skeleton_spots. apply resetModels_hidden.
Qed.



(** ** A timer of test mode fires *)

Lemma Target_eqb_eq a b : Target_eqb a b = true <-> a = b.
Proof.
  destruct a as [p|i], b as [q|j]; simpl; split; try done.
  - intros H. apply String.eqb_eq in H. by subst.
  - intros [= ->]. apply String.eqb_refl.
  - intros H. apply Nat.eqb_eq in H. by subst.
  - intros [= ->]. apply Nat.eqb_refl.
Qed.

Lemma Target_eqb_refl a : Target_eqb a a = true.
Proof. by apply Target_eqb_eq. Qed.

Lemma aims_spec tg u : aims tg u = true <-> target (cb u) = Some tg.
Proof.
  unfold aims. destruct (target (cb u)) as [tg'|]; [|done].
  rewrite Target_eqb_eq. split; congruence.
Qed.

Lemma awaits_spec tg l :
  awaits tg l = true <-> exists u, In u l /\ target (cb u) = Some tg.
Proof.
  unfold awaits. rewrite existsb_exists.
  split; intros (u & Hu & H); exists u; split; try done; by apply aims_spec.
Qed.

Lemma awaits_false tg l :
  awaits tg l = false <-> forall u, In u l -> target (cb u) <> Some tg.
Proof.
  rewrite <- not_true_iff_false, awaits_spec. split.
  - intros H u Hu Ht. apply H. by exists u.
  - intros H (u & Hu & Ht). by apply (H u).
Qed.

Lemma nth_error_set_nth_spot l : forall i i',
  nth_error (set_nth_spot i l) i'
  = if i =? i' then option_map (set_spot_visible true) (nth_error l i')
    else nth_error l i'.
Proof.
  induction l as [|sp r IH]; intros i i'; simpl.
  - destruct i', i; simpl; try done; by destruct (_ =? _).
  - destruct i as [|i], i' as [|i']; simpl; try done.
Qed.

Lemma delays_set_nth_spot l : forall i,
  map spot_delay (set_nth_spot i l) = map spot_delay l.
Proof.
  induction l as [|sp r IH]; intros i; simpl; [by destruct i|].
  destruct i; simpl; [done|]. by rewrite IH.
Qed.

Lemma dequeue_effect tm s :
  timers (host (dequeue tm s))
  = match period tm with
    | None => cancel (tid tm) (timers (host s))
    | Some p => cancel (tid tm) (timers (host s))
                ++ [{| tid := tid tm; due := (due tm + p)%N;
                       period := period tm; cb := cb tm |}]
    end
  /\ now (host (dequeue tm s)) = N.max (now (host s)) (due tm)
  /\ fixture (dequeue tm s) = fixture s
  /\ (forall tg, shown tg (dequeue tm s) = shown tg s)
  /\ mm (dequeue tm s) = mm s
  /\ spotlights (dequeue tm s) = spotlights s.
Proof. unfold dequeue. simpl. by destruct (period tm). Qed.

(** A reveal or a spotlight timer fires: its target shows, and nothing
    else changes but the queue and the clock. *)
Lemma fire_passive rev tm s tg d :
  period tm = None -> target (cb tm) = Some tg ->
  due_of (map opt_view (models (mm s))) (map spot_delay (spotlights s)) 0 tg
  = Some d ->
  timers (host (fire rev tm s)) = cancel (tid tm) (timers (host s))
  /\ now (host (fire rev tm s)) = N.max (now (host s)) (due tm)
  /\ fixture (fire rev tm s) = fixture s
  /\ forall tg', shown tg' (fire rev tm s) = shown tg' s || Target_eqb tg' tg.
Proof.
  intros Hp Ht Hd.
  destruct (dequeue_effect tm s) as (Q1 & Q2 & Q3 & Q4 & Q5 & Q6).
  rewrite Hp in Q1. unfold fire.
  destruct (cb tm) as [path|i| | |] eqn:Hcb; try done; simpl in Ht;
    injection Ht as <-; simpl in Hd; cbn [run_callback].
  - rewrite obj_get_opt_view in Hd.
    destruct (obj_get path (models (mm s))) as [m|] eqn:Hm; [|done].
    rewrite (reveal_Ok path (dequeue tm s) m) by (by rewrite Q5).
    split; [done|]. split; [done|]. split.
    + rewrite <- Q3. unfold fixture. simpl. rewrite opt_view_obj_set.
      rewrite obj_set_id; [done|]. by rewrite obj_get_opt_view, Hm.
    + intros [k|i]; cbn [shown Target_eqb].
      * unfold visibleModel. simpl.
        destruct (String.eqb k path) eqn:E.
        -- apply String.eqb_eq in E. subst.
           rewrite obj_get_set_eq. simpl. by rewrite orb_true_r.
        -- apply String.eqb_neq in E.
           rewrite obj_get_set_ne by congruence. by rewrite orb_false_r.
      * rewrite orb_false_r. by simpl.
  - split; [done|]. split; [done|]. split.
    + rewrite <- Q3. unfold fixture. simpl. by rewrite delays_set_nth_spot.
    + intros [k|i']; cbn [shown Target_eqb].
      * rewrite orb_false_r. apply (Q4 (TModel k)).
      * cbn [spotlights with_spotlights].
        rewrite nth_error_set_nth_spot, Q6, Nat.eqb_sym.
        destruct (i' =? i) eqn:E; simpl; [|by rewrite orb_false_r].
        apply Nat.eqb_eq in E. subst i'. rewrite orb_true_r.
        rewrite nth_error_map in Hd.
        by destruct (nth_error (spotlights s) i).
Qed.

(** ** The reset cycle, from one firing to the next *)

Lemma NoDup_map_inj {A B : Type} (f : A -> B) l a b :
  List.NoDup (map f l) -> In a l -> In b l -> f a = f b -> a = b.
Proof.
  induction l as [|x r IH]; simpl; [done|].
  intros Hnd Ha Hb Hf. inversion Hnd as [|? ? Hni Hr]; subst.
  destruct Ha as [->|Ha], Hb as [->|Hb]; try done.
  - exfalso. apply Hni. rewrite Hf. by apply in_map.
  - exfalso. apply Hni. rewrite <- Hf. by apply in_map.
  - by apply IH.
Qed.

Lemma NoDup_map_filter {A B : Type} (f : A -> B) (g : A -> bool) l :
  List.NoDup (map f l) -> List.NoDup (map f (List.filter g l)).
Proof.
  induction l as [|x r IH]; simpl; [done|].
  intros Hnd. inversion Hnd as [|? ? Hni Hr]; subst.
  destruct (g x); simpl; [|by apply IH].
  constructor; [|by apply IH].
  intros Hin. apply Hni. apply in_map_iff in Hin as (y & Hy & Hin).
  apply List.filter_In in Hin as [Hin _]. rewrite <- Hy. by apply in_map.
Qed.

Lemma all_equal_singleton (l : list Timer) c :
  List.NoDup (map tid l) -> In c l -> (forall u, In u l -> u = c) -> l = [c].
Proof.
  destruct l as [|a [|b r]]; simpl; intros Hnd Hin Hall.
  - done.
  - by rewrite (Hall a) by (by left).
  - exfalso. inversion Hnd as [|? ? Hni _]; subst. apply Hni.
    rewrite (Hall a), (Hall b) by auto. by left.
Qed.

Lemma In_armed_reveals t0 l : forall id u,
  In u (armed_reveals t0 id l) <->
  exists n e, nth_error l n = Some e
              /\ u = {| tid := id + n; due := (t0 + delay (snd e))%N;
                        period := None; cb := CbShowModel (fst e) |}.
Proof.
  induction l as [|e r IH]; intros id u; simpl.
  - split; [done|]. intros (n & e & H & _). by destruct n.
  - rewrite IH. split.
    + intros [<-|(n & e' & Hn & ->)].
      * exists 0, e. by rewrite Nat.add_0_r.
      * exists (S n), e'. split; [done|]. f_equal. lia.
    + intros (n & e' & Hn & ->). destruct n as [|n]; simpl in Hn.
      * left. injection Hn as ->. by rewrite Nat.add_0_r.
      * right. exists n, e'. split; [done|]. f_equal. lia.
Qed.

Lemma In_armed_spots mk t0 l : forall id i u,
  In u (armed_spots mk t0 id i l) <->
  exists n sp, nth_error l n = Some sp
               /\ u = {| tid := id + n; due := (t0 + spot_delay sp)%N;
                         period := None; cb := mk (i + n) |}.
Proof.
  induction l as [|e r IH]; intros id i u; simpl.
  - split; [done|]. intros (n & e & H & _). by destruct n.
  - rewrite IH. split.
    + intros [<-|(n & e' & Hn & ->)].
      * exists 0, e. by rewrite !Nat.add_0_r.
      * exists (S n), e'. split; [done|]. f_equal; [lia|f_equal; lia].
    + intros (n & e' & Hn & ->). destruct n as [|n]; simpl in Hn.
      * left. injection Hn as ->. by rewrite !Nat.add_0_r.
      * right. exists n, e'. split; [done|]. f_equal; [lia|f_equal; lia].
Qed.

Lemma armed_reveals_tids t0 l : forall id,
  map tid (armed_reveals t0 id l) = seq id (length l).
Proof. induction l as [|e r IH]; intros id; simpl; [done|]. by rewrite IH. Qed.

Lemma ar_gate_fixture rev s s' : fixture s' = fixture s -> ar_gate rev s' = ar_gate rev s.
Proof.
  unfold fixture, ar_gate. intros [= _ _ H1 H2 _ _ _ _ _ _]. by rewrite H1, H2.
Qed.

Lemma nth_error_Some_lt {A : Type} (l : list A) n x :
  nth_error l n = Some x -> n < length l.
Proof. intros H. apply nth_error_Some. congruence. Qed.

Section CycleFacts.
Variable rev : Revision.
Variables T0 t : N.
Variable O : list (string * ModelOptions).
Variable D : list N.
Variables A0 ini0 : Target -> bool.
Hypothesis Okeys : List.NoDup (obj_keys O).
Hypothesis Obound : Forall (fun e => (delay (snd e) < cycleInterval)%N) O.
Hypothesis Dbound : Forall (fun d => (d < cycleInterval)%N) D.

Lemma due_of_bound T tg d :
  due_of O D T tg = Some d -> (T <= d < T + cycleInterval)%N.
Proof using Obound Dbound.
  destruct tg as [path|i]; simpl.
  - destruct (obj_get path O) as [o|] eqn:Ho; [|done]. intros [= <-].
    apply obj_get_Some_In in Ho. rewrite List.Forall_forall in Obound.
    specialize (Obound _ Ho). simpl in Obound. lia.
  - destruct (nth_error D i) as [d0|] eqn:Hd; [|done]. intros [= <-].
    apply nth_error_In in Hd. rewrite List.Forall_forall in Dbound.
    specialize (Dbound _ Hd). lia.
Qed.

Lemma due_of_any T T' tg d :
  due_of O D T tg = Some d -> exists d', due_of O D T' tg = Some d'.
Proof.
  destruct tg as [path|i]; simpl.
  - destruct (obj_get path O); [|done]. by eexists.
  - destruct (nth_error D i); [|done]. by eexists.
Qed.

Lemma cycle_start_S j :
  cycle_start T0 (S j) = (cycle_start T0 j + cycleInterval)%N.
Proof. unfold cycle_start. lia. Qed.

Lemma target_cycle_timer cid T : target (cb (cycle_timer cid T)) = None.
Proof. done. Qed.

(** A reveal or a spotlight timer fires. *)
Lemma cyc_passive_step j cid s tm :
  cycling rev T0 t O D A0 ini0 j cid s ->
  earliest (timers (host s)) = Some tm ->
  tm <> cycle_timer cid (cycle_start T0 j) ->
  (due tm <= t)%N ->
  cycling rev T0 t O D A0 ini0 j cid (fire rev tm s)
  /\ length (timers (host (fire rev tm s))) < length (timers (host s)).
Proof using Obound Dbound.
  intros C He Hne Hle.
  pose proof (earliest_In _ _ He) as Hin.
  destruct (cyc_others _ _ _ _ _ _ _ _ _ _ C tm Hin)
    as [->|(Hp & tg & Htg & Harm & Hdue)]; [done|].
  destruct (due_of_any _ 0%N _ _ Hdue) as [d0 Hd0].
  rewrite <- (cyc_opts _ _ _ _ _ _ _ _ _ _ C),
          <- (cyc_delays _ _ _ _ _ _ _ _ _ _ C) in Hd0.
  destruct (fire_passive rev tm s tg d0 Hp Htg Hd0) as (F1 & F2 & F3 & F4).
  assert (Htid : forall u, In u (timers (host s)) -> u <> tm -> tid u <> tid tm).
  { intros u Hu Hun Ht. apply Hun.
    by apply (NoDup_map_inj tid (timers (host s))); [apply C| | |]. }
  assert (Hsame : forall u, In u (timers (host s)) -> target (cb u) = Some tg ->
                    u = tm).
  { intros u Hu Ht. by apply (cyc_unique _ _ _ _ _ _ _ _ _ _ C u tm tg). }
  split; [|rewrite F1; by apply length_cancel_lt].
  pose proof F3 as F3'. unfold fixture in F3'.
  injection F3' as E1 E2 E3 E4 E5 E6 E7 E8 E9 E10.
  constructor.
  - rewrite E9. apply C.
  - rewrite E10. apply C.
  - rewrite (ar_gate_fixture rev _ _ F3). apply C.
  - rewrite E5. apply C.
  - rewrite F1. apply NoDup_map_filter. apply C.
  - rewrite F1, E1. unfold cancel.
    pose proof (cyc_fresh _ _ _ _ _ _ _ _ _ _ C) as Hf.
    rewrite List.Forall_forall in *. intros u Hu.
    apply List.filter_In in Hu as [Hu _]. by apply Hf.
  - rewrite F1. apply In_cancel. split; [apply C|].
    apply Htid; [apply C|]. congruence.
  - intros u Hu. rewrite F1 in Hu. apply In_cancel in Hu as [Hu _].
    by apply (cyc_others _ _ _ _ _ _ _ _ _ _ C).
  - intros u v tg' Hu Hv. rewrite F1 in Hu, Hv.
    apply In_cancel in Hu as [Hu _]. apply In_cancel in Hv as [Hv _].
    by apply (cyc_unique _ _ _ _ _ _ _ _ _ _ C).
  - rewrite F2. pose proof (cyc_now _ _ _ _ _ _ _ _ _ _ C).
    pose proof (due_of_bound _ _ _ Hdue). lia.
  - apply C.
  - intros tg' d' Hd'. rewrite F4, F1.
    rewrite (cyc_shown _ _ _ _ _ _ _ _ _ _ C tg' d' Hd').
    destruct (Target_eqb tg' tg) eqn:E.
    + apply Target_eqb_eq in E. subst tg'. rewrite Harm, orb_true_r.
      symmetry. apply negb_true_iff. apply awaits_false.
      intros u Hu Ht. apply In_cancel in Hu as [Hu Hn].
      apply Hn. by rewrite (Hsame u Hu Ht).
    + rewrite orb_false_r.
      destruct (armed_in A0 j tg'); [|done]. f_equal.
      apply eq_true_iff_eq. rewrite !awaits_spec.
      split; intros (u & Hu & Ht); exists u; (split; [|done]).
      * apply In_cancel. split; [done|]. apply Htid; [done|].
        intros ->. rewrite Htg in Ht. injection Ht as ->.
        by rewrite Target_eqb_refl in E.
      * by apply In_cancel in Hu as [Hu _].
  - intros tg' d' Hd' Ha Hlt. rewrite F1.
    pose proof (cyc_pending _ _ _ _ _ _ _ _ _ _ C tg' d' Hd' Ha Hlt) as Hw.
    apply awaits_spec in Hw as (u & Hu & Ht). apply awaits_spec.
    exists u. split; [|done]. apply In_cancel. split; [done|].
    apply Htid; [done|]. intros ->.
    rewrite Htg in Ht. injection Ht as ->.
    rewrite Hd' in Hdue. injection Hdue as ->. lia.
Qed.

Lemma delays_hidden l :
  map spot_delay (map (set_spot_visible false) l) = map spot_delay l.
Proof. rewrite map_map. by apply map_ext. Qed.

(** The interval fires: the next cycle starts. *)
Lemma cyc_cycle_step j cid s :
  cycling rev T0 t O D A0 ini0 j cid s ->
  earliest (timers (host s)) = Some (cycle_timer cid (cycle_start T0 j)) ->
  (cycle_start T0 (S j) <= t)%N ->
  cycling rev T0 t O D A0 ini0 (S j) cid
    (fire rev (cycle_timer cid (cycle_start T0 j)) s)
  /\ length (timers (host (fire rev (cycle_timer cid (cycle_start T0 j)) s)))
     = 1 + length O + length D.
Proof using Okeys Obound Dbound.
  intros C He Hle. set (c := cycle_timer cid (cycle_start T0 j)) in *.
  assert (Hall : timers (host s) = [c]).
  { apply all_equal_singleton; [apply C|apply C|]. intros u Hu.
    destruct (cyc_others _ _ _ _ _ _ _ _ _ _ C u Hu)
      as [->|(Hp & tg & Htg & Ha & Hd)]; [done|].
    pose proof (due_of_bound _ _ _ Hd) as Hb.
    pose proof (earliest_min _ _ u He Hu) as Hm.
    unfold c, cycle_timer in Hm. simpl in Hm. lia. }
  assert (Hcid : cid < next_tid (host s)).
  { pose proof (cyc_fresh _ _ _ _ _ _ _ _ _ _ C) as Hf.
    rewrite Hall in Hf. by inversion Hf. }
  set (T := cycle_start T0 (S j)).
  assert (HT : T = (cycle_start T0 j + cycleInterval)%N) by apply cycle_start_S.
  change (fire rev c s) with (resetCycle rev (dequeue c s)).
  destruct (dequeue_effect c s) as (Q1 & Q2 & Q3 & Q4 & Q5 & Q6).
  set (s1 := dequeue c s) in *.
  assert (Q1' : timers (host s1) = [cycle_timer cid T]).
  { rewrite Q1, Hall. unfold c, cycle_timer, cancel. simpl.
    rewrite Nat.eqb_refl. simpl. by rewrite HT. }
  assert (Q2' : now (host s1) = T).
  { rewrite Q2, HT. pose proof (cyc_now _ _ _ _ _ _ _ _ _ _ C).
    unfold c, cycle_timer. simpl. lia. }
  assert (E1 : next_tid (host s1) = next_tid (host s)) by reflexivity.
  assert (E5 : resetPatched s1 = resetPatched s) by reflexivity.
  assert (E9 : map opt_view (models (mm s1)) = map opt_view (models (mm s)))
    by reflexivity.
  assert (Hg1 : ar_gate rev s1 = false).
  { rewrite (ar_gate_fixture rev _ _ Q3). apply C. }
  assert (Hp1 : resetPatched s1 = true) by (rewrite E5; apply C).
  assert (HO1 : map opt_view (models (mm s1)) = O) by (rewrite E9; apply C).
  assert (Hk1 : List.NoDup (obj_keys (models (mm s1)))).
  { by rewrite <- keys_opt_view, HO1. }
  destruct (resetCycle_effect rev s1 Hg1 Hp1 Hk1) as [Hsk Hhid].
  cbv zeta in Hsk. rewrite HO1, Q1', Q2', Q6, E1 in Hsk.
  set (sps := map (set_spot_visible false) (spotlights s)) in *.
  set (s2 := resetCycle rev s1) in *.
  unfold skeleton in Hsk.
  injection Hsk as K1 K2 K3 K4 K5 K6 K7 K8 K9 K10 K11 K12.
  assert (HD : map spot_delay sps = D).
  { unfold sps. rewrite delays_hidden. apply C. }
  assert (Hlen : length sps = length D) by (by rewrite <- HD, length_map).
  assert (Hentry : forall n e, nth_error O n = Some e ->
            due_of O D T (TModel (fst e)) = Some (T + delay (snd e))%N).
  { intros n e Hn. simpl. destruct e as [k o]. simpl.
    rewrite (obj_get_In k o O Okeys); [done|]. by apply nth_error_In in Hn. }
  assert (Hspot : forall n sp, nth_error sps n = Some sp ->
            due_of O D T (TSpot n) = Some (T + spot_delay sp)%N).
  { intros n sp Hn. simpl. rewrite <- HD, nth_error_map, Hn. done. }
  assert (Hin2 : forall u, In u (timers (host s2)) ->
            u = cycle_timer cid T
            \/ (exists n e, nth_error O n = Some e
                  /\ u = {| tid := next_tid (host s) + n;
                            due := (T + delay (snd e))%N;
                            period := None; cb := CbShowModel (fst e) |})
            \/ (exists n sp, nth_error sps n = Some sp
                  /\ u = {| tid := next_tid (host s) + length O + n;
                            due := (T + spot_delay sp)%N;
                            period := None; cb := CbSpotlight n |})).
  { intros u Hu. rewrite K1 in Hu. simpl in Hu.
    destruct Hu as [<-|Hu]; [by left|]. right.
    apply in_app_or in Hu as [Hu|Hu].
    - left. by apply In_armed_reveals in Hu.
    - right. apply In_armed_spots in Hu as (n & sp & Hn & ->).
      exists n, sp. split; [done|]. by rewrite Nat.add_0_l. }
  assert (Hawaits : forall tg d, due_of O D T tg = Some d ->
            awaits tg (timers (host s2)) = true).
  { intros tg d Hd. apply awaits_spec. rewrite K1. destruct tg as [k|i]; simpl in Hd.
    - destruct (obj_get k O) as [o|] eqn:Ho; [|done].
      apply obj_get_Some_In in Ho. apply In_nth_error in Ho as [n Hn].
      eexists. split.
      + right. apply in_or_app. left. apply In_armed_reveals.
        exists n, (k, o). by split.
      + done.
    - rewrite <- HD, nth_error_map in Hd.
      destruct (nth_error sps i) as [sp|] eqn:Hs; [|done].
      eexists. split.
      + right. apply in_or_app. right. apply In_armed_spots.
        exists i, sp. by split.
      + done. }
  split.
  2: { rewrite K1. simpl. rewrite length_app.
       rewrite <- (length_map tid (armed_reveals _ _ _)), armed_reveals_tids, length_seq.
       rewrite <- (length_map tid (armed_spots _ _ _ _ _)), armed_spots_tids, length_seq.
       by rewrite Hlen. }
  constructor.
  - done.
  - by rewrite K9.
  - unfold ar_gate in *. by rewrite K5, K6.
  - done.
  - rewrite K1. simpl. rewrite map_app, armed_reveals_tids, armed_spots_tids.
    rewrite <- seq_app. constructor; [|apply List.seq_NoDup].
    rewrite in_seq. lia.
  - rewrite K3. rewrite List.Forall_forall. intros u Hu.
    destruct (Hin2 u Hu) as [->|[(n & e & Hn & ->)|(n & sp & Hn & ->)]]; simpl.
    + lia.
    + apply nth_error_Some_lt in Hn. lia.
    + apply nth_error_Some_lt in Hn. lia.
  - rewrite K1. by left.
  - intros u Hu.
    destruct (Hin2 u Hu) as [->|[(n & e & Hn & ->)|(n & sp & Hn & ->)]].
    + by left.
    + right. split; [done|]. exists (TModel (fst e)).
      split; [done|]. split; [done|]. by apply (Hentry n).
    + right. split; [done|]. exists (TSpot n).
      split; [done|]. split; [done|]. by apply Hspot.
  - intros u v tg Hu Hv Htu Htv.
    destruct (Hin2 u Hu) as [->|[(n & e & Hn & ->)|(n & sp & Hn & ->)]];
      destruct (Hin2 v Hv) as [->|[(n' & e' & Hn' & ->)|(n' & sp' & Hn' & ->)]];
      simpl in Htu, Htv; try done; try congruence.
    + injection Htu as <-. injection Htv as Hf.
      assert (e' = e).
      { destruct e as [k o], e' as [k' o']. simpl in Hf. subst k'.
        pose proof (obj_get_In k o O Okeys (nth_error_In _ _ Hn)) as G1.
        pose proof (obj_get_In k o' O Okeys (nth_error_In _ _ Hn')) as G2.
        rewrite G1 in G2. by injection G2 as ->. }
      subst e'.
      assert (n = n').
      { assert (HndO : List.NoDup O).
        { apply (NoDup_map_inv fst). exact Okeys. }
        apply (proj1 (NoDup_nth_error O) HndO).
        - by apply nth_error_Some_lt in Hn.
        - by rewrite Hn, Hn'. }
      by subst n'.
  - rewrite K2. lia.
  - right. exact Hle.
  - intros tg d Hd. simpl. rewrite (Hawaits tg d Hd). simpl.
    destruct tg as [k|i]; simpl; [apply Hhid|].
    rewrite K9. unfold sps. rewrite nth_error_map.
    by destruct (nth_error (spotlights s) i).
  - intros tg d Hd _ _. by apply (Hawaits tg d).
Qed.

(** The clock advances to [t]: timers fire, cycle after cycle, until none
    is due; enough fuel gives the result. *)
Lemma advance_cycling fuel B : forall j cid s,
  cycling rev T0 t O D A0 ini0 j cid s ->
  (N.to_nat (t / cycleInterval) - j) * (2 + length O + length D)
    + length (timers (host s)) <= fuel ->
  1 + length O + length D <= B ->
  length (timers (host s)) <= B ->
  exists j' s',
    advance rev fuel t s = Some (at_time t s')
    /\ cycling rev T0 t O D A0 ini0 j' cid s'
    /\ Forall (fun u => (t < due u)%N) (timers (host s'))
    /\ length (timers (host s')) <= B.
Proof using Okeys Obound Dbound.
  induction fuel as [|k IH]; intros j cid s C Hm HB Hlb; simpl;
    (destruct (earliest (timers (host s))) as [tm|] eqn:He;
     [|apply earliest_None in He;
       pose proof (cyc_timer _ _ _ _ _ _ _ _ _ _ C) as Hc;
       rewrite He in Hc; destruct Hc]);
    pose proof (earliest_In _ _ He) as Hin;
    (destruct (due tm <=? t)%N eqn:Hd;
     [apply N.leb_le in Hd|
      apply N.leb_gt in Hd; exists j, s; split; [done|]; split; [done|];
      split; [|done];
      rewrite List.Forall_forall; intros u Hu;
      pose proof (earliest_min _ _ u He Hu); lia]).
  - apply Nat.le_0_r, Nat.eq_add_0 in Hm. destruct Hm as [_ Hz].
    by destruct (timers (host s)).
  - destruct (cyc_others _ _ _ _ _ _ _ _ _ _ C tm Hin)
      as [->|(Hp & tg & Htg & Harm & Hdue)].
    + assert (Hle : (cycle_start T0 (S j) <= t)%N).
      { rewrite cycle_start_S. unfold cycle_timer in Hd. by simpl in Hd. }
      destruct (cyc_cycle_step j cid s C He Hle) as [C' Hlen].
      apply (IH (S j) cid _ C'); [|done|lia]. rewrite Hlen.
      assert (HR : S j <= N.to_nat (t / cycleInterval)).
      { assert (N.of_nat (S j) <= t / cycleInterval)%N; [|lia].
        apply N.div_le_lower_bound; [done|].
        unfold cycle_start in Hle. lia. }
      replace (N.to_nat (t / cycleInterval) - j)
        with (S (N.to_nat (t / cycleInterval) - S j)) in Hm by lia.
      rewrite Nat.mul_succ_l in Hm.
      assert (Hz : 0 < length (timers (host s))).
      { destruct (timers (host s)); [done|]. cbn [length]. lia. }
      remember ((N.to_nat (t / cycleInterval) - S j)
                * (2 + length O + length D)) as Y.
      lia.
    + assert (Hne : tm <> cycle_timer cid (cycle_start T0 j)).
      { intros ->. done. }
      destruct (cyc_passive_step j cid s tm C He Hne Hd) as [C' Hlen].
      apply (IH j cid _ C'); [lia|done|lia].
Qed.

(** What shows once no timer is due at [t] any more. *)
Lemma cyc_result j cid s :
  cycling rev T0 t O D A0 ini0 j cid s ->
  Forall (fun u => (t < due u)%N) (timers (host s)) ->
  j = cycle_at T0 t
  /\ forall tg b, shows_at T0 t O D A0 ini0 tg = Some b ->
       shown tg (at_time t s) = b.
Proof using Obound Dbound.
  intros C Hall. rewrite List.Forall_forall in Hall.
  pose proof (Hall _ (cyc_timer _ _ _ _ _ _ _ _ _ _ C)) as Hc.
  unfold cycle_timer in Hc. simpl in Hc.
  assert (Hj : j = cycle_at T0 t).
  { unfold cycle_at.
    assert (Hpos : (0 < cycleInterval)%N) by done.
    assert (((t - T0) / cycleInterval)%N = N.of_nat j); [|lia].
    unfold cycle_start in Hc.
    destruct (cyc_reached _ _ _ _ _ _ _ _ _ _ C) as [->|Hr].
    - apply N.div_small. change (N.of_nat 0) with 0%N in Hc.
      rewrite N.mul_0_r in Hc. lia.
    - unfold cycle_start in Hr. symmetry.
      apply (N.div_unique _ _ _ (t - T0 - cycleInterval * N.of_nat j)%N); lia. }
  split; [done|]. intros tg b. unfold shows_at. rewrite <- Hj.
  destruct (due_of O D (cycle_start T0 j) tg) as [d|] eqn:Hd; [|done].
  intros [= <-].
  assert (Hs : shown tg (at_time t s) = shown tg s) by (by destruct tg).
  rewrite Hs, (cyc_shown _ _ _ _ _ _ _ _ _ _ C tg d Hd).
  destruct (armed_in A0 j tg) eqn:Ha; [|done].
  destruct (awaits tg (timers (host s))) eqn:Hw; simpl.
  - apply awaits_spec in Hw as (u & Hu & Ht).
    destruct (cyc_others _ _ _ _ _ _ _ _ _ _ C u Hu)
      as [->|(_ & tg' & Htg' & _ & Hdue)]; [done|].
    rewrite Ht in Htg'. injection Htg' as <-.
    rewrite Hd in Hdue. injection Hdue as ->.
    symmetry. apply N.leb_gt. by apply Hall.
  - symmetry. apply N.leb_le.
    destruct (N.le_gt_cases d t) as [Hle|Hgt]; [done|].
    rewrite (cyc_pending _ _ _ _ _ _ _ _ _ _ C tg d Hd Ha) in Hw; [done|lia].
Qed.
End CycleFacts.

(** ** The test page from its load on *)

Lemma for_each_test_tids rev env cfgs : forall p ch,
  scene p = Some ch -> ar_gate rev (state p) = false ->
  let q := fst (for_each_config (loadTestModel rev env) cfgs p) in
  timers (host (state q))
  = timers (host (state p))
    ++ armed_reveals (now (host (state p))) (next_tid (host (state p)))
         (map (fun c => (cfg_path c, fst (test_entry c)))
            (List.filter (timed env) cfgs))
  /\ next_tid (host (state q))
     = next_tid (host (state p)) + length (List.filter (timed env) cfgs).
Proof.
  induction cfgs as [|c r IH]; intros p ch Hs Hg.
  - simpl. by rewrite app_nil_r, Nat.add_0_r.
  - destruct (loadTestModel_cases rev env c p ch Hs)
      as [[He Hc]|[(He & Hl & Hc)|(He & Hl & asset & s' & m & Hi & Hc)]].
    + assert (P3 : timed env c = false) by (unfold timed, loadable; by rewrite He).
      cbn [for_each_config List.filter]. rewrite Hc, P3. by apply (IH p ch).
    + assert (P3 : timed env c = false)
        by (unfold timed, loadable; by rewrite He, Hl).
      cbn [for_each_config List.filter]. rewrite Hc, P3.
      match type of Hc with _ = (?x, _) => set (p1 := x) in * end.
      by apply (IH p1 _ eq_refl).
    + assert (P3 : timed env c = (0 <? cfg_delay c)%N && negb (cfg_visible c))
        by (unfold timed, loadable; by rewrite He, Hl).
      destruct (install_effect _ _ _ _ _ _ _ Hi)
        as (I1 & I2 & I3 & I4 & I5 & I6 & I7 & I8 & I9 & I10 & I11 & I12 & I13 & I14 & I15).
      simpl in I1, I3. rewrite Hg in I1, I3. simpl in I1, I3.
      rewrite andb_true_r in I1, I3.
      cbn [for_each_config List.filter]. rewrite Hc, P3.
      match type of Hc with _ = (?x, _) => set (p1 := x) in * end.
      assert (Hh : host (state p1) = host s').
      { subst p1. simpl. by destruct (includes _ _). }
      assert (Hg1 : ar_gate rev (state p1) = false).
      { rewrite <- Hg. unfold ar_gate. subst p1. simpl.
        destruct (includes _ _); simpl; by rewrite I5, I6. }
      destruct (IH p1 _ eq_refl Hg1) as [H1 H2].
      cbv zeta. rewrite H1, H2, Hh, I1, I2, I3.
      destruct ((0 <? cfg_delay c)%N && negb (cfg_visible c)); simpl.
      * rewrite <- app_assoc. simpl. split; [done|lia].
      * by rewrite app_nil_r.
Qed.

Lemma loadTestModels_timers rev env cfgs p ch :
  scene p = Some ch ->
  cycleTimer (mm (state p)) = None ->
  ar_gate rev (state p) = false ->
  let s := state (loadTestModels rev env cfgs p) in
  let t0 := now (host (state p)) in
  let id0 := next_tid (host (state p)) in
  let n1 := length (List.filter (timed env) cfgs) in
  timers (host s)
  = timers (host (state p))
    ++ armed_reveals t0 id0
         (map (fun c => (cfg_path c, fst (test_entry c)))
            (List.filter (timed env) cfgs))
    ++ armed_spots CbSpotlight t0 (id0 + n1) 0 (spotlights s)
    ++ [cycle_timer (id0 + n1 + length (spotlights s)) t0]
  /\ next_tid (host s) = S (id0 + n1 + length (spotlights s)).
Proof.
  intros Hs Hc Hg. unfold loadTestModels.
  set (p0 := with_state (with_spotlights (fun _ => [])) p).
  assert (Hg0 : ar_gate rev (state p0) = false) by exact Hg.
  destruct (for_each_test_tids rev env cfgs p0 ch Hs Hg0) as [T1 T2].
  destruct (for_each_test rev env cfgs p0 ch Hs)
    as (q1 & nodes & Hq & H1 & H2 & H3 & H4 & H5 & H6 & H7 & H8).
  rewrite Hq in *. cbn [fst] in T1, T2.
  destruct H7 as (F1 & F2 & F3 & F4 & F5 & F6 & F7 & F8).
  change (state p0) with (with_spotlights (fun _ => []) (state p)) in *.
  simpl in F1, F8, T1, T2.
  rewrite state_with_state. unfold afterTestLoad.
  set (s1 := state q1) in *.
  destruct (schedule_spotlights_effect CbSpotlight false (spotlights s1) 0 s1)
    as (S1 & S2 & S3 & S4 & S5 & S6 & S7 & S8 & S9 & S10 & S11 & S12).
  set (s2 := schedule_spotlights CbSpotlight false 0 (spotlights s1) s1) in *.
  destruct (startResetCycle_effect s2)
    as (C1 & C2 & C3 & C4 & C5 & C6 & C7 & C8 & C9 & C10 & C11 & C12 & C13 & C14 & C15).
  set (s3 := startResetCycle s2) in *.
  assert (Hc2 : cycleTimer (mm s2) = None) by (by rewrite S6, F8).
  rewrite Hc2 in C1.
  unfold with_patched. cbn [spotlights host mm].
  rewrite C1, C2, C10, S1, S2, S3, S7, T1, T2, F1.
  rewrite <- !app_assoc. split; [done|lia].
Qed.

Lemma obj_get_entry_view k ms :
  obj_get k (map entry_view ms)
  = option_map (fun m => (options m, obj_visible (object m))) (obj_get k ms).
Proof.
  induction ms as [|[k' m'] r IH]; simpl; [done|].
  by destruct (String.eqb k k').
Qed.

Lemma filter_timed_loadable env cfgs c :
  In c (List.filter (timed env) cfgs) ->
  In c (List.filter (loadable env) cfgs)
  /\ (0 < cfg_delay c)%N /\ cfg_visible c = false.
Proof.
  rewrite !List.filter_In. unfold timed. intros [Hin H].
  apply andb_prop in H as [H Hv]. apply andb_prop in H as [Hl Hd].
  apply N.ltb_lt in Hd. apply negb_true_iff in Hv. done.
Qed.

Lemma filter_timed_eq env cfgs :
  List.filter (timed env) cfgs
  = List.filter (fun c => (0 <? cfg_delay c)%N && negb (cfg_visible c))
      (List.filter (loadable env) cfgs).
Proof.
  induction cfgs as [|c r IH]; simpl; [done|]. unfold timed at 1.
  destruct (loadable env c); simpl; [|done].
  destruct ((0 <? cfg_delay c)%N && negb (cfg_visible c)); by rewrite IH.
Qed.

Lemma length_filter_timed env cfgs :
  length (List.filter (timed env) cfgs) <= length (List.filter (loadable env) cfgs).
Proof.
  induction cfgs as [|c r IH]; simpl; [done|]. unfold timed at 1.
  destruct (loadable env c); simpl; [|done].
  destruct ((0 <? cfg_delay c)%N && negb (cfg_visible c)); simpl; lia.
Qed.

(** The page that [loadTestModels] leaves is at the start of cycle 0. *)
Lemma loadTestModels_cycling rev env cfgs p ch t :
  scene p = Some ch ->
  timers (host (state p)) = [] ->
  models (mm (state p)) = [] ->
  cycleTimer (mm (state p)) = None ->
  ar_gate rev (state p) = false ->
  List.NoDup (map cfg_path (List.filter (loadable env) cfgs)) ->
  let s := state (loadTestModels rev env cfgs p) in
  let T0 := now (host (state p)) in
  let O := map (fun c => (cfg_path c, fst (test_entry c)))
             (List.filter (loadable env) cfgs) in
  let D := map (fun c => (cfg_delay c + 500)%N) (List.filter (spotlit env) cfgs) in
  (exists cid,
     cycling rev T0 t O D (fun tg => awaits tg (timers (host s)))
       (fun tg => shown tg s) 0 cid s)
  /\ length (timers (host s)) <= 1 + length O + length D
  /\ (forall c, In c cfgs -> loadable env c = true ->
        awaits (TModel (cfg_path c)) (timers (host s)) = timed env c
        /\ shown (TModel (cfg_path c)) s = cfg_visible c)
  /\ (forall i, i < length D -> awaits (TSpot i) (timers (host s)) = true).
Proof.
  intros Hs Ht Hm Hc Hg Hnd s T0 O D.
  destruct (loadTestModels_effect rev env cfgs p ch Hs Hc)
    as (_ & _ & _ & E4 & _ & E6 & E7 & _ & E9 & E10 & E11).
  destruct (loadTestModels_timers rev env cfgs p ch Hs Hc Hg) as [T1 T2].
  cbv zeta in E4, E6, E7, E9, E10, E11, T1, T2. fold s T0 in E4, E6, E7, E9, E10, E11, T1, T2.
  rewrite Ht in T1. cbn [app] in T1. rewrite Hm in E11. cbn [map] in E11.
  rewrite assign_all_fresh in E11 by exact Hnd. cbn [app] in E11.
  set (Lt := map (fun c => (cfg_path c, fst (test_entry c)))
               (List.filter (timed env) cfgs)) in *.
  set (id0 := next_tid (host (state p))) in *.
  set (n1 := length (List.filter (timed env) cfgs)) in *.
  set (cid := id0 + n1 + length (spotlights s)) in *.
  assert (HO : map opt_view (models (mm s)) = O).
  { transitivity (map (fun e : string * (ModelOptions * bool) => (fst e, fst (snd e)))
                    (map entry_view (models (mm s)))).
    - rewrite map_map. by apply map_ext.
    - rewrite E11, map_map. done. }
  assert (HD : map spot_delay (spotlights s) = D).
  { rewrite E4, map_map. done. }
  assert (Hinv : Forall (fun sp => spot_visible sp = false) (spotlights s)).
  { rewrite E4. rewrite List.Forall_forall. intros sp Hsp.
    apply in_map_iff in Hsp as (c & <- & _). done. }
  assert (Okeys : List.NoDup (obj_keys O)).
  { unfold obj_keys, O. by rewrite map_map. }
  assert (Hlen1 : length Lt = n1) by (unfold Lt; by rewrite length_map).
  assert (HlenD : length (spotlights s) = length D) by (by rewrite <- HD, length_map).
  assert (Hvis : forall c, In c (List.filter (loadable env) cfgs) ->
            visibleModel (cfg_path c) s = cfg_visible c).
  { intros c Hin. unfold visibleModel.
    pose proof (obj_get_entry_view (cfg_path c) (models (mm s))) as G.
    rewrite E11 in G.
    rewrite (obj_get_In (cfg_path c) (test_entry c)) in G.
    - destruct (obj_get (cfg_path c) (models (mm s))) as [m|]; [|done].
      simpl in G. injection G as _ G. by rewrite <- G.
    - unfold obj_keys. by rewrite map_map.
    - by apply (in_map (fun c => (cfg_path c, test_entry c))). }
  assert (HLt : forall e, In e Lt -> In e O /\ visibleModel (fst e) s = false).
  { intros e He. unfold Lt in He. apply in_map_iff in He as (c & <- & Hin).
    apply filter_timed_loadable in Hin as (Hin & _ & Hv).
    split; [unfold O; by apply (in_map (fun c => (cfg_path c, fst (test_entry c))))|].
    simpl. by rewrite Hvis. }
  assert (Hin2 : forall u, In u (timers (host s)) ->
            u = cycle_timer cid T0
            \/ (exists n e, nth_error Lt n = Some e
                  /\ u = {| tid := id0 + n; due := (T0 + delay (snd e))%N;
                            period := None; cb := CbShowModel (fst e) |})
            \/ (exists n sp, nth_error (spotlights s) n = Some sp
                  /\ u = {| tid := id0 + n1 + n; due := (T0 + spot_delay sp)%N;
                            period := None; cb := CbSpotlight n |})).
  { intros u Hu. rewrite T1 in Hu.
    apply in_app_or in Hu as [Hu|Hu].
    - right. left. by apply In_armed_reveals in Hu.
    - apply in_app_or in Hu as [Hu|[<-|[]]]; [|by left].
      right. right. apply In_armed_spots in Hu as (n & sp & Hn & ->).
      exists n, sp. split; [done|]. by rewrite Nat.add_0_l. }
  assert (Hstart : cycle_start T0 0 = T0).
  { unfold cycle_start. simpl. lia. }
  assert (Hentry : forall e, In e Lt ->
            due_of O D T0 (TModel (fst e)) = Some (T0 + delay (snd e))%N).
  { intros [k o] He. simpl. apply HLt in He as [He _].
    by rewrite (obj_get_In k o O Okeys He). }
  assert (Hspot : forall n sp, nth_error (spotlights s) n = Some sp ->
            due_of O D T0 (TSpot n) = Some (T0 + spot_delay sp)%N).
  { intros n sp Hn. simpl. by rewrite <- HD, nth_error_map, Hn. }
  assert (Hspots : forall i, i < length D -> awaits (TSpot i) (timers (host s)) = true).
  { intros i Hi. rewrite <- HlenD in Hi.
    destruct (nth_error (spotlights s) i) as [sp|] eqn:Hn;
      [|apply nth_error_None in Hn; lia].
    apply awaits_spec. eexists. split.
    - rewrite T1. apply in_or_app. right. apply in_or_app. left.
      apply In_armed_spots. exists i, sp. by split.
    - done. }
  split; [exists cid; constructor|split; [|split]].
  - done.
  - done.
  - unfold ar_gate in *. by rewrite E9, E10.
  - done.
  - rewrite T1, !map_app, armed_reveals_tids, armed_spots_tids. simpl.
    rewrite Hlen1. unfold cid.
    replace [id0 + n1 + length (spotlights s)]
      with (seq (id0 + n1 + length (spotlights s)) 1) by done.
    rewrite <- !seq_app. apply List.seq_NoDup.
  - rewrite T2. fold cid. rewrite List.Forall_forall. intros u Hu.
    destruct (Hin2 u Hu) as [->|[(n & e & Hn & ->)|(n & sp & Hn & ->)]]; simpl.
    + lia.
    + apply nth_error_Some_lt in Hn. unfold cid. lia.
    + apply nth_error_Some_lt in Hn. unfold cid. lia.
  - rewrite Hstart, T1. apply in_or_app. right. apply in_or_app. right. by left.
  - rewrite Hstart. intros u Hu.
    destruct (Hin2 u Hu) as [->|[(n & e & Hn & ->)|(n & sp & Hn & ->)]].
    + by left.
    + right. split; [done|]. exists (TModel (fst e)).
      split; [done|]. split.
      * simpl. apply awaits_spec. eexists. by split; [exact Hu|].
      * apply Hentry. by apply nth_error_In in Hn.
    + right. split; [done|]. exists (TSpot n).
      split; [done|]. split.
      * simpl. apply awaits_spec. eexists. by split; [exact Hu|].
      * by apply Hspot.
  - intros u v tg Hu Hv Htu Htv.
    destruct (Hin2 u Hu) as [->|[(n & e & Hn & ->)|(n & sp & Hn & ->)]];
      destruct (Hin2 v Hv) as [->|[(n' & e' & Hn' & ->)|(n' & sp' & Hn' & ->)]];
      simpl in Htu, Htv; try done; try congruence.
    injection Htu as <-. injection Htv as Hf.
    assert (e' = e).
    { destruct e as [k o], e' as [k' o']. simpl in Hf. subst k'.
      pose proof (obj_get_In k o O Okeys (proj1 (HLt _ (nth_error_In _ _ Hn)))) as G1.
      pose proof (obj_get_In k o' O Okeys (proj1 (HLt _ (nth_error_In _ _ Hn')))) as G2.
      rewrite G1 in G2. by injection G2 as ->. }
    subst e'.
    assert (n = n').
    { assert (HndL : List.NoDup Lt).
      { apply (NoDup_map_inv fst). unfold Lt. rewrite map_map. simpl.
        rewrite filter_timed_eq. by apply NoDup_map_filter. }
      apply (proj1 (NoDup_nth_error Lt) HndL).
      - by apply nth_error_Some_lt in Hn.
      - by rewrite Hn, Hn'. }
    by subst n'.
  - rewrite Hstart, E6. lia.
  - by left.
  - rewrite Hstart. intros tg d Hd.
    change (armed_in (fun tg0 => awaits tg0 (timers (host s))) 0 tg)
      with (awaits tg (timers (host s))).
    destruct (awaits tg (timers (host s))) eqn:Hw; [|done]. cbn [negb].
    apply awaits_spec in Hw as (u & Hu & Htu).
    destruct (Hin2 u Hu) as [->|[(n & e & Hn & ->)|(n & sp & Hn & ->)]];
      simpl in Htu; [done| |]; injection Htu as <-; simpl.
    + apply HLt. by apply nth_error_In in Hn.
    + rewrite Hn. rewrite List.Forall_forall in Hinv. apply Hinv.
      by apply nth_error_In in Hn.
  - intros tg d _ Ha _. exact Ha.
  - rewrite T1, !length_app. simpl.
    rewrite <- (length_map tid (armed_reveals _ _ _)), armed_reveals_tids, length_seq.
    rewrite <- (length_map tid (armed_spots _ _ _ _ _)), armed_spots_tids, length_seq.
    rewrite Hlen1, HlenD. unfold O. rewrite length_map.
    pose proof (length_filter_timed env cfgs). fold n1 in H. lia.
  - intros c Hin Hl.
    assert (HinL : In c (List.filter (loadable env) cfgs)) by (by apply List.filter_In).
    split.
    + destruct (timed env c) eqn:Htm.
      * assert (HinT : In (cfg_path c, fst (test_entry c)) Lt).
        { unfold Lt. apply (in_map (fun c => (cfg_path c, fst (test_entry c)))).
          by apply List.filter_In. }
        apply In_nth_error in HinT as [n Hn].
        apply awaits_spec. eexists. split.
        -- rewrite T1. apply in_or_app. left. apply In_armed_reveals.
           exists n, (cfg_path c, fst (test_entry c)). by split.
        -- done.
      * apply awaits_false. intros u Hu Htu.
        destruct (Hin2 u Hu) as [->|[(n & e & Hn & ->)|(n & sp & Hn & ->)]];
          simpl in Htu; [done| |done].
        injection Htu as Hk. apply nth_error_In in Hn.
        unfold Lt in Hn. apply in_map_iff in Hn as (c' & <- & Hc').
        simpl in Hk.
        pose proof (proj1 (filter_timed_loadable env cfgs c' Hc')) as Hc'l.
        assert (c' = c) by (by apply (NoDup_map_inj cfg_path _ _ _ Hnd)).
        subst c'. apply List.filter_In in Hc' as [_ Hc']. congruence.
    + simpl. by apply Hvis.
  - exact Hspots.
Qed.

Lemma filter_spotlit_loadable env cfgs c :
  In c (List.filter (spotlit env) cfgs) -> In c (List.filter (loadable env) cfgs).
Proof.
  rewrite !List.filter_In. unfold spotlit. intros [Hin H].
  by apply andb_prop in H as [H _].
Qed.

Lemma length_filter_le {A : Type} (f : A -> bool) l :
  length (List.filter f l) <= length l.
Proof. induction l as [|x r IH]; simpl; [done|]. destruct (f x); simpl; lia. Qed.

(** The test page at the time [t]: what it shows, and how many timers
    are pending. *)
Lemma test_page_at rev env cfgs p ch t fuel :
  scene p = Some ch ->
  timers (host (state p)) = [] ->
  models (mm (state p)) = [] ->
  cycleTimer (mm (state p)) = None ->
  ar_gate rev (state p) = false ->
  List.NoDup (map cfg_path (List.filter (loadable env) cfgs)) ->
  Forall (fun c => (cfg_delay c + 500 < cycleInterval)%N)
    (List.filter (loadable env) cfgs) ->
  (N.to_nat (t / cycleInterval) + 1) * (2 + 2 * length cfgs) <= fuel ->
  let T0 := now (host (state p)) in
  let j := ((t - T0) / cycleInterval)%N in
  exists s',
    advance rev fuel t (state (loadTestModels rev env cfgs p)) = Some s'
    /\ (forall c, In c cfgs -> loadable env c = true ->
          visibleModel (cfg_path c) s'
          = if (j =? 0)%N && negb (timed env c) then cfg_visible c
            else (T0 + cycleInterval * j + cfg_delay c <=? t)%N)
    /\ (forall i c, nth_error (List.filter (spotlit env) cfgs) i = Some c ->
          option_map spot_visible (nth_error (spotlights s') i)
          = Some (T0 + cycleInterval * j + (cfg_delay c + 500) <=? t)%N)
    /\ length (timers (host s'))
       <= 1 + length (List.filter (loadable env) cfgs)
          + length (List.filter (spotlit env) cfgs).
Proof.
  intros Hs Ht Hm Hc Hg Hnd Hdl Hfuel T0 j.
  destruct (loadTestModels_cycling rev env cfgs p ch t Hs Ht Hm Hc Hg Hnd)
    as ([cid C0] & Hlen0 & Hmod & Hspt).
  set (s0 := state (loadTestModels rev env cfgs p)) in *.
  set (O := map (fun c => (cfg_path c, fst (test_entry c)))
              (List.filter (loadable env) cfgs)) in *.
  set (D := map (fun c => (cfg_delay c + 500)%N)
              (List.filter (spotlit env) cfgs)) in *.
  fold T0 in C0.
  assert (Okeys : List.NoDup (obj_keys O)).
  { unfold obj_keys, O. by rewrite map_map. }
  assert (Obound : Forall (fun e => (delay (snd e) < cycleInterval)%N) O).
  { unfold O. rewrite List.Forall_forall in *. intros e He.
    apply in_map_iff in He as (c & <- & Hin). simpl.
    pose proof (Hdl c Hin). simpl in *. lia. }
  assert (Dbound : Forall (fun d => (d < cycleInterval)%N) D).
  { unfold D. rewrite List.Forall_forall in *. intros e He.
    apply in_map_iff in He as (c & <- & Hin).
    apply Hdl. by apply filter_spotlit_loadable. }
  assert (HlO : length O = length (List.filter (loadable env) cfgs))
    by (unfold O; by rewrite length_map).
  assert (HlD : length D = length (List.filter (spotlit env) cfgs))
    by (unfold D; by rewrite length_map).
  assert (Hf : (N.to_nat (t / cycleInterval) - 0) * (2 + length O + length D)
               + length (timers (host s0)) <= fuel).
  { pose proof (length_filter_le (loadable env) cfgs).
    pose proof (length_filter_le (spotlit env) cfgs).
    rewrite Nat.sub_0_r.
    assert (N.to_nat (t / cycleInterval) * (2 + length O + length D)
            <= N.to_nat (t / cycleInterval) * (2 + 2 * length cfgs))
      by (apply Nat.mul_le_mono_l; lia).
    rewrite Nat.mul_add_distr_r, Nat.mul_1_l in Hfuel. lia. }
  destruct (advance_cycling rev T0 t O D _ _ Okeys Obound Dbound fuel
              (1 + length O + length D) 0 cid s0 C0 Hf (le_n _) Hlen0)
    as (j' & s' & Hadv & C & Hall & Hlen).
  destruct (cyc_result rev T0 t O D _ _ Obound Dbound j' cid s' C Hall)
    as [Hj Hshow].
  assert (Hjn : N.of_nat (cycle_at T0 t) = j).
  { unfold cycle_at. by rewrite N2Nat.id. }
  assert (Hj0 : (cycle_at T0 t =? 0) = (j =? 0)%N).
  { rewrite <- Hjn. by destruct (cycle_at T0 t). }
  assert (HT : cycle_start T0 (cycle_at T0 t) = (T0 + cycleInterval * j)%N).
  { unfold cycle_start. by rewrite Hjn. }
  exists (at_time t s'). split; [exact Hadv|]. split; [|split].
  - intros c Hin Hl. destruct (Hmod c Hin Hl) as [Ha Hi].
    apply (Hshow (TModel (cfg_path c))).
    unfold shows_at, armed_in. rewrite HT, Hj0, Ha, Hi. simpl.
    rewrite (obj_get_In (cfg_path c) (fst (test_entry c)) O Okeys).
    + simpl. f_equal.
      destruct (j =? 0)%N; simpl; [|done]. by destruct (timed env c).
    + unfold O. apply (in_map (fun c => (cfg_path c, fst (test_entry c)))).
      by apply List.filter_In.
  - intros i c Hn.
    assert (Hi : i < length D).
    { rewrite HlD. by apply nth_error_Some_lt in Hn. }
    assert (Hsh : shown (TSpot i) (at_time t s')
                  = (T0 + cycleInterval * j + (cfg_delay c + 500) <=? t)%N).
    { apply Hshow. unfold shows_at, armed_in. rewrite HT, Hj0, (Hspt i Hi). simpl.
      unfold D. rewrite nth_error_map, Hn. simpl. f_equal.
      by destruct (j =? 0)%N. }
    simpl in Hsh.
    change (spotlights (at_time t s')) with (spotlights s').
    destruct (nth_error (spotlights s') i) as [sp|] eqn:Hsp; simpl; [by rewrite Hsh|].
    apply nth_error_None in Hsp.
    rewrite <- (length_map spot_delay), (cyc_delays _ _ _ _ _ _ _ _ _ _ C) in Hsp. lia.
  - simpl. rewrite <- HlO, <- HlD. exact Hlen.
Qed.

(** X11. The test page shows its models periodically.  On a page with a
    scene, no pending timer, an empty registry and no reset cycle, on
    which [showModel] is not gated, load a list of entries whose loadable
    paths are distinct and whose delays plus 500 ms are below the 18 s of
    the cycle.  Advancing the clock to any time [t] terminates, and a
    loaded model is then visible exactly when the delay of its entry has
    passed since the start of the current 18 s cycle.  The configured
    visibility counts in the first cycle only, for an entry that the
    load armed no reveal for; from the second cycle on an entry
    configured as visible is hidden until its delay like every other. *)
Theorem test_page_models_periodic (rev : Revision) (env : Env)
    (cfgs : list Config) (p : Page) (ch : list Node) (t : N) (fuel : nat)
    (Hscene : scene p = Some ch)
    (Htimers : timers (host (state p)) = [])
    (Hmodels : models (mm (state p)) = [])
    (Hcycle : cycleTimer (mm (state p)) = None)
    (Hgate : ar_gate rev (state p) = false)
    (Hpaths : List.NoDup (map cfg_path (List.filter (loadable env) cfgs)))
    (Hdelays : Forall (fun c => (cfg_delay c + 500 < cycleInterval)%N)
                 (List.filter (loadable env) cfgs))
    (Hfuel : (N.to_nat (t / cycleInterval) + 1) * (2 + 2 * length cfgs) <= fuel) :
  let T0 := now (host (state p)) in
  let j := ((t - T0) / cycleInterval)%N in
  exists s',
    advance rev fuel t (state (loadTestModels rev env cfgs p)) = Some s'
    /\ forall c, In c cfgs -> loadable env c = true ->
         visibleModel (cfg_path c) s'
         = if (j =? 0)%N && negb (timed env c) then cfg_visible c
           else (T0 + cycleInterval * j + cfg_delay c <=? t)%N.
Proof.
  destruct (test_page_at rev env cfgs p ch t fuel Hscene Htimers Hmodels
              Hcycle Hgate Hpaths Hdelays Hfuel) as (s' & Ha & Hv & _).
  exists s'. by split.
Qed.

(** X12. The spotlights of the test page follow the same cycle: under
    the conditions of X11, at any time [t] the spotlight of the [i]-th
    entry that got one is visible exactly when the delay of the entry
    plus 500 ms has passed since the start of the current cycle; every
    cycle hides the spotlights again. *)
Theorem test_page_spotlights_periodic (rev : Revision) (env : Env)
    (cfgs : list Config) (p : Page) (ch : list Node) (t : N) (fuel : nat)
    (Hscene : scene p = Some ch)
    (Htimers : timers (host (state p)) = [])
    (Hmodels : models (mm (state p)) = [])
    (Hcycle : cycleTimer (mm (state p)) = None)
    (Hgate : ar_gate rev (state p) = false)
    (Hpaths : List.NoDup (map cfg_path (List.filter (loadable env) cfgs)))
    (Hdelays : Forall (fun c => (cfg_delay c + 500 < cycleInterval)%N)
                 (List.filter (loadable env) cfgs))
    (Hfuel : (N.to_nat (t / cycleInterval) + 1) * (2 + 2 * length cfgs) <= fuel) :
  let T0 := now (host (state p)) in
  let j := ((t - T0) / cycleInterval)%N in
  exists s',
    advance rev fuel t (state (loadTestModels rev env cfgs p)) = Some s'
    /\ forall i c, nth_error (List.filter (spotlit env) cfgs) i = Some c ->
         option_map spot_visible (nth_error (spotlights s') i)
         = Some (T0 + cycleInterval * j + (cfg_delay c + 500) <=? t)%N.
Proof.
  destruct (test_page_at rev env cfgs p ch t fuel Hscene Htimers Hmodels
              Hcycle Hgate Hpaths Hdelays Hfuel) as (s' & Ha & _ & Hv & _).
  exists s'. by split.
Qed.


(** X11 on the shipped configuration, 40 s after the load: the third
    cycle began at 36 s, so the model with the delay 3.5 s shows and the
    one with the delay 5 s does not yet. *)
Lemma test_page_models_periodic_witness :
  List.NoDup (map cfg_path (List.filter (loadable env_ok) getModelConfigs))
  /\ Forall (fun c => (cfg_delay c + 500 < cycleInterval)%N)
       (List.filter (loadable env_ok) getModelConfigs)
  /\ (N.to_nat (40000 / cycleInterval) + 1) * (2 + 2 * length getModelConfigs) <= 42
  /\ exists s',
       advance RevTimed 42 40000 (state (test_page env_ok getModelConfigs)) = Some s'
       /\ visibleModel "models/rsaf.fbx" s' = true
       /\ visibleModel "models/navy.fbx" s' = false.
Proof.
  assert (Hnd : List.NoDup
                  (map cfg_path (List.filter (loadable env_ok) getModelConfigs))).
  { apply NoDup_by_computation. vm_compute. reflexivity. }
  assert (Hdl : Forall (fun c => (cfg_delay c + 500 < cycleInterval)%N)
                  (List.filter (loadable env_ok) getModelConfigs)).
  { vm_compute. repeat constructor. }
  assert (Hf : (N.to_nat (40000 / cycleInterval) + 1)
               * (2 + 2 * length getModelConfigs) <= 42).
  { vm_compute. lia. }
  split; [exact Hnd|]. split; [exact Hdl|]. split; [exact Hf|].
  pose proof (test_page_models_periodic RevTimed env_ok getModelConfigs
                (initTestScene (initial_page true)) [] 40000 42
                eq_refl eq_refl eq_refl eq_refl eq_refl Hnd Hdl Hf) as H.
  cbv zeta in H. destruct H as (s' & Ha & Hv).
  exists s'. split; [exact Ha|]. split.
  - pose proof (Hv {| cfg_id := "rsaf"; cfg_path := "models/rsaf.fbx";
                      cfg_position := (-1500, 0, 1000)%Z; cfg_scale := 10%Z;
                      cfg_delay := 3500; cfg_visible := false;
                      cfg_enabled := true |}) as H.
    simpl cfg_path in H. rewrite H; [reflexivity|simpl; tauto|reflexivity].
  - pose proof (Hv {| cfg_id := "navy"; cfg_path := "models/navy.fbx";
                      cfg_position := (3000, 0, 0)%Z; cfg_scale := 10%Z;
                      cfg_delay := 5000; cfg_visible := false;
                      cfg_enabled := true |}) as H.
    simpl cfg_path in H. rewrite H; [reflexivity|simpl; tauto|reflexivity].
Defined.

(** X12 on the shipped configuration, 40 s after the load. *)
Lemma test_page_spotlights_periodic_witness :
  List.NoDup (map cfg_path (List.filter (loadable env_ok) getModelConfigs))
  /\ Forall (fun c => (cfg_delay c + 500 < cycleInterval)%N)
       (List.filter (loadable env_ok) getModelConfigs)
  /\ (N.to_nat (40000 / cycleInterval) + 1) * (2 + 2 * length getModelConfigs) <= 42
  /\ exists s',
       advance RevTimed 42 40000 (state (test_page env_ok getModelConfigs)) = Some s'
       /\ option_map spot_visible (nth_error (spotlights s') 0) = Some true
       /\ option_map spot_visible (nth_error (spotlights s') 3) = Some false.
Proof.
  assert (Hnd : List.NoDup
                  (map cfg_path (List.filter (loadable env_ok) getModelConfigs))).
  { apply NoDup_by_computation. vm_compute. reflexivity. }
  assert (Hdl : Forall (fun c => (cfg_delay c + 500 < cycleInterval)%N)
                  (List.filter (loadable env_ok) getModelConfigs)).
  { vm_compute. repeat constructor. }
  assert (Hf : (N.to_nat (40000 / cycleInterval) + 1)
               * (2 + 2 * length getModelConfigs) <= 42).
  { vm_compute. lia. }
  split; [exact Hnd|]. split; [exact Hdl|]. split; [exact Hf|].
  pose proof (test_page_spotlights_periodic RevTimed env_ok getModelConfigs
                (initTestScene (initial_page true)) [] 40000 42
                eq_refl eq_refl eq_refl eq_refl eq_refl Hnd Hdl Hf) as H.
  cbv zeta in H. destruct H as (s' & Ha & Hv).
  exists s'. split; [exact Ha|]. split.
  - by rewrite (Hv 0 _ eq_refl).
  - by rewrite (Hv 3 _ eq_refl).
Defined.


(** ** The text of the text boxes *)

Lemma append_nil_l s : "" +:+ s = s.
Proof. reflexivity. Qed.

Lemma append_cons c r s : String c r +:+ s = String c (r +:+ s).
Proof. reflexivity. Qed.

Lemma append_nil_r s : s +:+ "" = s.
Proof. induction s as [|c r IH]; [done|]. by rewrite append_cons, IH. Qed.

Lemma append_assoc a b c : (a +:+ b) +:+ c = a +:+ (b +:+ c).
Proof. induction a as [|x r IH]; [done|]. by rewrite !append_cons, IH. Qed.

Lemma glue_cons x l : glue (x :: l) = x +:+ glue l.
Proof. reflexivity. Qed.

Lemma split_space_cons s : exists w ws, split_space s = w :: ws.
Proof.
  induction s as [|c r (w & ws & IH)]; simpl; [by eexists _, _|].
  destruct (Ascii.eqb c " "); [by eexists _, _|]. rewrite IH. by eexists _, _.
Qed.

Lemma split_space_spaceless s : Forall (fun w => spaceless w = true) (split_space s).
Proof.
  induction s as [|c r IH]; simpl; [by repeat constructor|].
  destruct (Ascii.eqb c " ") eqn:E; [by constructor|].
  destruct (split_space r) as [|w ws]; [by repeat constructor; simpl; rewrite E|].
  inversion IH as [|? ? Hw Hws]; subst. constructor; [|done].
  simpl. by rewrite E, Hw.
Qed.

Lemma glue_split_space s :
  glue (map (fun w => w +:+ " ") (split_space s)) = s +:+ " ".
Proof.
  induction s as [|c r IH]; [done|]. cbn [split_space].
  destruct (split_space_cons r) as (w & ws & H). rewrite H in *.
  destruct (Ascii.eqb c " ") eqn:E.
  - apply Ascii.eqb_eq in E. subst c. by rewrite map_cons, glue_cons, IH.
  - rewrite map_cons, glue_cons in *.
    by rewrite !append_cons, IH.
Qed.

Lemma join_with_cons sep x y r :
  join_with sep (x :: y :: r) = x +:+ sep +:+ join_with sep (y :: r).
Proof. reflexivity. Qed.

Lemma join_split_space s : join_with " " (split_space s) = s.
Proof.
  induction s as [|c r IH]; [done|]. cbn [split_space].
  destruct (split_space_cons r) as (w & ws & H). rewrite H in *.
  destruct (Ascii.eqb c " ") eqn:E.
  - apply Ascii.eqb_eq in E. subst c. by rewrite join_with_cons, IH.
  - destruct ws as [|v vs].
    + cbn [join_with] in *. by rewrite IH.
    + rewrite join_with_cons in *. by rewrite append_cons, IH.
Qed.

Lemma glue_wrapText tooWide ws : forall i line y,
  glue (map fst (wrapText tooWide i ws line y))
  = line +:+ glue (map (fun w => w +:+ " ") ws).
Proof.
  induction ws as [|w r IH]; intros i line y; cbn [wrapText map].
  - by rewrite glue_cons.
  - cbv zeta. rewrite glue_cons.
    destruct (tooWide (line +:+ w +:+ " ") && (0 <? i)); cbn [map fst].
    + by rewrite glue_cons, IH.
    + by rewrite IH, !append_assoc.
Qed.

Lemma fits_wrapText tooWide ws : forall i line y,
  0 < i ->
  Forall (fun w => spaceless w = true) ws ->
  (tooWide line = false \/ exists w, spaceless w = true /\ line = w +:+ " ") ->
  Forall (fun l => tooWide (fst l) = false
                   \/ exists w, spaceless w = true /\ fst l = w +:+ " ")
    (wrapText tooWide i ws line y).
Proof.
  induction ws as [|w r IH]; intros i line y Hi Hws Hl; simpl.
  - by constructor.
  - inversion Hws as [|? ? Hw Hr]; subst.
    destruct (tooWide (line +:+ w +:+ " ")) eqn:E; simpl.
    + assert (Hi' : (0 <? i) = true) by (by apply Nat.ltb_lt). rewrite Hi'.
      constructor; [done|]. apply IH; [lia|done|]. right. by exists w.
    + apply IH; [lia|done|]. by left.
Qed.

Lemma heights_wrapText tooWide ws : forall i line y k l y',
  nth_error (wrapText tooWide i ws line y) k = Some (l, y') ->
  y' = (y + lineHeight * N.of_nat k)%N.
Proof.
  induction ws as [|w r IH]; intros i line y k l y'; simpl.
  - destruct k as [|k]; simpl; [|by destruct k]. intros [= _ <-]. lia.
  - destruct (tooWide (line +:+ w +:+ " ") && (0 <? i)).
    + destruct k as [|k]; simpl; [intros [= _ <-]; lia|].
      intros H. apply IH in H. lia.
    + apply IH.
Qed.

Lemma length_wrapText tooWide ws : forall i line y,
  1 <= length (wrapText tooWide i ws line y) <= 1 + length ws.
Proof.
  induction ws as [|w r IH]; intros i line y; simpl; [lia|].
  destruct (tooWide (line +:+ w +:+ " ") && (0 <? i)); simpl.
  - pose proof (IH (S i) (w +:+ " ") (y + lineHeight)%N). lia.
  - pose proof (IH (S i) (line +:+ w +:+ " ") y). lia.
Qed.

Lemma wrapText_first tooWide w r line y :
  wrapText tooWide 0 (w :: r) line y = wrapText tooWide 1 r (line +:+ w +:+ " ") y.
Proof. simpl. by rewrite andb_false_r. Qed.

(** X14. The bottom text box loses no text: the lines it draws, put one
    after the other, are the elements of [text] joined by spaces, with a
    space at the end; whatever the widths measured, the wrapping only
    chooses where the lines end.  The words it wraps give the joined text
    back when they are joined again. *)
Theorem text_box_keeps_the_text (tooWide : string -> bool) (text : list string) :
  glue (map (fun l => default "" (fst l)) (createTextBox tooWide text false))
  = join_with " " text +:+ " "
  /\ join_with " " (split_space (join_with " " text)) = join_with " " text.
Proof.
  split; [|apply join_split_space].
  unfold createTextBox. rewrite map_map. simpl.
  change (map (fun x : string * N => fst x)) with (@map (string * N) _ fst).
  by rewrite glue_wrapText, glue_split_space.
Qed.

(** X15. A line of the bottom text box is wider than the box allows only
    when it is a single word: every line drawn either is not too wide, or
    is one word, without a space inside, followed by a space. *)
Theorem text_box_lines_fit (tooWide : string -> bool) (text : list string)
    (l : string) (y : N) :
  In (Some l, y) (createTextBox tooWide text false) ->
  tooWide l = false \/ exists w, spaceless w = true /\ l = w +:+ " ".
Proof.
  unfold createTextBox. intros H. apply in_map_iff in H as ([l' y'] & [= -> ->] & H).
  pose proof (split_space_spaceless (join_with " " text)) as Hsp.
  destruct (split_space_cons (join_with " " text)) as (w & ws & Hw).
  rewrite Hw in *. rewrite wrapText_first in H.
  inversion Hsp as [|? ? Hw1 Hws]; subst.
  pose proof (fits_wrapText tooWide ws 1 ("" +:+ w +:+ " ") 100 (le_n _) Hws
                (or_intror (ex_intro _ w (conj Hw1 eq_refl)))) as Hall.
  rewrite List.Forall_forall in Hall. by apply (Hall (l, y)).
Qed.

(** X16. The lines of the bottom text box are drawn from [y = 100] down,
    36 apart, and there are at least one and at most as many as the text
    has words. *)
Theorem text_box_line_positions (tooWide : string -> bool) (text : list string) :
  (forall k l y, nth_error (createTextBox tooWide text false) k = Some (l, y) ->
     y = (100 + lineHeight * N.of_nat k)%N)
  /\ 1 <= length (createTextBox tooWide text false)
     <= length (split_space (join_with " " text)).
Proof.
  unfold createTextBox. split.
  - intros k l y H. rewrite nth_error_map in H.
    destruct (nth_error _ k) as [[l' y']|] eqn:E; [|done].
    simpl in H. injection H as _ <-. by apply heights_wrapText in E.
  - rewrite length_map.
    destruct (split_space_cons (join_with " " text)) as (w & ws & Hw).
    rewrite Hw, wrapText_first. simpl.
    pose proof (length_wrapText tooWide ws 1 ("" +:+ w +:+ " ") 100). lia.
Qed.

(** X15 on a text whose second word alone is too wide: the first word is
    drawn on a line of its own, the long word on the next. *)
Lemma text_box_lines_fit_witness :
  In (Some "abcdefgh ", 136%N)
     (createTextBox (fun s => 6 <? String.length s) ["to"; "abcdefgh"] false)
  /\ ((6 <? String.length "abcdefgh ") = false
      \/ exists w, spaceless w = true /\ "abcdefgh " = w +:+ " ").
Proof.
  assert (H : In (Some "abcdefgh ", 136%N)
                (createTextBox (fun s => 6 <? String.length s)
                   ["to"; "abcdefgh"] false)).
  { vm_compute. tauto. }
  split; [exact H|].
  exact (text_box_lines_fit (fun s => 6 <? String.length s) ["to"; "abcdefgh"]
           "abcdefgh " 136 H).
Defined.

(** ** One reset cycle at a time *)

Lemma filter_cancel (f : Timer -> bool) id l :
  List.filter f (cancel id l) = cancel id (List.filter f l).
Proof.
  unfold cancel. induction l as [|u r IH]; simpl; [done|].
  destruct (negb (tid u =? id)) eqn:E1, (f u) eqn:E2; simpl;
    rewrite ?E1, ?E2, IH; done.
Qed.

Lemma cancel_only id l : map tid l = [id] -> cancel id l = [].
Proof.
  destruct l as [|u [|v r]]; simpl; try done.
  intros [= ->]. by rewrite Nat.eqb_refl.
Qed.

Lemma cancel_wf id l n :
  List.NoDup (map tid l) -> Forall (fun u => tid u < n) l ->
  List.NoDup (map tid (cancel id l)) /\ Forall (fun u => tid u < n) (cancel id l).
Proof.
  intros Hnd Hall. split; [by apply NoDup_map_filter|].
  rewrite List.Forall_forall in *. intros u Hu. apply In_cancel in Hu as [Hu _].
  by apply Hall.
Qed.

Lemma stopped_cycle id s :
  cycleTimer (mm s) = Some id -> cycle_wf s ->
  let s1 := clearInterval id s in
  List.NoDup (map tid (timers (host s1)))
  /\ Forall (fun u => tid u < next_tid (host s1)) (timers (host s1))
  /\ cycle_intervals s1 = [].
Proof.
  intros Hc (Hnd & Hall & Hi). rewrite Hc in Hi.
  destruct (cancel_wf id _ _ Hnd Hall) as [H1 H2].
  split; [exact H1|]. split; [exact H2|].
  unfold cycle_intervals. simpl.
  rewrite filter_cancel. by apply cancel_only.
Qed.

Lemma stopResetCycle_wf s :
  cycle_wf s ->
  cycle_wf (stopResetCycle s) /\ cycle_intervals (stopResetCycle s) = []
  /\ cycleTimer (mm (stopResetCycle s)) = None.
Proof.
  intros H. unfold stopResetCycle.
  destruct (cycleTimer (mm s)) as [id|] eqn:Hc.
  - destruct (stopped_cycle id s Hc H) as (H1 & H2 & H3).
    split; [|by split]. by repeat split.
  - destruct H as (H1 & H2 & H3). rewrite Hc in H3.
    split; [|by split]. unfold cycle_wf. by rewrite Hc.
Qed.

(** X17. One reset cycle at a time.  While the manager knows its reset
    cycle (see [cycle_wf]), [startResetCycle] leaves exactly one pending
    timer that calls [resetModels], the new one, however often it is
    called; [stopResetCycle] and [clearModels] leave none; and after each
    of them the manager still knows its cycle. *)
Theorem reset_cycle_is_single (s : State) (Hwf : cycle_wf s) :
  (cycle_wf (startResetCycle s)
   /\ map tid (cycle_intervals (startResetCycle s)) = [next_tid (host s)])
  /\ (cycle_wf (stopResetCycle s) /\ cycle_intervals (stopResetCycle s) = [])
  /\ (cycle_wf (clearModels s) /\ cycle_intervals (clearModels s) = []
      /\ models (mm (clearModels s)) = []).
Proof.
  split; [|split].
  - assert (H : exists s1,
               startResetCycle s
               = with_mm (with_cycleTimer (Some (next_tid (host s))))
                   (fst (setInterval CbResetCycle cycleInterval s1))
               /\ next_tid (host s1) = next_tid (host s)
               /\ List.NoDup (map tid (timers (host s1)))
               /\ Forall (fun u => tid u < next_tid (host s1)) (timers (host s1))
               /\ cycle_intervals s1 = []).
    { unfold startResetCycle.
      destruct (cycleTimer (mm s)) as [id|] eqn:Hc.
      - exists (clearInterval id s). split; [done|]. split; [done|].
        by apply stopped_cycle.
      - exists s. destruct Hwf as (H1 & H2 & H3). rewrite Hc in H3.
        by repeat split. }
    destruct H as (s1 & -> & Hn & Hnd & Hall & Hi).
    assert (Hci : map tid (cycle_intervals
                    (with_mm (with_cycleTimer (Some (next_tid (host s))))
                       (fst (setInterval CbResetCycle cycleInterval s1))))
                  = [next_tid (host s)]).
    { unfold cycle_intervals in *. simpl. rewrite List.filter_app, Hi. simpl.
      by rewrite Hn. }
    split; [|exact Hci]. split; [|split].
    + simpl. rewrite map_app. simpl.
      apply NoDup_ListNoDup, NoDup_app. split; [by apply NoDup_ListNoDup|].
      split; [|apply NoDup_singleton].
      intros x Hx Hx'. apply list_elem_of_singleton in Hx'. subst x.
      apply list_elem_of_In, in_map_iff in Hx as (u & Hu & Hin).
      rewrite List.Forall_forall in Hall. apply Hall in Hin. lia.
    + simpl. apply Forall_app. split.
      * eapply List.Forall_impl; [|exact Hall]. simpl. lia.
      * constructor; [simpl; lia|constructor].
    + exact Hci.
  - destruct (stopResetCycle_wf s Hwf) as (H1 & H2 & _). by split.
  - destruct (stopResetCycle_wf s Hwf) as ((H1 & H2 & H3) & H4 & H5).
    unfold clearModels. split; [|by split].
    unfold cycle_wf, cycle_intervals in *. simpl. by rewrite H5 in *.
Qed.

(** X17 on the test page of three entries, whose load started the
    cycle: starting it again replaces the interval 6 by the interval 7. *)
Lemma reset_cycle_is_single_witness :
  cycle_wf (state (test_page env_ok cfgs_abc))
  /\ map tid (cycle_intervals (state (test_page env_ok cfgs_abc))) = [6]
  /\ map tid (cycle_intervals (startResetCycle (state (test_page env_ok cfgs_abc))))
     = [7]
  /\ cycle_intervals (clearModels (state (test_page env_ok cfgs_abc))) = [].
Proof.
  assert (Hwf : cycle_wf (state (test_page env_ok cfgs_abc))).
  { split; [|split].
    - apply NoDup_ListNoDup. eapply bool_decide_eq_true_1. vm_compute. reflexivity.
    - vm_compute. repeat constructor.
    - vm_compute. reflexivity. }
  pose proof (reset_cycle_is_single _ Hwf) as ((_ & H1) & _ & (_ & H2 & _)).
  split; [exact Hwf|]. split; [vm_compute; reflexivity|]. by split.
Defined.

(** ** Stopping the experience *)

(** X18. Stop in AR mode leaves nothing behind.  On a page that the
    tracking events have brought about, with the MindAR instance there and
    test mode off, [stopAR], when its cleanup function is installed and
    [mindarThree.stop()] resolves, leaves no pending timer at all, no
    recorded timeout id, an empty registry, no MindAR instance and no
    scene; so no model is visible, and none becomes visible however long
    the clock runs. *)
Theorem stop_ar_leaves_nothing (env : Env) (cfgs : list Config) (p : Page)
    (fuel : nat) (t : N)
    (Htracked : tracked env cfgs (state p))
    (Hmode : testMode (state p) = false)
    (Hmindar : mindarThree (state p) = true) :
  let q := stopAR true true p in
  timers (host (state q)) = []
  /\ timeoutIds (state q) = []
  /\ models (mm (state q)) = []
  /\ mindarThree (state q) = false
  /\ scene q = None
  /\ (forall k, visibleModel k (state q) = false)
  /\ advance RevTracked fuel t (state q) = Some (at_time t (state q))
  /\ forall k, visibleModel k (at_time t (state q)) = false.
Proof.
  pose proof (tracked_seq_inv _ _ _ Htracked) as Hinv.
  pose proof (stop_cancels _ Hinv) as Hc.
  pose proof (tracked_is_wf _ _ _ Htracked) as [_ Hrest].
  assert (Hids : timeoutIds (stopAnimationSequence (state p)) = []).
  { unfold stopAnimationSequence.
    destruct (animationSequenceStarted (state p)) eqn:E; cbn [negb].
    - by rewrite timeoutIds_concealAll.
    - by destruct (Hrest eq_refl) as (_ & H & _). }
  unfold stopAR. rewrite Hmindar, Hmode. cbn [andb negb].
  set (s1 := with_mindar false (stopAnimationSequence (state p))).
  assert (H1 : timers (host s1) = []) by exact Hc.
  assert (H2 : timeoutIds s1 = []) by exact Hids.
  assert (Ht : timers (host (stopResetCycle s1)) = []).
  { unfold stopResetCycle. destruct (cycleTimer (mm s1)); [|done].
    simpl. unfold s1 in H1. simpl in H1. by rewrite H1. }
  assert (Hi : timeoutIds (stopResetCycle s1) = []).
  { unfold stopResetCycle. by destruct (cycleTimer (mm s1)). }
  assert (Hm : mindarThree (stopResetCycle s1) = false).
  { unfold stopResetCycle. by destruct (cycleTimer (mm s1)). }
  assert (Ht2 : timers (host (stopResetCycle (stopResetCycle s1))) = []).
  { unfold stopResetCycle at 1.
    destruct (cycleTimer (mm (stopResetCycle s1))); [|done].
    simpl. by rewrite Ht. }
  assert (Hi2 : timeoutIds (stopResetCycle (stopResetCycle s1)) = []).
  { unfold stopResetCycle at 1.
    by destruct (cycleTimer (mm (stopResetCycle s1))). }
  assert (Hm2 : mindarThree (stopResetCycle (stopResetCycle s1)) = false).
  { unfold stopResetCycle at 1.
    by destruct (cycleTimer (mm (stopResetCycle s1))). }
  cbv zeta. unfold with_scene, with_state. cbn [state scene].
  fold s1. unfold clearModels.
  cbn [host timeoutIds mm models mindarThree with_mm].
  split; [exact Ht2|]. split; [exact Hi2|]. split; [done|].
  split; [exact Hm2|]. split; [done|]. split; [done|].
  split; [|done]. apply advance_idle. exact Ht2.
Qed.

(** X18 on the page of three entries, stopped while the sequence is
    midway. *)
Lemma stop_ar_leaves_nothing_witness :
  tracked env_ok cfgs_abc tracked_midway
  /\ testMode tracked_midway = false
  /\ mindarThree tracked_midway = true
  /\ timers (host tracked_midway) <> []
  /\ timers (host (state (stopAR true true
                            {| state := tracked_midway; scene := None;
                               anchor := []; net_log := [] |}))) = [].
Proof.
  split; [exact tracked_midway_reached|]. split; [reflexivity|].
  split; [reflexivity|]. split; [by vm_compute|].
  exact (proj1 (stop_ar_leaves_nothing env_ok cfgs_abc
                  {| state := tracked_midway; scene := None;
                     anchor := []; net_log := [] |} 0 0
                  tracked_midway_reached eq_refl eq_refl)).
Defined.

(** ** Frames and the schedule *)

(** X19. Frames do not move the schedule.  Whatever frames are rendered
    between the timers, and with whatever deltas, [updateAnimations]
    changes nothing of what is visible, of the pending timers, of the
    spotlights and of the flags: a run of events and the same run with
    its frames left out end in states that differ in mixers and actions
    only. *)
Theorem frames_do_not_move_the_schedule (rev : Revision) (evs : list Event)
    (s : State) :
  schedule_view (run rev evs s)
  = schedule_view (run rev (List.filter is_fire evs) s)
  /\ (forall k, visibleModel k (run rev evs s)
                = visibleModel k (run rev (List.filter is_fire evs) s))
  /\ timers (host (run rev evs s))
     = timers (host (run rev (List.filter is_fire evs) s)).
Proof.
  assert (H : forall s, schedule_view (run rev evs s)
                        = schedule_view (run rev (List.filter is_fire evs) s)).
  { clear s. induction evs as [|[|delta] r IH]; intros s; simpl; [done| |].
    - apply IH.
    - rewrite (view_local_run rev r (updateAnimations delta s)).
      rewrite view_updateAnimations.
      rewrite <- (view_local_run rev r s). apply IH. }
  split; [apply H|]. split.
  - intros k. rewrite <- (view_visible k (run rev evs s)), H.
    apply view_visible.
  - rewrite <- (view_timers (run rev evs s)), H. apply view_timers.
Qed.
